(** * slurm-gcp [scripts/resume.py]: a shallow embedding and its properties

    The resume program expands a node expression, orders the nodes by
    their policy-group identifier (pid), groups them per pid, optionally
    creates placement groups, cuts every group into chunks and hands the
    chunks to a pool of workers, each of which submits one bulk-create
    request and waits for it.

    External collaborators ([util.get_pid], [util.run], the cloud API, the
    file system) are parameters of the development; the Python code of
    [resume.py] itself is transcribed function by function. *)

From Stdlib Require Import String Ascii List Arith Lia Permutation Sorted Bool.
From stdpp Require Import base gmap strings list pretty.

Open Scope string_scope.
Open Scope list_scope.
Open Scope nat_scope.

(** ** Module-level constants (resume.py:39, resume.py:47) *)

Definition PLACEMENT_MAX_CNT : nat := 22.
Definition TOT_REQ_CNT : nat := 1000.

(** ** Data model *)

Definition NodeName := string.
Definition Pid := string.

(** The job identifier handed to [main]: the integer [0] that
    [__main__] starts from, or the string found on the command line or in
    [SLURM_JOB_ID]. *)
Inductive JobId : Type :=
| JobInt0
| JobStr (s : string).

(** Python truthiness of the job identifier. *)
Definition job_truthy (j : JobId) : bool :=
  match j with
  | JobInt0 => false
  | JobStr s => negb (String.eqb s "")
  end.

(** How an f-string renders the job identifier. *)
Definition job_format (j : JobId) : string :=
  match j with
  | JobInt0 => "0"
  | JobStr s => s
  end.

(** Truthiness of a value that is [None] or a [str]. *)
Definition str_truthy (o : option string) : bool :=
  match o with
  | None => false
  | Some s => negb (String.eqb s "")
  end.

(** [a or b] on such values, where [b] is a string. *)
Definition str_or (o : option string) (dflt : string) : string :=
  match o with
  | Some s => if String.eqb s "" then dflt else s
  | None => dflt
  end.

(** The fields of an instance definition that [resume.py] reads. *)
Record InstanceDefinition : Type := {
  machine_type : string;
  image : string;
  compute_disk_type : string;
  compute_disk_size_gb : nat;
  region : string;
  zone : string;
  vpc_subnet : option string;
  gpu_type : option string;
  gpu_count : nat;
  preemptible_bursting : bool;
  compute_labels : list (string * string);
  cpu_platform : option string;
  regional_capacity : bool;
  regional_policy : option string;
  exclusive : bool;
  enable_placement : bool
}.

(** The fields of the loaded configuration that [resume.py] reads. *)
Record Config : Type := {
  project : string;
  cluster_name : string;
  shared_vpc_host_project : option string;
  compute_node_service_account : string;
  compute_node_scopes : list string;
  external_compute_ips : bool;
  google_app_cred_path : option string;
  instance_defs : gmap Pid InstanceDefinition
}.

(** The [scheduling] dictionary of an instance template; a key that is
    absent from the dictionary is [None]. *)
Record Scheduling : Type := {
  preemptible : option bool;
  onHostMaintenance : option string;
  automaticRestart : option bool
}.

Record Disk : Type := {
  boot : bool;
  autoDelete : bool;
  sourceImage : string;
  diskType : string;
  diskSizeGb : nat
}.

Record AccessConfig : Type := {
  ac_type : string;
  ac_name : string
}.

Record NetworkInterface : Type := {
  subnetwork : string;
  accessConfigs : option (list AccessConfig)
}.

Record Accelerator : Type := {
  acceleratorCount : nat;
  acceleratorType : string
}.

(** The [config] dictionary built by [create_instance]. *)
Record InstanceProperties : Type := {
  ip_name : string;
  machineType : string;
  disks : list Disk;
  networkInterfaces : list NetworkInterface;
  sa_email : string;
  sa_scopes : list string;
  tags : list string;
  metadata : list (string * string);
  scheduling : option Scheduling;
  resourcePolicies : option (list string);
  guestAccelerators : option (list Accelerator);
  labels : option (list (string * string));
  minCpuPlatform : option string
}.

(** The [body] dictionary of a bulk-insert call. *)
Record BulkBody : Type := {
  count : nat;
  instanceProperties : InstanceProperties;
  perInstanceProperties : list NodeName;
  locationPolicy : option string
}.

(** Where a bulk-insert call is sent. *)
Inductive Target : Type :=
| Regional (rg : string)
| Zonal (zn : string).

(** The body of a resource-policy (placement group) insertion. *)
Record PGConfig : Type := {
  pg_name : string;
  pg_region : string;
  collocation : string;
  vmCount : nat
}.

(** An operation handle as returned by the provider. *)
Record Operation : Type := {
  op_zone : option string;
  op_region : option string;
  op_name : string
}.

(** The payload of a status poll. *)
Record OpResult : Type := {
  status : string
}.

(** Which status endpoint a poll goes to. *)
Inductive OpScope : Type :=
| ZoneScope (z : string)
| RegionScope (r : string)
| GlobalScope.

(** A chunk of nodes: the dictionary [dict(nodes=...)] with its optional
    ['pg'] key. *)
Record NodeChunk : Type := {
  nodes : list NodeName;
  pg : option string
}.

(** ** Exceptions, outcomes and traces *)

Inductive exn : Type :=
| KeyError (k : string)
| IndexError
| ExternalError (msg : string).

(** The outcome of running a piece of code: it returns, it raises, or it
    is still polling when the observation budget runs out. *)
Inductive outcome (A : Type) : Type :=
| Ok (a : A)
| Raise (e : exn)
| Timeout.
Arguments Ok {A} a.
Arguments Raise {A} e.
Arguments Timeout {A}.

(** Calls that leave the process. *)
Inductive event : Type :=
| EvShowHostnames (arg : string)
| EvDownNodes (node_list : list NodeName) (reason : string)
| EvShowHostlist (file_content : string)
| EvUpdateDown (hostlist : string) (reason : string)
| EvBuildCompute
| EvReadText (path : string)
| EvBulkInsert (t : Target) (b : BulkBody)
| EvPolicyInsert (c : PGConfig)
| EvOperationGet (s : OpScope) (name : string)
| EvSleep (seconds : nat)
| EvLogError (node0 : option NodeName) (cnt : nat) (e : exn).

(** A computation: the calls it made, and how it ended. *)
Definition M (A : Type) : Type := list event * outcome A.

Definition ret {A} (a : A) : M A := ([], Ok a).
Definition raise {A} (e : exn) : M A := ([], Raise e).
Definition emit (ev : event) : M unit := ([ev], Ok tt).

Definition bind {A B} (m : M A) (k : A -> M B) : M B :=
  match m with
  | (tr, Ok a) => let '(tr', r) := k a in (tr ++ tr', r)
  | (tr, Raise e) => (tr, Raise e)
  | (tr, Timeout) => (tr, Timeout)
  end.

(** An external call: it is recorded, then answers or raises. *)
Definition call {A} (ev : event) (answer : outcome A) : M A :=
  ([ev], answer).

Declare Scope m_scope.
Delimit Scope m_scope with m.
Notation "'let*' x ':=' m 'in' k" := (bind m (fun x => k))
  (at level 10, x name, m at level 100, k at level 200) : m_scope.
Notation "m ';;' k" := (bind m (fun _ => k))
  (at level 100, k at level 200, right associativity) : m_scope.

(** [try: body except Exception as e: handler e]. *)
Definition try_except {A} (body : M A) (handler : exn -> M A) : M A :=
  match body with
  | (tr, Raise e) => let '(tr', r) := handler e in (tr ++ tr', r)
  | other => other
  end.

(** ** Python built-ins used by the script *)

(** [range(start, stop, step)] for a positive step. *)
Definition py_range (start stop step : nat) : list nat :=
  map (fun k => start + k * step) (seq 0 ((stop - start + step - 1) / step)).

(** [lst[i:j]]. *)
Definition slice {A} (lst : list A) (i j : nat) : list A :=
  take (j - i) (drop i lst).

(** [s.split(sep)[0]] for a one-character separator. *)
Fixpoint split_first (sep : ascii) (s : string) : string :=
  match s with
  | EmptyString => EmptyString
  | String c s' => if Ascii.eqb c sep then EmptyString
                   else String c (split_first sep s')
  end.

(** [s.split(sep)[-1]] for a one-character separator. *)
Fixpoint split_last_from (sep : ascii) (acc s : string) : string :=
  match s with
  | EmptyString => acc
  | String c s' => if Ascii.eqb c sep then split_last_from sep EmptyString s'
                   else split_last_from sep (acc +:+ String c EmptyString) s'
  end.
Definition split_last (sep : ascii) (s : string) : string :=
  split_last_from sep EmptyString s.

(** ["\n".join(l)]. *)
Definition join_lines (l : list string) : string :=
  String.concat (String "010"%char EmptyString) l.

(** *** [sorted(l, key=...)]: a stable sort on string keys

    Python orders strings by code point, which on the byte encoding is
    the lexicographic order of [String.leb]. *)
Section Sorted.
Context {A : Type} (key : A -> string).

Fixpoint insert_by (x : A) (l : list A) : list A :=
  match l with
  | [] => [x]
  | y :: l' => if String.leb (key x) (key y) then x :: y :: l'
               else y :: insert_by x l'
  end.

(** Elements are inserted from the right, each in front of the first
    element whose key is not smaller: equal keys keep their order. *)
Fixpoint sorted (l : list A) : list A :=
  match l with
  | [] => []
  | x :: l' => insert_by x (sorted l')
  end.

(** [itertools.groupby(l, key)]: the maximal runs of equal keys. *)
Fixpoint groupby (l : list A) : list (string * list A) :=
  match l with
  | [] => []
  | x :: l' =>
      match groupby l' with
      | (k, g) :: rest =>
          if String.eqb (key x) k then (k, x :: g) :: rest
          else (key x, [x]) :: (k, g) :: rest
      | [] => [(key x, [x])]
      end
  end.
End Sorted.

(** *** Dictionaries whose iteration order matters

    [nodes_by_pid] is iterated with [.values()], so it is kept as an
    association list in insertion order. *)
Section Dict.
Context {V : Type}.

(** [d[k] = v]: an existing key keeps its place. *)
Fixpoint dict_set (k : string) (v : V) (d : list (string * V))
  : list (string * V) :=
  match d with
  | [] => [(k, v)]
  | (k', v') :: d' => if String.eqb k' k then (k', v) :: d'
                      else (k', v') :: dict_set k v d'
  end.

(** [{k: v for k, v in items}]. *)
Definition dict_of_items (items : list (string * V)) : list (string * V) :=
  fold_left (fun d kv => dict_set (fst kv) (snd kv) d) items [].

(** [del d[k]]. *)
Definition dict_del (k : string) (d : list (string * V))
  : list (string * V) :=
  List.filter (fun kv => negb (String.eqb (fst kv) k)) d.

Definition dict_keys (d : list (string * V)) : list string := map fst d.
Definition dict_values (d : list (string * V)) : list V := map snd d.
End Dict.

Fixpoint mapM {A B} (f : A -> M B) (l : list A) : M (list B) :=
  match l with
  | [] => ret []
  | x :: l' => bind (f x) (fun y => bind (mapM f l') (fun ys => ret (y :: ys)))
  end.

(** [[x for x in l if p x]] where evaluating [p] may raise. *)
Fixpoint filterM {A} (p : A -> M bool) (l : list A) : M (list A) :=
  match l with
  | [] => ret []
  | x :: l' =>
      bind (p x) (fun b =>
      bind (filterM p l') (fun xs => ret (if b then x :: xs else xs)))
  end.

(** ** The world outside the script

    [util.get_pid], the loaded configuration, the scheduler's [scontrol],
    the file system and the cloud API.  [show_hostnames] stands for
    [util.run("scontrol show hostnames ...", check=True).stdout.splitlines()];
    [operation_get s name k] is the answer to the [k]-th status poll of an
    operation; [patience] bounds the number of polls that are observed. *)
Record World : Type := {
  get_pid : NodeName -> Pid;
  cfg : Config;
  SCRIPTS_DIR : string;
  custom_compute_exists : bool;
  read_text : string -> outcome string;
  show_hostnames : string -> outcome (list NodeName);
  show_hostlist : string -> outcome string;
  update_down : string -> string -> outcome unit;
  build_compute : outcome unit;
  bulk_insert : Target -> BulkBody -> outcome Operation;
  policy_insert : PGConfig -> outcome Operation;
  operation_get : OpScope -> string -> nat -> outcome OpResult;
  patience : nat
}.

(** ** The functions of [resume.py] *)

Section Script.
Variable w : World.
Local Open Scope m_scope.

(** [cfg.instance_defs[pid]]. *)
Definition lookup_def (pid : Pid) : M InstanceDefinition :=
  match instance_defs (cfg w) !! pid with
  | Some d => ret d
  | None => raise (KeyError pid)
  end.

(** [wait_for_operation(compute, operation)] (resume.py:54-78); [k] counts
    the polls already made. *)
Fixpoint wait_loop (fuel k : nat) (operation : Operation) : M OpResult :=
  match fuel with
  | 0 => ([], Timeout)
  | S fuel' =>
      let scope :=
        match op_zone operation with
        | Some z => ZoneScope (split_last "/" z)
        | None =>
            match op_region operation with
            | Some r => RegionScope (split_last "/" r)
            | None => GlobalScope
            end
        end in
      let* result := call (EvOperationGet scope (op_name operation))
                          (operation_get w scope (op_name operation) k) in
      if String.eqb (status result) "DONE" then ret result
      else (emit (EvSleep 1) ;; wait_loop fuel' (S k) operation)
  end.

Definition wait_for_operation (operation : Operation) : M OpResult :=
  wait_loop (patience w) 0 operation.

(** The sequence of conditional overwrites of resume.py:144-175, one
    function per [if]. *)
Definition apply_placement (placement_group_name : option string)
    (config : InstanceProperties) : InstanceProperties :=
  match placement_group_name with
  | Some name =>
      {| ip_name := ip_name config; machineType := machineType config;
         disks := disks config;
         networkInterfaces := networkInterfaces config;
         sa_email := sa_email config; sa_scopes := sa_scopes config;
         tags := tags config; metadata := metadata config;
         scheduling := Some {| preemptible := None;
                               onHostMaintenance := Some "TERMINATE";
                               automaticRestart := Some false |};
         resourcePolicies := Some [name];
         guestAccelerators := guestAccelerators config;
         labels := labels config;
         minCpuPlatform := minCpuPlatform config |}
  | None => config
  end.

Definition apply_gpu (instance_def : InstanceDefinition)
    (config : InstanceProperties) : InstanceProperties :=
  match gpu_type instance_def with
  | Some gt =>
      if String.eqb gt "" then config else
      {| ip_name := ip_name config; machineType := machineType config;
         disks := disks config;
         networkInterfaces := networkInterfaces config;
         sa_email := sa_email config; sa_scopes := sa_scopes config;
         tags := tags config; metadata := metadata config;
         scheduling := Some {| preemptible := None;
                               onHostMaintenance := Some "TERMINATE";
                               automaticRestart := None |};
         resourcePolicies := resourcePolicies config;
         guestAccelerators :=
           Some [ {| acceleratorCount := gpu_count instance_def;
                     acceleratorType := gt |} ];
         labels := labels config;
         minCpuPlatform := minCpuPlatform config |}
  | None => config
  end.

Definition apply_preemptible (instance_def : InstanceDefinition)
    (config : InstanceProperties) : InstanceProperties :=
  if preemptible_bursting instance_def then
    {| ip_name := ip_name config; machineType := machineType config;
       disks := disks config;
       networkInterfaces := networkInterfaces config;
       sa_email := sa_email config; sa_scopes := sa_scopes config;
       tags := tags config; metadata := metadata config;
       scheduling := Some {| preemptible := Some true;
                             onHostMaintenance := Some "TERMINATE";
                             automaticRestart := Some false |};
       resourcePolicies := resourcePolicies config;
       guestAccelerators := guestAccelerators config;
       labels := labels config;
       minCpuPlatform := minCpuPlatform config |}
  else config.

Definition apply_labels (instance_def : InstanceDefinition)
    (config : InstanceProperties) : InstanceProperties :=
  match compute_labels instance_def with
  | [] => config
  | ls =>
    {| ip_name := ip_name config; machineType := machineType config;
       disks := disks config;
       networkInterfaces := networkInterfaces config;
       sa_email := sa_email config; sa_scopes := sa_scopes config;
       tags := tags config; metadata := metadata config;
       scheduling := scheduling config;
       resourcePolicies := resourcePolicies config;
       guestAccelerators := guestAccelerators config;
       labels := Some ls;
       minCpuPlatform := minCpuPlatform config |}
  end.

Definition apply_cpu_platform (instance_def : InstanceDefinition)
    (config : InstanceProperties) : InstanceProperties :=
  if str_truthy (cpu_platform instance_def) then
    {| ip_name := ip_name config; machineType := machineType config;
       disks := disks config;
       networkInterfaces := networkInterfaces config;
       sa_email := sa_email config; sa_scopes := sa_scopes config;
       tags := tags config; metadata := metadata config;
       scheduling := scheduling config;
       resourcePolicies := resourcePolicies config;
       guestAccelerators := guestAccelerators config;
       labels := labels config;
       minCpuPlatform := cpu_platform instance_def |}
  else config.

Definition apply_external_ips (config : InstanceProperties)
  : InstanceProperties :=
  if external_compute_ips (cfg w) then
    {| ip_name := ip_name config; machineType := machineType config;
       disks := disks config;
       networkInterfaces :=
         match networkInterfaces config with
         | ni :: rest =>
             {| subnetwork := subnetwork ni;
                accessConfigs :=
                  Some [ {| ac_type := "ONE_TO_ONE_NAT";
                            ac_name := "External NAT" |} ] |} :: rest
         | [] => []
         end;
       sa_email := sa_email config; sa_scopes := sa_scopes config;
       tags := tags config; metadata := metadata config;
       scheduling := scheduling config;
       resourcePolicies := resourcePolicies config;
       guestAccelerators := guestAccelerators config;
       labels := labels config;
       minCpuPlatform := minCpuPlatform config |}
  else config.

(** The instance template of a request, after all overwrites
    (resume.py:97-175); [items] are the metadata entries read from the
    auxiliary files. *)
Definition build_config (instance_def : InstanceDefinition)
    (placement_group_name : option string)
    (items : list (string * string)) : InstanceProperties :=
  let config :=
    {| ip_name := "notused";
       machineType := machine_type instance_def;
       disks := [ {| boot := true; autoDelete := true;
                     sourceImage := image instance_def;
                     diskType := compute_disk_type instance_def;
                     diskSizeGb := compute_disk_size_gb instance_def |} ];
       networkInterfaces :=
         [ {| subnetwork :=
                "projects/" +:+ str_or (shared_vpc_host_project (cfg w))
                                       (project (cfg w))
                +:+ "/regions/" +:+ region instance_def
                +:+ "/subnetworks/"
                +:+ str_or (vpc_subnet instance_def)
                           (cluster_name (cfg w) +:+ "-"
                            +:+ region instance_def);
              accessConfigs := None |} ];
       sa_email := compute_node_service_account (cfg w);
       sa_scopes := compute_node_scopes (cfg w);
       tags := ["compute"];
       metadata := [("enable-oslogin", "TRUE");
                    ("VmDnsSetting", "GlobalOnly");
                    ("terraform", "TRUE")] ++ items;
       scheduling := None;
       resourcePolicies := None;
       guestAccelerators := None;
       labels := None;
       minCpuPlatform := None |} in
  let config := apply_placement placement_group_name config in
  let config := apply_gpu instance_def config in
  let config := apply_preemptible instance_def config in
  let config := apply_labels instance_def config in
  let config := apply_cpu_platform instance_def config in
  apply_external_ips config.

(** [create_instance(compute, instance_def, node_list,
    placement_group_name)] (resume.py:82-194). *)
Definition create_instance (instance_def : InstanceDefinition)
    (node_list : list NodeName) (placement_group_name : option string)
  : M Operation :=
  match node_list with
  | [] => raise IndexError
  | _ :: _ =>
      let meta_files :=
        [("config", SCRIPTS_DIR w +:+ "/config.yaml");
         ("util-script", SCRIPTS_DIR w +:+ "/util.py");
         ("startup-script", SCRIPTS_DIR w +:+ "/startup.sh");
         ("setup-script", SCRIPTS_DIR w +:+ "/setup.py")]
        ++ (if custom_compute_exists w
            then [("custom-compute-install",
                   SCRIPTS_DIR w +:+ "/custom-compute-install")]
            else []) in
      let* items :=
        mapM (fun kv =>
                let* v := call (EvReadText (snd kv)) (read_text w (snd kv)) in
                ret (fst kv, v))
             meta_files in
      let config := build_config instance_def placement_group_name items in
      let perInstanceProperties :=
        dict_keys (dict_of_items (map (fun k => (k, tt)) node_list)) in
      if regional_capacity instance_def then
        let body :=
          {| count := length node_list;
             instanceProperties := config;
             perInstanceProperties := perInstanceProperties;
             locationPolicy :=
               if str_truthy (regional_policy instance_def)
               then regional_policy instance_def else None |} in
        call (EvBulkInsert (Regional (region instance_def)) body)
             (bulk_insert w (Regional (region instance_def)) body)
      else
        let body :=
          {| count := length node_list;
             instanceProperties := config;
             perInstanceProperties := perInstanceProperties;
             locationPolicy := None |} in
        call (EvBulkInsert (Zonal (zone instance_def)) body)
             (bulk_insert w (Zonal (zone instance_def)) body)
  end.

(** [down_nodes(node_list, reason)] (resume.py:227-235); the first event
    marks the entry into the function. *)
Definition down_nodes (node_list : list NodeName) (reason : string)
  : M unit :=
  emit (EvDownNodes node_list reason) ;;
  let* hostlist := call (EvShowHostlist (join_lines node_list))
                        (show_hostlist w (join_lines node_list)) in
  call (EvUpdateDown hostlist reason) (update_down w hostlist reason).

Definition FAIL_REASON : string := "resume.py failed, see resume.log".

(** [add_instances(node_chunk)] (resume.py:198-223). *)
Definition add_instances (node_chunk : NodeChunk) : M unit :=
  let node_list := nodes node_chunk in
  let pg_name := pg node_chunk in
  let* compute := call EvBuildCompute (build_compute w) in
  match node_list with
  | [] => raise IndexError
  | n0 :: _ =>
      let pid := get_pid w n0 in
      let* instance_def := lookup_def pid in
      try_except
        (let* operation := create_instance instance_def node_list pg_name in
         let* done := wait_for_operation operation in
         ret tt)
        (fun e =>
           emit (EvLogError (Some n0) (length node_list) e) ;;
           down_nodes node_list FAIL_REASON)
  end.

(** The loop of [create_placement_groups] (resume.py:256-275) over the
    remaining values of [range(vm_count)], with the loop state
    [(pg_names, pg_ops, pg_index)]. *)
Fixpoint pg_loop (arg_job_id : JobId) (vm_count : nat) (rgn : string)
    (starts : list nat) (st : list string * list Operation * nat)
  : M (list string * list Operation * nat) :=
  match starts with
  | [] => ret st
  | i :: starts' =>
      if negb (i mod PLACEMENT_MAX_CNT =? 0) then
        pg_loop arg_job_id vm_count rgn starts' st
      else
        let '(pg_names, pg_ops, pg_index) := st in
        let pg_index := pg_index + 1 in
        let name := cluster_name (cfg w) +:+ "-" +:+ job_format arg_job_id
                    +:+ "-" +:+ pretty pg_index in
        let pg_names := pg_names ++ [name] in
        let config :=
          {| pg_name := name;
             pg_region := rgn;
             collocation := "COLLOCATED";
             vmCount := Nat.min (vm_count - i) PLACEMENT_MAX_CNT |} in
        let* op := call (EvPolicyInsert config) (policy_insert w config) in
        pg_loop arg_job_id vm_count rgn starts' (pg_names, pg_ops ++ [op], pg_index)
  end.

(** [create_placement_groups(arg_job_id, vm_count, region)]
    (resume.py:239-280). *)
Definition create_placement_groups (arg_job_id : JobId) (vm_count : nat)
    (rgn : string) : M (list string) :=
  let* compute := call EvBuildCompute (build_compute w) in
  let* st := pg_loop arg_job_id vm_count rgn (seq 0 vm_count) ([], [], 0) in
  let* waited := mapM wait_for_operation (snd (fst st)) in
  ret (fst (fst st)).

(** Truthiness of [pg_names]: [None] and the empty list are false. *)
Definition pg_truthy (pg_names : option (list string)) : bool :=
  match pg_names with
  | Some (_ :: _) => true
  | _ => false
  end.

(** The loop of the generator [chunks] (resume.py:322-327) over the
    remaining start indices; the result is what was yielded and, if the
    generator raised, the exception. *)
Fixpoint chunks_loop (lst : list NodeName) (pg_names : option (list string))
    (n : nat) (starts : list nat) (pg_index : nat)
  : list NodeChunk * option exn :=
  match starts with
  | [] => ([], None)
  | i :: starts' =>
      if pg_truthy pg_names then
        match default [] pg_names !! pg_index with
        | Some name =>
            let '(ys, e) := chunks_loop lst pg_names n starts' (pg_index + 1) in
            ({| nodes := slice lst i (i + n); pg := Some name |} :: ys, e)
        | None => ([], Some IndexError)
        end
      else
        let '(ys, e) := chunks_loop lst pg_names n starts' pg_index in
        ({| nodes := slice lst i (i + n); pg := None |} :: ys, e)
  end.

(** [chunks(lst, pg_names)] (resume.py:315-327). *)
Definition chunks (lst : list NodeName) (pg_names : option (list string))
  : list NodeChunk * option exn :=
  let n := if pg_truthy pg_names then PLACEMENT_MAX_CNT else 1000 in
  chunks_loop lst pg_names n (py_range 0 (length lst) n) 0.

(** [chain.from_iterable]: the generators are drained one after the
    other; the first exception ends the chain. *)
Fixpoint chain_from_iterable {A} (gens : list (list A * option exn))
  : list A * option exn :=
  match gens with
  | [] => ([], None)
  | (ys, Some e) :: _ => (ys, Some e)
  | (ys, None) :: gens' =>
      let '(zs, e) := chain_from_iterable gens' in (ys ++ zs, e)
  end.

(** The sequential part of [main] (resume.py:285-313): [None] is the
    early [return]; otherwise the mapping [nodes_by_pid] and
    [placement_groups] as they stand when the pool is entered. *)
Definition main_plan (arg_nodes : string) (arg_job_id : JobId)
  : M (option (list (Pid * list NodeName) * option (list string))) :=
  let* lines := call (EvShowHostnames arg_nodes)
                     (show_hostnames w arg_nodes) in
  let node_list := sorted (get_pid w) lines in
  match node_list with
  | [] => raise IndexError
  | n0 :: _ =>
      let pid := get_pid w n0 in
      let* from_prolog :=
        (if job_truthy arg_job_id
         then let* d := lookup_def pid in ret (negb (exclusive d))
         else ret false) in
      if from_prolog then ret None
      else
        let nodes_by_pid := dict_of_items (groupby (get_pid w) node_list) in
        let* nodes_by_pid :=
          (if negb (job_truthy arg_job_id) then
             let* skipped :=
               filterM (fun p => let* d := lookup_def p in ret (exclusive d))
                       (dict_keys nodes_by_pid) in
             ret (fold_left (fun d p => dict_del p d) skipped nodes_by_pid)
           else ret nodes_by_pid) in
        (* with no job id the loop variable rebinds [pid], but the test
           below then stops at [arg_job_id] *)
        let* placement_groups :=
          (if job_truthy arg_job_id then
             let* d := lookup_def pid in
             if enable_placement d
                && String.eqb (split_first "-" (machine_type d)) "c2"
                && (1 <? length node_list)
             then
               let* names := create_placement_groups arg_job_id
                               (length node_list) (region d) in
               emit (EvSleep 5) ;; ret (Some names)
             else ret None
           else ret None) in
        ret (Some (nodes_by_pid, placement_groups))
  end.

(** What one invocation of [main] amounts to: the calls of the main
    thread, the chunks handed to the pool in submission order, what
    each worker did with its chunk, and how [main] ended.  Workers run
    concurrently, so their traces are kept apart. *)
Record MainRun : Type := {
  main_trace : list event;
  dispatched : list NodeChunk;
  workers : list (M unit);
  main_result : outcome unit
}.

Definition is_timeout {A} (m : M A) : bool :=
  match snd m with
  | Timeout => true
  | _ => false
  end.

(** [main(arg_nodes, arg_job_id)] (resume.py:284-335).  [exe.map] submits
    every chunk the generators yield; it never looks at the workers'
    results, so their exceptions stay in the futures; leaving the [with]
    block joins the workers. *)
Definition main (arg_nodes : string) (arg_job_id : JobId) : MainRun :=
  match main_plan arg_nodes arg_job_id with
  | (tr, Ok None) =>
      {| main_trace := tr; dispatched := []; workers := [];
         main_result := Ok tt |}
  | (tr, Ok (Some (nodes_by_pid, placement_groups))) =>
      let '(node_chunks, gen_exn) :=
        chain_from_iterable
          (map (fun lst => chunks lst placement_groups)
               (dict_values nodes_by_pid)) in
      let ws := map add_instances node_chunks in
      {| main_trace := tr; dispatched := node_chunks; workers := ws;
         main_result :=
           if existsb is_timeout ws then Timeout
           else match gen_exn with
                | Some e => Raise e
                | None => Ok tt
                end |}
  | (tr, Raise e) =>
      {| main_trace := tr; dispatched := []; workers := [];
         main_result := Raise e |}
  | (tr, Timeout) =>
      {| main_trace := tr; dispatched := []; workers := [];
         main_result := Timeout |}
  end.

End Script.

(** ** Sample inputs

    Used to run the definitions on concrete data. *)

(** Modelled from the spec: [util.get_pid] lives in [util.py], which is
    not part of the sources at hand.  The spec only says that a node name
    encodes a pid and an ordinal and that the parse is pure and
    deterministic.  This sample parse takes the pid to be everything in
    front of the last ['-'] of the name. *)
Fixpoint sample_get_pid (n : NodeName) : Pid :=
  match n with
  | EmptyString => EmptyString
  | String c n' =>
      if existsb (Ascii.eqb "-") (list_ascii_of_string n')
      then String c (sample_get_pid n')
      else if Ascii.eqb c "-" then EmptyString
           else String c (sample_get_pid n')
  end.

Definition sample_def (excl place : bool) (gpu : option string)
    (preempt : bool) : InstanceDefinition :=
  {| machine_type := "c2-standard-4"; image := "img";
     compute_disk_type := "pd-standard"; compute_disk_size_gb := 20;
     region := "us-central1"; zone := "us-central1-a";
     vpc_subnet := None; gpu_type := gpu; gpu_count := 1;
     preemptible_bursting := preempt; compute_labels := [];
     cpu_platform := None; regional_capacity := false;
     regional_policy := None; exclusive := excl;
     enable_placement := place |}.

Definition sample_cfg (defs : gmap Pid InstanceDefinition) : Config :=
  {| project := "proj"; cluster_name := "g1";
     shared_vpc_host_project := None;
     compute_node_service_account := "default";
     compute_node_scopes := [];
     external_compute_ips := false; google_app_cred_path := None;
     instance_defs := defs |}.

(** A world in which [scontrol] expands every expression to [lines], the
    provider accepts a bulk insert exactly when [accept] says so, and
    every operation is done at its second poll. *)
Definition sample_world (defs : gmap Pid InstanceDefinition)
    (lines : list NodeName) (accept : BulkBody -> bool) : World :=
  {| get_pid := sample_get_pid; cfg := sample_cfg defs;
     SCRIPTS_DIR := "/slurm/scripts";
     custom_compute_exists := false;
     read_text := fun _ => Ok "";
     show_hostnames := fun _ => Ok lines;
     show_hostlist := fun content => Ok content;
     update_down := fun _ _ => Ok tt;
     build_compute := Ok tt;
     bulk_insert := fun _ b =>
       if accept b
       then Ok {| op_zone := Some "zones/z"; op_region := None;
                  op_name := "op" |}
       else Raise (ExternalError "quota");
     policy_insert := fun c =>
       Ok {| op_zone := None; op_region := Some "regions/r";
             op_name := pg_name c |};
     operation_get := fun _ _ k =>
       Ok {| status := if k <? 1 then "RUNNING" else "DONE" |};
     patience := 5 |}.

(** [cnt] node names of the policy group [p]. *)
Definition sample_nodes (p : Pid) (cnt : nat) : list NodeName :=
  map (fun k => p +:+ "-" +:+ pretty k) (seq 0 cnt).

(** ** Observations on a run, and the notions the properties are stated with *)

(** The bulk-insert requests found in a trace. *)
Definition bulk_inserts (tr : list event) : list (Target * BulkBody) :=
  omap (fun ev => match ev with
                  | EvBulkInsert t b => Some (t, b)
                  | _ => None
                  end) tr.

(** The placement-group insertions found in a trace. *)
Definition policy_inserts (tr : list event) : list PGConfig :=
  omap (fun ev => match ev with
                  | EvPolicyInsert c => Some c
                  | _ => None
                  end) tr.

(** The entries into [down_nodes] found in a trace. *)
Definition down_calls (tr : list event) : list (list NodeName * string) :=
  omap (fun ev => match ev with
                  | EvDownNodes l r => Some (l, r)
                  | _ => None
                  end) tr.

(** Every bulk-insert request of an invocation, over all workers. *)
Definition submitted (run : MainRun) : list (Target * BulkBody) :=
  concat (map (fun m => bulk_inserts (fst m)) (workers run)).

(** Whether the instance definition of [p] is marked exclusive. *)
Definition is_exclusive (w : World) (p : Pid) : bool :=
  match instance_defs (cfg w) !! p with
  | Some d => exclusive d
  | None => false
  end.

Definition has_pid (w : World) (p : Pid) (n : NodeName) : bool :=
  String.eqb (get_pid w n) p.

(** The pid that decides the job-scoped tests of [main]: the pid of the
    head of the sorted list. *)
Definition first_pid (w : World) (lines : list NodeName) : option Pid :=
  head (map (get_pid w) (sorted (get_pid w) lines)).

(** The pid groups an invocation provisions: with a job identifier all
    of them if the deciding pid is exclusive and none otherwise; without
    a job identifier those that are not exclusive. *)
Definition keep_pid (w : World) (j : JobId) (lines : list NodeName)
    (p : Pid) : bool :=
  if job_truthy j then
    match first_pid w lines with
    | Some fp => is_exclusive w fp
    | None => false
    end
  else negb (is_exclusive w p).

(** The nodes an invocation provisions. *)
Definition retained (w : World) (j : JobId) (lines : list NodeName)
    (n : NodeName) : bool :=
  keep_pid w j lines (get_pid w n).

(** The test of resume.py:306-309 on the deciding definition and the
    number of nodes. *)
Definition wants_placement (d : InstanceDefinition) (cnt : nat) : bool :=
  enable_placement d
  && String.eqb (split_first "-" (machine_type d)) "c2"
  && (1 <? cnt).

(** The three scheduling dictionaries that [create_instance] can write. *)
Definition sched_placement : Scheduling :=
  {| preemptible := None; onHostMaintenance := Some "TERMINATE";
     automaticRestart := Some false |}.
Definition sched_accelerator : Scheduling :=
  {| preemptible := None; onHostMaintenance := Some "TERMINATE";
     automaticRestart := None |}.
Definition sched_preemptible : Scheduling :=
  {| preemptible := Some true; onHostMaintenance := Some "TERMINATE";
     automaticRestart := Some false |}.

(** The scheduling field under the precedence placement > accelerator >
    preemptible, following the words of the spec. *)
Definition scheduling_placement_first (d : InstanceDefinition)
    (placement_group_name : option string) : option Scheduling :=
  if bool_decide (placement_group_name <> None) then Some sched_placement
  else if str_truthy (gpu_type d) then Some sched_accelerator
  else if preemptible_bursting d then Some sched_preemptible
  else None.

(** The scheduling field under the precedence preemptible > accelerator >
    placement. *)
Definition scheduling_preemptible_first (d : InstanceDefinition)
    (placement_group_name : option string) : option Scheduling :=
  if preemptible_bursting d then Some sched_preemptible
  else if str_truthy (gpu_type d) then Some sched_accelerator
  else if bool_decide (placement_group_name <> None) then Some sched_placement
  else None.

(** The placement groups for [n] instances, following the words of the
    spec: consecutive groups of at most 22, named from cluster name, job
    id and 1-based index.  [groups_from] lists the groups with 0-based
    positions [a], ..., [a + c - 1]. *)
Definition groups_from (w : World) (j : JobId) (n : nat) (rgn : string)
    (a c : nat) : list PGConfig :=
  map (fun k =>
         {| pg_name := cluster_name (cfg w) +:+ "-" +:+ job_format j
                       +:+ "-" +:+ pretty (k + 1);
            pg_region := rgn;
            collocation := "COLLOCATED";
            vmCount := Nat.min (n - k * 22) 22 |})
      (seq a c).

Definition planned_groups (w : World) (j : JobId) (n : nat) (rgn : string)
  : list PGConfig :=
  groups_from w j n rgn 0 ((n + 21) / 22).

Definition is_ok {A} (o : outcome A) : bool :=
  match o with
  | Ok _ => true
  | _ => false
  end.

(** A name list and a chunk sequence are aligned one to one: as many
    chunks as names, the i-th chunk carrying the i-th name. *)
Definition aligned (names : list string) (cs : list NodeChunk) : Prop :=
  map pg cs = map Some names.

(** The same world with another provider behaviour on bulk inserts. *)
Definition with_bulk_insert (w : World)
    (f : Target -> BulkBody -> outcome Operation) : World :=
  {| get_pid := get_pid w; cfg := cfg w; SCRIPTS_DIR := SCRIPTS_DIR w;
     custom_compute_exists := custom_compute_exists w;
     read_text := read_text w;
     show_hostnames := show_hostnames w;
     show_hostlist := show_hostlist w;
     update_down := update_down w;
     build_compute := build_compute w;
     bulk_insert := f;
     policy_insert := policy_insert w;
     operation_get := operation_get w;
     patience := patience w |}.

(** The per-instance names of the request for a node list: the keys of
    [{k: {} for k in node_list}]. *)
Definition request_names (node_list : list NodeName) : list NodeName :=
  dict_keys (dict_of_items (map (fun k => (k, tt)) node_list)).

(** A list of names without its repetitions, every name kept where it
    first occurs. *)
Fixpoint first_occurrences (l : list NodeName) : list NodeName :=
  match l with
  | [] => []
  | x :: l' =>
      x :: List.filter (fun y => negb (String.eqb y x)) (first_occurrences l')
  end.

(** The order in which [sorted] leaves its elements, and the strict
    order on keys. *)
Definition key_le {A} (key : A -> string) (x y : A) : Prop :=
  String.leb (key x) (key y) = true.

Definition str_lt (a b : string) : Prop :=
  String.leb a b = true /\ a <> b.

(** ** Further notions for the remaining behaviour of the script *)

(** The status endpoint that [wait_for_operation] polls for an
    operation: zonal if the handle has a zone, else regional if it has a
    region, else global; the zone or region is the last segment of its
    URL. *)
Definition op_scope (operation : Operation) : OpScope :=
  match op_zone operation with
  | Some z => ZoneScope (split_last "/" z)
  | None =>
      match op_region operation with
      | Some r => RegionScope (split_last "/" r)
      | None => GlobalScope
      end
  end.

(** The calls of a wait that ends at its poll number [k] (counting from
    0): [k] polls each followed by a sleep of one second, then the last
    poll. *)
Fixpoint poll_trace (s : OpScope) (name : string) (k : nat) : list event :=
  match k with
  | 0 => [EvOperationGet s name]
  | S k' => EvOperationGet s name :: EvSleep 1 :: poll_trace s name k'
  end.

(** A poll that ends the wait: an error, or a payload whose status is
    ["DONE"]. *)
Definition decisive (o : outcome OpResult) : bool :=
  match o with
  | Ok r => String.eqb (status r) "DONE"
  | _ => true
  end.

(** The status polls and the node-state updates found in a trace. *)
Definition operation_gets (tr : list event) : list (OpScope * string) :=
  omap (fun ev => match ev with
                  | EvOperationGet s n => Some (s, n)
                  | _ => None
                  end) tr.

Definition update_downs (tr : list event) : list (string * string) :=
  omap (fun ev => match ev with
                  | EvUpdateDown h r => Some (h, r)
                  | _ => None
                  end) tr.

(** Whether a string is free of the character [sep]. *)
Definition free_of (sep : ascii) (s : string) : bool :=
  negb (existsb (Ascii.eqb sep) (list_ascii_of_string s)).

(** The auxiliary files of [create_instance] (resume.py:87-95), in the
    order of the dictionary [meta_files]. *)
Definition meta_files (w : World) : list (string * string) :=
  [("config", SCRIPTS_DIR w +:+ "/config.yaml");
   ("util-script", SCRIPTS_DIR w +:+ "/util.py");
   ("startup-script", SCRIPTS_DIR w +:+ "/startup.sh");
   ("setup-script", SCRIPTS_DIR w +:+ "/setup.py")]
  ++ (if custom_compute_exists w
      then [("custom-compute-install",
             SCRIPTS_DIR w +:+ "/custom-compute-install")]
      else []).

(** Worlds that differ from a given one in a single collaborator. *)
Definition with_operation_get (w : World)
    (g : OpScope -> string -> nat -> outcome OpResult) : World :=
  {| get_pid := get_pid w; cfg := cfg w; SCRIPTS_DIR := SCRIPTS_DIR w;
     custom_compute_exists := custom_compute_exists w;
     read_text := read_text w;
     show_hostnames := show_hostnames w;
     show_hostlist := show_hostlist w;
     update_down := update_down w;
     build_compute := build_compute w;
     bulk_insert := bulk_insert w;
     policy_insert := policy_insert w;
     operation_get := g;
     patience := patience w |}.

Definition with_read_text (w : World) (rd : string -> outcome string)
  : World :=
  {| get_pid := get_pid w; cfg := cfg w; SCRIPTS_DIR := SCRIPTS_DIR w;
     custom_compute_exists := custom_compute_exists w;
     read_text := rd;
     show_hostnames := show_hostnames w;
     show_hostlist := show_hostlist w;
     update_down := update_down w;
     build_compute := build_compute w;
     bulk_insert := bulk_insert w;
     policy_insert := policy_insert w;
     operation_get := operation_get w;
     patience := patience w |}.

Definition with_policy_insert (w : World)
    (ins : PGConfig -> outcome Operation) : World :=
  {| get_pid := get_pid w; cfg := cfg w; SCRIPTS_DIR := SCRIPTS_DIR w;
     custom_compute_exists := custom_compute_exists w;
     read_text := read_text w;
     show_hostnames := show_hostnames w;
     show_hostlist := show_hostlist w;
     update_down := update_down w;
     build_compute := build_compute w;
     bulk_insert := bulk_insert w;
     policy_insert := ins;
     operation_get := operation_get w;
     patience := patience w |}.

Definition with_scontrol (w : World)
    (names : string -> outcome (list NodeName))
    (hostlist : string -> outcome string) : World :=
  {| get_pid := get_pid w; cfg := cfg w; SCRIPTS_DIR := SCRIPTS_DIR w;
     custom_compute_exists := custom_compute_exists w;
     read_text := read_text w;
     show_hostnames := names;
     show_hostlist := hostlist;
     update_down := update_down w;
     build_compute := build_compute w;
     bulk_insert := bulk_insert w;
     policy_insert := policy_insert w;
     operation_get := operation_get w;
     patience := patience w |}.

Definition with_build_compute (w : World) (b : outcome unit) : World :=
  {| get_pid := get_pid w; cfg := cfg w; SCRIPTS_DIR := SCRIPTS_DIR w;
     custom_compute_exists := custom_compute_exists w;
     read_text := read_text w;
     show_hostnames := show_hostnames w;
     show_hostlist := show_hostlist w;
     update_down := update_down w;
     build_compute := b;
     bulk_insert := bulk_insert w;
     policy_insert := policy_insert w;
     operation_get := operation_get w;
     patience := patience w |}.

(** *** The script entry (resume.py:347-359)

    What the [__main__] block reads before it calls [main]: the
    command-line tokens after the program name, the two variables of the
    scheduler's hook environment, and [argparse], which is taken as
    given: [parse_args tokens] is the list [args.args] and the debug
    flag, or the error it ends with. *)
Record Invocation : Type := {
  argv_tail : list string;
  env_nodelist : option string;
  env_job_id : option string;
  parse_args : list string -> outcome (list string * bool)
}.

(** The node expression, job identifier and debug flag that the entry
    block hands on. *)
Definition script_args (inv : Invocation) : outcome (string * JobId * bool) :=
  let parsed :=
    match env_nodelist inv with
    | Some nodelist =>
        match env_job_id inv with
        | Some jid => parse_args inv (argv_tail inv ++ [nodelist; jid])
        | None => Raise (KeyError "SLURM_JOB_ID")
        end
    | None => parse_args inv (argv_tail inv)
    end in
  match parsed with
  | Ok (args, debug) =>
      match args with
      | [] => Raise IndexError
      | nodes :: rest =>
          let job_id := match rest with
                        | [] => JobInt0
                        | jid :: _ => JobStr jid
                        end in
          Ok (nodes, job_id, debug)
      end
  | Raise e => Raise e
  | Timeout => Timeout
  end.

(** * Properties *)

(** ** The outcome monad *)

Lemma bind_Ok_inv {A B} (m : M A) (k : A -> M B) tr b :
  bind m k = (tr, Ok b) ->
  exists tr1 a tr2, m = (tr1, Ok a) /\ k a = (tr2, Ok b) /\ tr = tr1 ++ tr2.
Proof.
  unfold bind. destruct m as [tr1 [a|e|]]; try discriminate.
  destruct (k a) as [tr2 r] eqn:Hk. intros [= <- ->].
  exists tr1, a, tr2. auto.
Qed.

Lemma bind_ret_l {A B} (a : A) (k : A -> M B) : bind (ret a) k = k a.
Proof. unfold bind, ret. destruct (k a). reflexivity. Qed.

Lemma bind_Ok {A B} tr (a : A) (k : A -> M B) :
  bind (tr, Ok a) k = (tr ++ fst (k a), snd (k a)).
Proof. unfold bind. destruct (k a). reflexivity. Qed.

(** ** The order on pids *)

Lemma ascii_compare_refl c : Ascii.compare c c = Eq.
Proof. unfold Ascii.compare. apply N.compare_refl. Qed.

Lemma str_compare_refl s : String.compare s s = Eq.
Proof.
  induction s as [|c s IH]; simpl; [reflexivity|].
  rewrite ascii_compare_refl. exact IH.
Qed.

Lemma str_compare_lt_trans a b c :
  String.compare a b = Lt -> String.compare b c = Lt ->
  String.compare a c = Lt.
Proof.
  revert b c. induction a as [|x a IH]; intros [|y b] [|z c]; simpl;
    try congruence.
  unfold Ascii.compare.
  destruct (N.compare_spec (N_of_ascii x) (N_of_ascii y)) as [Hxy|Hxy|Hxy];
    destruct (N.compare_spec (N_of_ascii y) (N_of_ascii z)) as [Hyz|Hyz|Hyz];
    try discriminate; intros H1 H2.
  - rewrite Hxy, Hyz, N.compare_refl. eauto.
  - rewrite Hxy. apply N.compare_lt_iff in Hyz. rewrite Hyz. reflexivity.
  - rewrite <- Hyz. apply N.compare_lt_iff in Hxy. rewrite Hxy. reflexivity.
  - assert (Hxz : (N_of_ascii x < N_of_ascii z)%N) by lia.
    apply N.compare_lt_iff in Hxz. rewrite Hxz. reflexivity.
Qed.

Lemma leb_refl s : String.leb s s = true.
Proof. unfold String.leb. rewrite str_compare_refl. reflexivity. Qed.

Lemma leb_trans a b c :
  String.leb a b = true -> String.leb b c = true -> String.leb a c = true.
Proof.
  unfold String.leb.
  destruct (String.compare a b) eqn:Hab; try discriminate;
    destruct (String.compare b c) eqn:Hbc; try discriminate; intros _ _.
  - apply String.compare_eq_iff in Hab, Hbc. subst.
    rewrite str_compare_refl. reflexivity.
  - apply String.compare_eq_iff in Hab. subst. rewrite Hbc. reflexivity.
  - apply String.compare_eq_iff in Hbc. subst. rewrite Hab. reflexivity.
  - rewrite (str_compare_lt_trans a b c Hab Hbc). reflexivity.
Qed.

Lemma leb_false_flip a b :
  String.leb a b = false -> String.leb b a = true /\ a <> b.
Proof.
  intros H. split.
  - destruct (String.leb_total a b) as [H'|H']; congruence.
  - intros ->. rewrite leb_refl in H. discriminate.
Qed.

(** ** [sorted]: a stable sort *)

Section SortedFacts.
Context {A : Type} (key : A -> string).

Lemma insert_by_perm x l : Permutation (insert_by key x l) (x :: l).
Proof.
  induction l as [|y l IH]; simpl; [reflexivity|].
  destruct (String.leb (key x) (key y)); [reflexivity|].
  rewrite IH. apply perm_swap.
Qed.

Lemma sorted_perm l : Permutation (sorted key l) l.
Proof.
  induction l as [|x l IH]; simpl; [reflexivity|].
  rewrite insert_by_perm. constructor. exact IH.
Qed.

Lemma sorted_length l : length (sorted key l) = length l.
Proof. apply Permutation_length, sorted_perm. Qed.

Lemma insert_by_sorted x l :
  StronglySorted (key_le key) l -> StronglySorted (key_le key) (insert_by key x l).
Proof.
  induction 1 as [|y l Hs IH Hall]; simpl.
  - repeat constructor.
  - destruct (String.leb (key x) (key y)) eqn:Hxy.
    + constructor; [constructor; assumption|].
      constructor; [exact Hxy|].
      eapply Forall_impl; [exact Hall|].
      intros z Hz. unfold key_le in *. eapply leb_trans; eauto.
    + constructor; [exact IH|].
      apply leb_false_flip in Hxy as [Hyx _].
      rewrite List.Forall_forall. intros z Hz.
      apply (Permutation_in _ (insert_by_perm x l)) in Hz.
      destruct Hz as [<-|Hz]; [exact Hyx|].
      rewrite List.Forall_forall in Hall. auto.
Qed.

Lemma sorted_sorted l : StronglySorted (key_le key) (sorted key l).
Proof.
  induction l as [|x l IH]; simpl; [constructor|].
  apply insert_by_sorted, IH.
Qed.

(** Stability: the nodes of one key keep their relative order. *)
Lemma insert_by_filter k x l :
  List.filter (fun a => String.eqb (key a) k) (insert_by key x l)
  = List.filter (fun a => String.eqb (key a) k) (x :: l).
Proof.
  induction l as [|y l IH]; [reflexivity|].
  cbn [insert_by].
  destruct (String.leb (key x) (key y)) eqn:Hxy; [reflexivity|].
  apply leb_false_flip in Hxy as [_ Hne].
  cbn [List.filter] in *. rewrite IH.
  destruct (String.eqb_spec (key x) k) as [Hx|Hx];
    destruct (String.eqb_spec (key y) k) as [Hy|Hy];
    try reflexivity.
  congruence.
Qed.

Lemma sorted_stable k l :
  List.filter (fun a => String.eqb (key a) k) (sorted key l)
  = List.filter (fun a => String.eqb (key a) k) l.
Proof.
  induction l as [|x l IH]; [reflexivity|].
  cbn [sorted]. rewrite insert_by_filter. cbn [List.filter].
  rewrite IH. reflexivity.
Qed.

(** The head of the sorted list has the least key. *)
Lemma sorted_head_least l x rest :
  sorted key l = x :: rest -> forall y, In y l -> key_le key x y.
Proof.
  intros Hs y Hy.
  pose proof (sorted_sorted l) as Hsorted. rewrite Hs in Hsorted.
  apply (Permutation_in _ (Permutation_sym (sorted_perm l))) in Hy.
  rewrite Hs in Hy. inversion Hsorted as [|? ? _ Hall]; subst.
  destruct Hy as [<-|Hy]; [apply leb_refl|].
  rewrite List.Forall_forall in Hall. auto.
Qed.

(** ** [groupby] *)

Lemma groupby_concat l : concat (map snd (groupby key l)) = l.
Proof.
  induction l as [|x l IH]; [reflexivity|].
  cbn [groupby]. destruct (groupby key l) as [|[k g] rest].
  - simpl in *. subst. reflexivity.
  - destruct (String.eqb (key x) k); simpl in *; rewrite IH; reflexivity.
Qed.

Lemma groupby_groups l :
  Forall (fun kg => snd kg <> [] /\ Forall (fun a => key a = fst kg) (snd kg))
         (groupby key l).
Proof.
  induction l as [|x l IH]; [constructor|].
  cbn [groupby]. destruct (groupby key l) as [|[k g] rest].
  - repeat constructor. discriminate.
  - inversion IH as [|? ? [Hne Hk] Hrest]; subst. simpl in *.
    destruct (String.eqb_spec (key x) k) as [Hx|Hx].
    + constructor; [|exact Hrest]. simpl. split; [discriminate|].
      constructor; assumption.
    + constructor; [|exact IH]. simpl. split; [discriminate|].
      repeat constructor.
Qed.

Lemma groupby_keys_in l k :
  In k (map fst (groupby key l)) -> exists a, In a l /\ key a = k.
Proof.
  intros Hk. apply in_map_iff in Hk as [[k' g] [<- Hin]].
  pose proof (groupby_groups l) as Hg. rewrite List.Forall_forall in Hg.
  destruct (Hg _ Hin) as [Hne Hall]. simpl in *.
  destruct g as [|a g]; [congruence|].
  inversion Hall; subst. exists a. split; [|auto].
  rewrite <- (groupby_concat l). apply in_concat.
  exists (a :: g). split; [|left; reflexivity].
  apply in_map_iff. exists (key a, a :: g). auto.
Qed.

(** On a sorted list the groups have pairwise different keys, in
    increasing order. *)
Lemma groupby_sorted_keys l :
  StronglySorted (key_le key) l ->
  StronglySorted str_lt (map fst (groupby key l)).
Proof.
  induction 1 as [|x l Hs IH Hall]; [constructor|].
  cbn [groupby].
  pose proof (groupby_keys_in l) as Hin.
  destruct (groupby key l) as [|[k g] rest]; [repeat constructor|].
  simpl in IH, Hin.
  destruct (String.eqb_spec (key x) k) as [Hx|Hx]; [exact IH|].
  cbn [map fst]. constructor; [exact IH|].
  rewrite List.Forall_forall in Hall.
  assert (Hxk : String.leb (key x) k = true).
  { destruct (Hin k (or_introl eq_refl)) as [a [Ha <-]]. apply Hall, Ha. }
  inversion IH as [|? ? _ Hlt]; subst.
  constructor; [split; assumption|].
  eapply Forall_impl; [exact Hlt|].
  intros k' [Hkk' Hne]. split.
  - eapply leb_trans; eauto.
  - intros <-. apply Hne. apply String.leb_antisym; assumption.
Qed.

Lemma str_lt_sorted_NoDup ks : StronglySorted str_lt ks -> NoDup ks.
Proof.
  induction 1 as [|k ks Hs IH Hall]; constructor; [|exact IH].
  intros Hin. apply list_elem_of_In in Hin.
  rewrite List.Forall_forall in Hall.
  destruct (Hall _ Hin) as [_ Hne]. congruence.
Qed.

Lemma groupby_sorted_NoDup l :
  NoDup (map fst (groupby key (sorted key l))).
Proof. apply str_lt_sorted_NoDup, groupby_sorted_keys, sorted_sorted. Qed.
End SortedFacts.

(** ** Ordered dictionaries *)

Section DictFacts.
Context {V : Type}.
Implicit Types d items : list (string * V).

Lemma dict_set_fresh k v d :
  ~ In k (dict_keys d) -> dict_set k v d = d ++ [(k, v)].
Proof.
  induction d as [|[k' v'] d IH]; simpl; intros Hk; [reflexivity|].
  destruct (String.eqb_spec k' k) as [->|Hne]; [tauto|].
  rewrite IH by tauto. reflexivity.
Qed.

Lemma fold_dict_set_NoDup items : forall d,
  NoDup (dict_keys (d ++ items)) ->
  fold_left (fun d kv => dict_set (fst kv) (snd kv) d) items d = d ++ items.
Proof.
  induction items as [|[k v] items IH]; intros d Hnd; simpl.
  - rewrite app_nil_r. reflexivity.
  - unfold dict_keys in Hnd. rewrite map_app in Hnd. simpl in Hnd.
    apply NoDup_app in Hnd as Hnd'. destruct Hnd' as (_ & Hdisj & _).
    rewrite dict_set_fresh.
    + rewrite IH; [rewrite <- app_assoc; reflexivity|].
      rewrite <- app_assoc. simpl. unfold dict_keys.
      rewrite map_app. exact Hnd.
    + intros Hin. apply list_elem_of_In in Hin.
      apply (Hdisj _ Hin). left.
Qed.

(** Grouping a sorted list yields pairwise different keys, so the
    dictionary built from the groups is the list of groups. *)
Lemma dict_of_items_NoDup items :
  NoDup (dict_keys items) -> dict_of_items items = items.
Proof. intros H. unfold dict_of_items. rewrite fold_dict_set_NoDup; auto. Qed.

Lemma fold_dict_del ps : forall d,
  fold_left (fun d p => dict_del p d) ps d
  = List.filter (fun kv => negb (existsb (String.eqb (fst kv)) ps)) d.
Proof.
  induction ps as [|p ps IH]; intros d; simpl.
  - induction d as [|kv d IHd]; simpl; congruence.
  - rewrite IH. unfold dict_del.
    induction d as [|kv d IHd]; simpl; [reflexivity|].
    destruct (String.eqb (fst kv) p); simpl; [exact IHd|].
    destruct (existsb (String.eqb (fst kv)) ps); simpl; congruence.
Qed.
End DictFacts.

(** ** The chunk generator *)

Lemma slice_take_drop {A} (lst : list A) i n :
  slice lst i (i + n) = take n (drop i lst).
Proof. unfold slice. f_equal. lia. Qed.

Lemma py_range_count len n :
  0 < n ->
  len <= ((len - 0 + n - 1) / n) * n /\
  forall k, k < (len - 0 + n - 1) / n -> k * n < len.
Proof.
  intros Hn.
  pose proof (Nat.div_mod_eq (len - 0 + n - 1) n) as Hdm.
  pose proof (Nat.mod_upper_bound (len - 0 + n - 1) n ltac:(lia)) as Hub.
  split; [nia|]. intros k Hk. nia.
Qed.

Lemma concat_cuts {A} (lst : list A) n c : forall a,
  concat (map (fun i => take n (drop i lst))
              (map (fun k => 0 + k * n) (seq a c)))
  = take (c * n) (drop (a * n) lst).
Proof.
  induction c as [|c IH]; intros a; simpl; [reflexivity|].
  rewrite IH. rewrite <- take_take_drop. f_equal.
  rewrite drop_drop. do 2 f_equal. lia.
Qed.

Lemma concat_py_range {A} (lst : list A) n :
  0 < n ->
  concat (map (fun i => take n (drop i lst)) (py_range 0 (length lst) n))
  = lst.
Proof.
  intros Hn. unfold py_range. rewrite concat_cuts. simpl.
  apply take_ge. destruct (py_range_count (length lst) n Hn) as [H _]. lia.
Qed.

Lemma py_range_lt len n i :
  0 < n -> In i (py_range 0 len n) -> i < len.
Proof.
  intros Hn Hi. unfold py_range in Hi.
  apply in_map_iff in Hi as [k [<- Hk]]. apply in_seq in Hk.
  destruct (py_range_count len n Hn) as [_ H]. simpl. apply H. lia.
Qed.

Lemma py_range_length len n :
  length (py_range 0 len n) = (len + n - 1) / n.
Proof.
  unfold py_range. rewrite length_map, length_seq.
  f_equal. lia.
Qed.

Lemma chunks_loop_no_pg lst pgs n starts j :
  pg_truthy pgs = false ->
  chunks_loop lst pgs n starts j
  = (map (fun i => {| nodes := take n (drop i lst); pg := None |}) starts,
     None).
Proof.
  intros Hpg. revert j. induction starts as [|i starts IH]; intros j; simpl;
    [reflexivity|].
  rewrite Hpg, IH, slice_take_drop. reflexivity.
Qed.

Lemma chunks_loop_pg lst pgs n starts : forall j,
  pg_truthy pgs = true ->
  j + length starts <= length (default [] pgs) ->
  chunks_loop lst pgs n starts j
  = (zip_with (fun i name => {| nodes := take n (drop i lst);
                                pg := Some name |})
              starts (drop j (default [] pgs)),
     None).
Proof.
  induction starts as [|i starts IH]; intros j Hpg Hlen; simpl;
    [reflexivity|].
  simpl in Hlen. rewrite Hpg.
  destruct (default [] pgs !! j) as [name|] eqn:Hj.
  - rewrite IH by (auto; lia). rewrite slice_take_drop.
    rewrite (drop_S _ _ _ Hj). simpl.
    replace (S j) with (j + 1) by lia. reflexivity.
  - apply lookup_ge_None in Hj. lia.
Qed.

(** The yielded chunks, whatever the name list: their sizes and their
    placement-group references. *)
Lemma chunks_loop_bounds lst pgs n starts : forall j,
  Forall (fun c => length (nodes c) <= n /\
                   (pg c = None \/ pg_truthy pgs = true))
         (fst (chunks_loop lst pgs n starts j)).
Proof.
  induction starts as [|i starts IH]; intros j; simpl; [constructor|].
  destruct (pg_truthy pgs) eqn:Hpg.
  - destruct (default [] pgs !! j); [|constructor].
    specialize (IH (j + 1)).
    destruct (chunks_loop lst pgs n starts (j + 1)) as [ys e].
    simpl in *. constructor; [|exact IH]. simpl.
    rewrite slice_take_drop, length_take. split; [lia|auto].
  - specialize (IH j).
    destruct (chunks_loop lst pgs n starts j) as [ys e].
    simpl in *. constructor; [|exact IH]. simpl.
    rewrite slice_take_drop, length_take. split; [lia|auto].
Qed.

Lemma zip_with_chunks_nodes (lst : list NodeName) n starts : forall names,
  length starts <= length names ->
  map nodes (zip_with (fun i name => {| nodes := take n (drop i lst);
                                        pg := Some name |}) starts names)
  = map (fun i => take n (drop i lst)) starts
  /\ map pg (zip_with (fun i name => {| nodes := take n (drop i lst);
                                        pg := Some name |}) starts names)
     = map Some (take (length starts) names).
Proof.
  induction starts as [|i starts IH]; intros [|name names] Hlen; simpl in *;
    try lia; auto.
  destruct (IH names ltac:(lia)) as [-> ->]. auto.
Qed.

Lemma cuts_nonempty (lst : list NodeName) n :
  0 < n ->
  Forall (fun l => l <> []) (map (fun i => take n (drop i lst))
                                 (py_range 0 (length lst) n)).
Proof.
  intros Hn. rewrite List.Forall_forall. intros l Hl.
  apply in_map_iff in Hl as [i [<- Hi]].
  apply py_range_lt in Hi; [|exact Hn].
  intros Hnil. apply (f_equal length) in Hnil.
  rewrite length_take, length_drop in Hnil. simpl in Hnil. lia.
Qed.

(** What [chunks] yields for a group when the name list, if any, is long
    enough: it does not raise, the chunks cover the group in order, none
    is empty, and the i-th chunk carries the i-th name. *)
Lemma chunks_spec (lst : list NodeName) (pgs : option (list string)) :
  (pg_truthy pgs = true ->
   (length lst + 21) / 22 <= length (default [] pgs)) ->
  exists cs,
    chunks lst pgs = (cs, None)
    /\ concat (map nodes cs) = lst
    /\ Forall (fun l => l <> []) (map nodes cs)
    /\ map pg cs = (if pg_truthy pgs
                    then map Some (take (length cs) (default [] pgs))
                    else map (fun _ => None) cs)
    /\ length cs = (length lst + (if pg_truthy pgs then 22 else 1000) - 1)
                   / (if pg_truthy pgs then 22 else 1000).
Proof.
  intros Hlen. unfold chunks. destruct (pg_truthy pgs) eqn:Hpg.
  - specialize (Hlen eq_refl).
    assert (Hl : length (py_range 0 (length lst) PLACEMENT_MAX_CNT)
                 <= length (default [] pgs)).
    { rewrite py_range_length. unfold PLACEMENT_MAX_CNT.
      replace (length lst + 22 - 1) with (length lst + 21) by lia. exact Hlen. }
    rewrite chunks_loop_pg by (auto; simpl; lia).
    eexists. split; [reflexivity|]. rewrite drop_0.
    destruct (zip_with_chunks_nodes lst PLACEMENT_MAX_CNT _ _ Hl) as [Hn Hp].
    rewrite Hn, Hp, length_zip_with.
    rewrite (Nat.min_l _ _ Hl).
    repeat split.
    + apply concat_py_range. unfold PLACEMENT_MAX_CNT. lia.
    + apply cuts_nonempty. unfold PLACEMENT_MAX_CNT. lia.
    + apply py_range_length.
  - rewrite chunks_loop_no_pg by exact Hpg.
    eexists. split; [reflexivity|].
    rewrite !map_map. simpl. repeat split.
    + apply (concat_py_range lst 1000). lia.
    + apply (cuts_nonempty lst 1000). lia.
    + rewrite length_map. apply py_range_length.
Qed.

(** ** The placement-group allocator *)

Lemma pg_loop_skip w j n rgn starts : forall st,
  pg_loop w j n rgn starts st
  = pg_loop w j n rgn
      (List.filter (fun i => i mod PLACEMENT_MAX_CNT =? 0) starts) st.
Proof.
  induction starts as [|i starts IH]; intros st; [reflexivity|].
  cbn [pg_loop List.filter].
  destruct (i mod PLACEMENT_MAX_CNT =? 0) eqn:Hi; cbn [negb].
  - cbn [pg_loop]. rewrite Hi. cbn [negb].
    destruct st as [[names ops] idx].
    unfold bind. destruct (call _ _) as [tr [op| |]]; auto.
    rewrite IH. reflexivity.
  - apply IH.
Qed.

Lemma ceil22_succ n :
  (S n + 21) / 22 = (n + 21) / 22 + (if n mod 22 =? 0 then 1 else 0)
  /\ (n mod 22 = 0 -> (n + 21) / 22 * 22 = n).
Proof.
  pose proof (Nat.div_mod_eq n 22) as Hn.
  pose proof (Nat.mod_upper_bound n 22 ltac:(lia)) as Hub.
  pose proof (Nat.div_mod_eq (n + 21) 22) as H1.
  pose proof (Nat.mod_upper_bound (n + 21) 22 ltac:(lia)) as Hub1.
  pose proof (Nat.div_mod_eq (S n + 21) 22) as H2.
  pose proof (Nat.mod_upper_bound (S n + 21) 22 ltac:(lia)) as Hub2.
  destruct (Nat.eqb_spec (n mod 22) 0) as [H0|H0]; split; lia.
Qed.

Lemma multiples_of_22 n :
  List.filter (fun i => i mod PLACEMENT_MAX_CNT =? 0) (seq 0 n)
  = map (fun k => k * 22) (seq 0 ((n + 21) / 22)).
Proof.
  unfold PLACEMENT_MAX_CNT.
  induction n as [|n IH]; [reflexivity|].
  rewrite seq_S, List.filter_app, IH.
  destruct (ceil22_succ n) as [-> Hq]. cbn [List.filter Nat.add].
  destruct (Nat.eqb_spec (n mod 22) 0) as [H0|H0].
  - rewrite Nat.add_1_r, seq_S, map_app. cbn [map Nat.add].
    rewrite (Hq H0). reflexivity.
  - rewrite Nat.add_0_r, app_nil_r. reflexivity.
Qed.

Lemma pg_loop_cons_multiple w j n rgn k rest names ops idx :
  pg_loop w j n rgn (k * 22 :: rest) (names, ops, idx)
  = bind (call (EvPolicyInsert
                  {| pg_name := cluster_name (cfg w) +:+ "-" +:+ job_format j
                                +:+ "-" +:+ pretty (idx + 1);
                     pg_region := rgn; collocation := "COLLOCATED";
                     vmCount := Nat.min (n - k * 22) 22 |})
               (policy_insert w
                  {| pg_name := cluster_name (cfg w) +:+ "-" +:+ job_format j
                                +:+ "-" +:+ pretty (idx + 1);
                     pg_region := rgn; collocation := "COLLOCATED";
                     vmCount := Nat.min (n - k * 22) 22 |}))
         (fun op =>
            pg_loop w j n rgn rest
              (names ++ [cluster_name (cfg w) +:+ "-" +:+ job_format j
                         +:+ "-" +:+ pretty (idx + 1)],
               ops ++ [op], idx + 1)).
Proof.
  cbn [pg_loop]. unfold PLACEMENT_MAX_CNT.
  rewrite Nat.Div0.mod_mul. reflexivity.
Qed.

(** The loop either inserts every group of its range, in order, or stops
    at a group the provider does not accept. *)
Lemma pg_loop_multiples w j n rgn c : forall a names ops,
  (exists new_ops,
      pg_loop w j n rgn (map (fun k => k * 22) (seq a c)) (names, ops, a)
      = (map EvPolicyInsert (groups_from w j n rgn a c),
         Ok (names ++ map pg_name (groups_from w j n rgn a c),
             ops ++ new_ops, a + c))
      /\ Forall2 (fun g op => policy_insert w g = Ok op)
                 (groups_from w j n rgn a c) new_ops)
  \/ ((exists g, In g (groups_from w j n rgn a c)
                 /\ is_ok (policy_insert w g) = false)
      /\ is_ok (snd (pg_loop w j n rgn (map (fun k => k * 22) (seq a c))
                       (names, ops, a))) = false).
Proof.
  induction c as [|c IH]; intros a names ops.
  - left. exists []. simpl. rewrite !app_nil_r, Nat.add_0_r.
    split; [reflexivity|constructor].
  - cbn [seq map]. rewrite pg_loop_cons_multiple.
    unfold groups_from. cbn [seq map].
    replace (S a) with (a + 1) by lia.
    fold (groups_from w j n rgn (a + 1) c).
    set (g := {| pg_name := _; pg_region := rgn; collocation := _;
                 vmCount := _ |}).
    unfold call.
    destruct (policy_insert w g) as [op|e|] eqn:Hins.
    + rewrite bind_Ok.
      destruct (IH (a + 1) (names ++ [pg_name g]) (ops ++ [op]))
        as [[new_ops [Hrun Hall]]|[[g' [Hin Hg']] Hfail]].
      * left. exists (op :: new_ops). cbn [pg_name g] in Hrun |- *.
        rewrite Hrun. cbn [fst snd map].
        rewrite <- !app_assoc. cbn [app].
        replace (a + 1 + c) with (a + S c) by lia.
        split; [reflexivity|]. constructor; assumption.
      * right. split; [|exact Hfail].
        exists g'. split; [right; exact Hin|exact Hg'].
    + right. split; [|reflexivity].
      exists g. split; [left; reflexivity|]. rewrite Hins. reflexivity.
    + right. split; [|reflexivity].
      exists g. split; [left; reflexivity|]. rewrite Hins. reflexivity.
Qed.

Lemma wait_loop_quiet w fuel : forall k op,
  policy_inserts (fst (wait_loop w fuel k op)) = []
  /\ bulk_inserts (fst (wait_loop w fuel k op)) = []
  /\ down_calls (fst (wait_loop w fuel k op)) = [].
Proof.
  induction fuel as [|fuel IH]; intros k op; [auto|].
  cbn [wait_loop]. unfold call.
  destruct (operation_get w _ _ k) as [r|e|]; auto.
  rewrite bind_Ok.
  destruct (String.eqb (status r) "DONE"); [auto|].
  unfold emit. rewrite bind_Ok. cbn [fst].
  destruct (IH (S k) op) as (H1 & H2 & H3).
  cbn. auto.
Qed.

Lemma mapM_wait_quiet w ops :
  policy_inserts (fst (mapM (wait_for_operation w) ops)) = [].
Proof.
  induction ops as [|op ops IH]; [reflexivity|].
  cbn [mapM]. unfold wait_for_operation at 1.
  destruct (wait_loop_quiet w (patience w) 0 op) as (H1 & _ & _).
  destruct (wait_loop w (patience w) 0 op) as [tr [r|e|]]; cbn [fst] in *;
    try exact H1.
  rewrite bind_Ok. cbn [fst].
  destruct (mapM (wait_for_operation w) ops) as [tr' [rs|e|]];
    cbn [fst] in *; unfold bind, ret; cbn [fst];
    unfold policy_inserts in *; rewrite ?app_nil_r, omap_app, H1, IH;
    reflexivity.
Qed.

Lemma policy_inserts_app a b :
  policy_inserts (a ++ b) = policy_inserts a ++ policy_inserts b.
Proof. apply omap_app. Qed.

Lemma bulk_inserts_app a b :
  bulk_inserts (a ++ b) = bulk_inserts a ++ bulk_inserts b.
Proof. apply omap_app. Qed.

Lemma down_calls_app a b :
  down_calls (a ++ b) = down_calls a ++ down_calls b.
Proof. apply omap_app. Qed.

Lemma policy_inserts_map gs : policy_inserts (map EvPolicyInsert gs) = gs.
Proof.
  unfold policy_inserts. induction gs as [|g gs IH]; [reflexivity|].
  simpl. f_equal. exact IH.
Qed.

(** A returning allocator has inserted exactly the planned groups and
    returns their names. *)
Lemma create_placement_groups_Ok_inv w j n rgn tr names :
  create_placement_groups w j n rgn = (tr, Ok names) ->
  policy_inserts tr = planned_groups w j n rgn
  /\ names = map pg_name (planned_groups w j n rgn).
Proof.
  unfold create_placement_groups. intros H.
  apply bind_Ok_inv in H as (tr1 & u & tr2 & Hb & H & ->).
  apply bind_Ok_inv in H as (tr3 & st & tr4 & Hloop & H & ->).
  apply bind_Ok_inv in H as (tr5 & rs & tr6 & Hwait & H & ->).
  injection H as <- <-.
  unfold call in Hb. injection Hb as <- _.
  rewrite pg_loop_skip, multiples_of_22 in Hloop.
  destruct (pg_loop_multiples w j n rgn ((n + 21) / 22) 0 [] [])
    as [[new_ops [Hrun _]]|[_ Hfail]].
  - rewrite Hrun in Hloop. injection Hloop as <- <-.
    cbn [fst snd] in *. split; [|reflexivity].
    pose proof (mapM_wait_quiet w new_ops) as Hq. rewrite Hwait in Hq.
    cbn [fst] in Hq.
    rewrite !policy_inserts_app, Hq, policy_inserts_map.
    change (policy_inserts [EvBuildCompute]) with (@nil PGConfig).
    change (policy_inserts []) with (@nil PGConfig).
    rewrite !app_nil_r. reflexivity.
  - rewrite Hloop in Hfail. discriminate.
Qed.

Lemma mapM_wait_run w ops :
  Forall (fun op => is_ok (snd (wait_for_operation w op)) = true) ops ->
  is_ok (snd (mapM (wait_for_operation w) ops)) = true.
Proof.
  induction 1 as [|op ops Hop Hall IH]; [reflexivity|].
  cbn [mapM].
  destruct (wait_for_operation w op) as [tr [r|e|]]; try discriminate.
  rewrite bind_Ok. cbn [snd].
  destruct (mapM (wait_for_operation w) ops) as [tr' [rs|e|]];
    try discriminate.
  reflexivity.
Qed.

(** If the provider accepts every planned group and completes every
    operation within the observed polls, the allocator returns. *)
Lemma create_placement_groups_run w j n rgn :
  is_ok (build_compute w) = true ->
  (forall g, In g (planned_groups w j n rgn) ->
             is_ok (policy_insert w g) = true) ->
  (forall g op, In g (planned_groups w j n rgn) ->
                policy_insert w g = Ok op ->
                is_ok (snd (wait_for_operation w op)) = true) ->
  snd (create_placement_groups w j n rgn)
  = Ok (map pg_name (planned_groups w j n rgn)).
Proof.
  intros Hb Hins Hwait. unfold create_placement_groups, call.
  destruct (build_compute w) as [u|e|]; try discriminate.
  rewrite bind_Ok. cbn [snd].
  rewrite pg_loop_skip, multiples_of_22.
  destruct (pg_loop_multiples w j n rgn ((n + 21) / 22) 0 [] [])
    as [[new_ops [Hrun Hall]]|[[g [Hin Hg]] _]].
  - rewrite Hrun, bind_Ok. cbn [fst snd app].
    assert (Hw : is_ok (snd (mapM (wait_for_operation w) new_ops)) = true).
    { apply mapM_wait_run. clear Hrun.
      fold (planned_groups w j n rgn) in Hall.
      revert Hins Hwait Hall. generalize (planned_groups w j n rgn).
      intros gs Hins Hwait Hall.
      induction Hall as [|g op gs ops Hg Hall IH]; constructor.
      - apply (Hwait g op); [left; reflexivity|exact Hg].
      - apply IH; intros; [apply Hins|eapply Hwait]; eauto; right; eauto. }
    destruct (mapM (wait_for_operation w) new_ops) as [tr [rs|e|]];
      try discriminate.
    rewrite bind_Ok. reflexivity.
  - rewrite (Hins g Hin) in Hg. discriminate.
Qed.

(** The capacities of consecutive groups add up: nothing is lost and
    nothing is counted twice. *)
Lemma groups_from_sum w j n rgn c : forall a,
  list_sum (map vmCount (groups_from w j n rgn a c))
  = Nat.min (n - a * 22) (c * 22).
Proof.
  unfold groups_from.
  induction c as [|c IH]; intros a; cbn [seq map]; [cbn; lia|].
  change (list_sum (?x :: ?l)) with (x + list_sum l).
  cbn [vmCount]. rewrite IH. lia.
Qed.

Lemma planned_groups_facts w j n rgn :
  length (planned_groups w j n rgn) = (n + 21) / 22
  /\ Forall (fun g => 1 <= vmCount g <= 22) (planned_groups w j n rgn)
  /\ list_sum (map vmCount (planned_groups w j n rgn)) = n.
Proof.
  pose proof (Nat.div_mod_eq (n + 21) 22) as Hdm.
  pose proof (Nat.mod_upper_bound (n + 21) 22 ltac:(lia)) as Hub.
  unfold planned_groups. split; [|split].
  - unfold groups_from. rewrite length_map, length_seq. reflexivity.
  - unfold groups_from. rewrite List.Forall_forall. intros g Hg.
    apply in_map_iff in Hg as [k [<- Hk]]. apply in_seq in Hk.
    cbn [vmCount]. lia.
  - rewrite groups_from_sum. lia.
Qed.

(** ** The sequential part of [main] *)

Lemma lookup_def_Some w p d :
  instance_defs (cfg w) !! p = Some d -> lookup_def w p = ret d.
Proof. unfold lookup_def. intros ->. reflexivity. Qed.

Lemma lookup_def_None w p :
  instance_defs (cfg w) !! p = None ->
  lookup_def w p = raise (KeyError p).
Proof. unfold lookup_def. intros ->. reflexivity. Qed.

(** The comprehension that collects the exclusive pids: it raises at the
    first pid without a definition. *)
Lemma filterM_exclusive w ps :
  (Forall (fun p => instance_defs (cfg w) !! p <> None) ps
   /\ filterM (fun p => bind (lookup_def w p) (fun d => ret (exclusive d))) ps
      = ret (List.filter (is_exclusive w) ps))
  \/ (exists p, In p ps /\ instance_defs (cfg w) !! p = None
                /\ filterM (fun p => bind (lookup_def w p)
                                          (fun d => ret (exclusive d))) ps
                   = raise (KeyError p)).
Proof.
  induction ps as [|p ps IH].
  - left. split; [constructor|reflexivity].
  - cbn [filterM List.filter]. unfold is_exclusive at 1.
    destruct (instance_defs (cfg w) !! p) as [d|] eqn:Hp.
    + rewrite (lookup_def_Some _ _ _ Hp), bind_ret_l, bind_ret_l.
      destruct IH as [[Hall ->]|[q (Hq & Hnone & ->)]].
      * left. split; [constructor; [congruence|exact Hall]|].
        destruct (exclusive d); reflexivity.
      * right. exists q. auto using in_cons.
    + right. exists p. rewrite (lookup_def_None _ _ Hp).
      split; [left; reflexivity|]. auto.
Qed.

Lemma filter_exclusive_keys w {V} (d : list (string * V)) :
  List.filter (fun kv => negb (existsb (String.eqb (fst kv))
                                 (List.filter (is_exclusive w) (dict_keys d))))
              d
  = List.filter (fun kv => negb (is_exclusive w (fst kv))) d.
Proof.
  apply List.filter_ext_in. intros [k v] Hin. cbn [fst]. f_equal.
  destruct (is_exclusive w k) eqn:Hk.
  - apply existsb_exists. exists k. split; [|apply String.eqb_refl].
    apply List.filter_In. split; [|exact Hk].
    unfold dict_keys. apply in_map_iff. exists (k, v). auto.
  - destruct (existsb _ _) eqn:He; [|reflexivity].
    apply existsb_exists in He as [k' [Hin' Heq]].
    apply String.eqb_eq in Heq. subst k'.
    apply List.filter_In in Hin' as [_ Hk']. congruence.
Qed.

Lemma filter_true {A} (l : list A) : List.filter (fun _ => true) l = l.
Proof. induction l as [|x l IH]; simpl; congruence. Qed.

Lemma first_pid_cons w lines n0 rest :
  sorted (get_pid w) lines = n0 :: rest -> first_pid w lines = Some (get_pid w n0).
Proof. unfold first_pid. intros ->. reflexivity. Qed.

Lemma nodes_by_pid_groups w lines :
  dict_of_items (groupby (get_pid w) (sorted (get_pid w) lines))
  = groupby (get_pid w) (sorted (get_pid w) lines).
Proof. apply dict_of_items_NoDup, groupby_sorted_NoDup. Qed.

(** Without a job identifier. *)
Lemma main_plan_no_job w a j lines :
  job_truthy j = false ->
  show_hostnames w a = Ok lines ->
  lines <> [] ->
  (Forall (fun n => instance_defs (cfg w) !! get_pid w n <> None) lines
   /\ main_plan w a j
      = ([EvShowHostnames a],
         Ok (Some (List.filter (fun kv => keep_pid w j lines (fst kv))
                     (groupby (get_pid w) (sorted (get_pid w) lines)),
                   None))))
  \/ (exists p, In p (map (get_pid w) lines)
                /\ instance_defs (cfg w) !! p = None
                /\ main_plan w a j = ([EvShowHostnames a], Raise (KeyError p))).
Proof.
  intros Hj Hh Hne. unfold main_plan, call. rewrite Hh, bind_Ok.
  destruct (sorted (get_pid w) lines) as [|n0 rest] eqn:Hs.
  { apply (f_equal length) in Hs. rewrite sorted_length in Hs.
    destruct lines; [congruence|discriminate]. }
  rewrite Hj. cbn [negb]. rewrite bind_ret_l. cbn iota.
  rewrite <- Hs, nodes_by_pid_groups.
  set (groups := groupby (get_pid w) (sorted (get_pid w) lines)).
  assert (Hkeys : forall p, In p (dict_keys groups) ->
                            In p (map (get_pid w) lines)).
  { intros p Hp. apply groupby_keys_in in Hp as [n [Hn <-]].
    apply in_map. eapply Permutation_in; [apply sorted_perm|exact Hn]. }
  assert (Hcover : forall n, In n lines -> In (get_pid w n) (dict_keys groups)).
  { intros n Hn.
    apply (Permutation_in _ (Permutation_sym (sorted_perm (get_pid w) lines)))
      in Hn.
    rewrite <- (groupby_concat (get_pid w) (sorted (get_pid w) lines)) in Hn.
    apply in_concat in Hn as [g [Hg Hn]].
    apply in_map_iff in Hg as [[k g'] [<- Hkg]].
    pose proof (groupby_groups (get_pid w) (sorted (get_pid w) lines)) as Hgr.
    rewrite List.Forall_forall in Hgr. destruct (Hgr _ Hkg) as [_ Hall].
    rewrite List.Forall_forall in Hall. cbn [fst snd] in *.
    rewrite (Hall _ Hn). unfold dict_keys. apply in_map_iff.
    exists (k, g'). auto. }
  destruct (filterM_exclusive w (dict_keys groups))
    as [[Hall ->]|[p (Hp & Hnone & ->)]].
  - left. split.
    + rewrite List.Forall_forall in *. auto.
    + rewrite bind_ret_l, bind_ret_l, bind_ret_l.
      rewrite fold_dict_del, filter_exclusive_keys.
      assert (Hext :
        List.filter (fun kv : Pid * list NodeName =>
                       keep_pid w j lines (fst kv)) groups
        = List.filter (fun kv => negb (is_exclusive w (fst kv))) groups).
      { apply List.filter_ext. intros kv. unfold keep_pid. rewrite Hj.
        reflexivity. }
      rewrite Hext. reflexivity.
  - right. exists p. split; [auto|]. split; [exact Hnone|reflexivity].
Qed.

(** With a job identifier. *)
Lemma main_plan_job w a j lines n0 rest :
  job_truthy j = true ->
  show_hostnames w a = Ok lines ->
  sorted (get_pid w) lines = n0 :: rest ->
  main_plan w a j
  = match instance_defs (cfg w) !! get_pid w n0 with
    | None => ([EvShowHostnames a], Raise (KeyError (get_pid w n0)))
    | Some d =>
        if negb (exclusive d) then ([EvShowHostnames a], Ok None)
        else if wants_placement d (length lines) then
          match create_placement_groups w j (length lines) (region d) with
          | (tr, Ok names) =>
              (EvShowHostnames a :: tr ++ [EvSleep 5],
               Ok (Some (groupby (get_pid w) (sorted (get_pid w) lines),
                         Some names)))
          | (tr, Raise e) => (EvShowHostnames a :: tr, Raise e)
          | (tr, Timeout) => (EvShowHostnames a :: tr, Timeout)
          end
        else ([EvShowHostnames a],
              Ok (Some (groupby (get_pid w) (sorted (get_pid w) lines), None)))
    end.
Proof.
  intros Hj Hh Hs. unfold main_plan, call. rewrite Hh, bind_Ok, Hs, Hj.
  cbn [negb]. rewrite <- Hs, nodes_by_pid_groups.
  replace (length (sorted (get_pid w) lines)) with (length lines)
    by (symmetry; apply sorted_length).
  unfold lookup_def.
  destruct (instance_defs (cfg w) !! get_pid w n0) as [d|]; [|reflexivity].
  rewrite !bind_ret_l.
  destruct (exclusive d); cbn [negb]; [|reflexivity].
  rewrite ?bind_ret_l. fold (wants_placement d (length lines)).
  destruct (wants_placement d (length lines)); [|reflexivity].
  destruct (create_placement_groups w j (length lines) (region d))
    as [tr [names|e|]]; try reflexivity.
  unfold emit, ret, bind. cbn [fst snd app]. rewrite app_nil_r. reflexivity.
Qed.

Lemma main_plan_Some_inv w a j tr nbp pgs :
  main_plan w a j = (tr, Ok (Some (nbp, pgs))) ->
  exists lines,
    show_hostnames w a = Ok lines
    /\ lines <> []
    /\ nbp = List.filter (fun kv => keep_pid w j lines (fst kv))
               (groupby (get_pid w) (sorted (get_pid w) lines))
    /\ ((pgs = None /\ tr = [EvShowHostnames a])
        \/ exists d,
             job_truthy j = true
             /\ wants_placement d (length lines) = true
             /\ pgs = Some (map pg_name
                              (planned_groups w j (length lines) (region d)))
             /\ policy_inserts tr
                = planned_groups w j (length lines) (region d)
             /\ nbp = groupby (get_pid w) (sorted (get_pid w) lines)).
Proof.
  intros H.
  destruct (show_hostnames w a) as [lines|e|] eqn:Hh;
    try (unfold main_plan, call in H; rewrite Hh in H; discriminate).
  destruct (sorted (get_pid w) lines) as [|n0 rest] eqn:Hs.
  { unfold main_plan, call in H. rewrite Hh, bind_Ok, Hs in H. discriminate. }
  assert (Hne : lines <> []) by (intros ->; discriminate).
  exists lines. split; [reflexivity|]. split; [exact Hne|].
  destruct (job_truthy j) eqn:Hj.
  - rewrite (main_plan_job w a j lines n0 rest Hj Hh Hs) in H.
    destruct (instance_defs (cfg w) !! get_pid w n0) as [d|] eqn:Hd;
      [|discriminate].
    destruct (exclusive d) eqn:Hex; cbn [negb] in H; [|discriminate].
    assert (Hkeep : forall p, keep_pid w j lines p = true).
    { intros p. unfold keep_pid. rewrite Hj, (first_pid_cons _ _ _ _ Hs).
      unfold is_exclusive. rewrite Hd. exact Hex. }
    assert (Hall : List.filter (fun kv : Pid * list NodeName =>
                                  keep_pid w j lines (fst kv))
                     (groupby (get_pid w) (sorted (get_pid w) lines))
                   = groupby (get_pid w) (sorted (get_pid w) lines)).
    { rewrite <- (filter_true (groupby _ _)) at 2.
      apply List.filter_ext. intros kv. apply Hkeep. }
    rewrite Hall.
    destruct (wants_placement d (length lines)) eqn:Hwp.
    + destruct (create_placement_groups w j (length lines) (region d))
        as [tr' [names|e|]] eqn:Hc; try discriminate.
      injection H as <- <- <-.
      apply create_placement_groups_Ok_inv in Hc as [Hins ->].
      split; [reflexivity|]. right. exists d.
      repeat split; auto.
      change (EvShowHostnames a :: tr' ++ [EvSleep 5])
        with ([EvShowHostnames a] ++ tr' ++ [EvSleep 5]).
      rewrite !policy_inserts_app, Hins.
      change (policy_inserts [EvShowHostnames a]) with (@nil PGConfig).
      change (policy_inserts [EvSleep 5]) with (@nil PGConfig).
      rewrite app_nil_r. split; reflexivity.
    + injection H as <- <- <-. split; [reflexivity|]. left. auto.
  - destruct (main_plan_no_job w a j lines Hj Hh Hne)
      as [[_ Hrun]|[p (_ & _ & Hrun)]]; rewrite Hrun in H; [|discriminate].
    injection H as <- <- <-. split; [reflexivity|]. left. auto.
Qed.

Lemma main_plan_None_inv w a j tr :
  main_plan w a j = (tr, Ok None) ->
  tr = [EvShowHostnames a]
  /\ exists lines, show_hostnames w a = Ok lines
                   /\ forall p, keep_pid w j lines p = false.
Proof.
  intros H.
  destruct (show_hostnames w a) as [lines|e|] eqn:Hh;
    try (unfold main_plan, call in H; rewrite Hh in H; discriminate).
  destruct (sorted (get_pid w) lines) as [|n0 rest] eqn:Hs.
  { unfold main_plan, call in H. rewrite Hh, bind_Ok, Hs in H. discriminate. }
  assert (Hne : lines <> []) by (intros ->; discriminate).
  destruct (job_truthy j) eqn:Hj.
  - rewrite (main_plan_job w a j lines n0 rest Hj Hh Hs) in H.
    destruct (instance_defs (cfg w) !! get_pid w n0) as [d|] eqn:Hd;
      [|discriminate].
    destruct (exclusive d) eqn:Hex; cbn [negb] in H.
    + destruct (wants_placement d (length lines)); [|discriminate].
      destruct (create_placement_groups w j (length lines) (region d))
        as [tr' [names|e|]]; discriminate.
    + injection H as <-. split; [reflexivity|]. exists lines.
      split; [reflexivity|]. intros p. unfold keep_pid.
      rewrite Hj, (first_pid_cons _ _ _ _ Hs). unfold is_exclusive.
      rewrite Hd. exact Hex.
  - destruct (main_plan_no_job w a j lines Hj Hh Hne)
      as [[_ Hrun]|[p (_ & _ & Hrun)]]; rewrite Hrun in H; discriminate.
Qed.

(** ** The fan-out *)

Lemma chain_all_ok {A} (gens : list (list A * option exn)) :
  Forall (fun g => snd g = None) gens ->
  chain_from_iterable gens = (concat (map fst gens), None).
Proof.
  induction 1 as [|[ys e] gens Hg Hall IH]; [reflexivity|].
  simpl in Hg. subst e. cbn [chain_from_iterable]. rewrite IH. reflexivity.
Qed.

Lemma length_in_concat {A} (g : list A) gs :
  In g gs -> length g <= length (concat gs).
Proof.
  induction gs as [|g' gs IH]; [intros []|].
  intros [->|Hin]; cbn [concat]; rewrite length_app; [lia|].
  specialize (IH Hin). lia.
Qed.

Lemma group_length_le w (keep : Pid * list NodeName -> bool) lines g :
  In g (dict_values (List.filter keep
          (groupby (get_pid w) (sorted (get_pid w) lines)))) ->
  length g <= length lines.
Proof.
  intros Hg. unfold dict_values in Hg.
  apply in_map_iff in Hg as [kv [<- Hkv]].
  apply List.filter_In in Hkv as [Hkv _].
  rewrite <- (sorted_length (get_pid w) lines).
  rewrite <- (groupby_concat (get_pid w) (sorted (get_pid w) lines)).
  apply length_in_concat, in_map, Hkv.
Qed.

(** Once the plan is made the generators never raise: every chunk of
    every group is handed to the pool, and every chunk gets a worker. *)
Lemma main_fanout w a j tr nbp pgs :
  main_plan w a j = (tr, Ok (Some (nbp, pgs))) ->
  Forall (fun g => exists cs,
              chunks g pgs = (cs, None)
              /\ concat (map nodes cs) = g
              /\ Forall (fun l => l <> []) (map nodes cs)
              /\ map pg cs
                 = (if pg_truthy pgs
                    then map Some (take (length cs) (default [] pgs))
                    else map (fun _ => None) cs))
         (dict_values nbp)
  /\ main w a j
     = {| main_trace := tr;
          dispatched := concat (map (fun g => fst (chunks g pgs))
                                    (dict_values nbp));
          workers := map (add_instances w)
                         (concat (map (fun g => fst (chunks g pgs))
                                      (dict_values nbp)));
          main_result :=
            if existsb is_timeout
                 (map (add_instances w)
                      (concat (map (fun g => fst (chunks g pgs))
                                   (dict_values nbp))))
            then Timeout else Ok tt |}.
Proof.
  intros Hplan.
  destruct (main_plan_Some_inv _ _ _ _ _ _ Hplan)
    as (lines & Hh & Hne & Hnbp & Hpgs).
  assert (Hok : Forall (fun g => exists cs,
                          chunks g pgs = (cs, None)
                          /\ concat (map nodes cs) = g
                          /\ Forall (fun l => l <> []) (map nodes cs)
                          /\ map pg cs
                             = (if pg_truthy pgs
                                then map Some (take (length cs)
                                                    (default [] pgs))
                                else map (fun _ => None) cs))
                       (dict_values nbp)).
  { rewrite List.Forall_forall. intros g Hg.
    destruct (chunks_spec g pgs) as (cs & Hcs & H1 & H2 & H3 & _);
      [|exists cs; auto].
    intros Htr. rewrite Hnbp in Hg. apply group_length_le in Hg.
    destruct Hpgs as [[-> _]|(d & _ & _ & -> & _ & _)]; [discriminate|].
    cbn [default from_option id]. rewrite length_map.
    destruct (planned_groups_facts w j (length lines) (region d)) as [-> _].
    apply Nat.Div0.div_le_mono. lia. }
  split; [exact Hok|].
  unfold main. rewrite Hplan.
  rewrite chain_all_ok.
  - rewrite map_map. reflexivity.
  - rewrite List.Forall_forall in *. intros g Hg.
    apply in_map_iff in Hg as [l [<- Hl]].
    destruct (Hok _ Hl) as (cs & -> & _). reflexivity.
Qed.

Lemma filter_perm {A} (f : A -> bool) l l' :
  Permutation l l' -> Permutation (List.filter f l) (List.filter f l').
Proof.
  induction 1 as [|x l l' Hp IH|x y l|l l' l'' H1 IH1 H2 IH2]; cbn [List.filter].
  - constructor.
  - destruct (f x); [constructor|]; exact IH.
  - destruct (f x), (f y); try reflexivity. apply perm_swap.
  - etransitivity; eassumption.
Qed.

Lemma filter_comm {A} (f g : A -> bool) l :
  List.filter f (List.filter g l) = List.filter g (List.filter f l).
Proof.
  induction l as [|x l IH]; [reflexivity|]. cbn [List.filter].
  destruct (f x) eqn:Hf, (g x) eqn:Hg; cbn [List.filter];
    rewrite ?Hf, ?Hg, IH; reflexivity.
Qed.

(** Keeping whole groups by their key is keeping the elements by their
    key. *)
Lemma filter_groups_concat {A} (key : A -> string) (f : string -> bool) l :
  concat (map snd (List.filter (fun kv => f (fst kv)) (groupby key l)))
  = List.filter (fun a => f (key a)) l.
Proof.
  rewrite <- (groupby_concat key l) at 2.
  pose proof (groupby_groups key l) as Hg. revert Hg.
  generalize (groupby key l) as G.
  induction G as [|[k g] G IH]; intros Hg; [reflexivity|].
  inversion Hg as [|? ? [_ Hk] HG]; subst. cbn [fst snd] in *.
  cbn [List.filter map concat fst snd]. rewrite List.filter_app, <- (IH HG).
  assert (Hgk : List.filter (fun a => f (key a)) g = if f k then g else []).
  { clear -Hk. induction Hk as [|x g Hx Hall IH]; cbn [List.filter].
    - destruct (f k); reflexivity.
    - rewrite Hx, IH. destruct (f k); reflexivity. }
  rewrite Hgk. destruct (f k); reflexivity.
Qed.

Lemma concat_chunk_nodes (pgs : option (list string)) (gs : list (list NodeName)) :
  Forall (fun g => exists cs,
              chunks g pgs = (cs, None)
              /\ concat (map nodes cs) = g
              /\ Forall (fun l => l <> []) (map nodes cs)
              /\ map pg cs
                 = (if pg_truthy pgs
                    then map Some (take (length cs) (default [] pgs))
                    else map (fun _ => None) cs)) gs ->
  concat (map nodes (concat (map (fun g => fst (chunks g pgs)) gs)))
  = concat gs
  /\ Forall (fun c => nodes c <> [])
            (concat (map (fun g => fst (chunks g pgs)) gs)).
Proof.
  induction 1 as [|g gs (cs & Hc & Hcat & Hne & _) Hall [IH1 IH2]];
    [split; [reflexivity|constructor]|].
  cbn [map concat]. rewrite Hc. cbn [fst].
  rewrite map_app, concat_app, Hcat, IH1. split; [reflexivity|].
  apply Forall_app. split; [|exact IH2].
  rewrite List.Forall_forall in *. intros c Hin.
  apply Hne, in_map, Hin.
Qed.

(** ** Claims *)

(** Claim C7.  Every chunk that [chunks] yields, for any group and any
    name list, holds at most 1000 nodes, and at most 22 when it carries a
    placement-group reference; the same holds of every chunk that [main]
    hands to the pool. *)
Theorem chunk_size_bounds (w : World) (a : string) (j : JobId)
    (lst : list NodeName) (pgs : option (list string)) :
  Forall (fun c => length (nodes c) <= TOT_REQ_CNT
                   /\ match pg c with
                      | Some _ => length (nodes c) <= PLACEMENT_MAX_CNT
                      | None => True
                      end)
         (fst (chunks lst pgs))
  /\ Forall (fun c => length (nodes c) <= 1000
                      /\ match pg c with
                         | Some _ => length (nodes c) <= 22
                         | None => True
                         end)
            (dispatched (main w a j)).
Proof.
  assert (Hchunks : forall l p,
    Forall (fun c => length (nodes c) <= 1000
                     /\ match pg c with
                        | Some _ => length (nodes c) <= 22
                        | None => True
                        end)
           (fst (chunks l p))).
  { intros l p. unfold chunks.
    eapply Forall_impl; [apply chunks_loop_bounds|].
    intros c [Hlen Hpg]. cbn beta in *.
    destruct (pg_truthy p) eqn:Htr; unfold PLACEMENT_MAX_CNT in *.
    - split; [lia|]. destruct (pg c); [lia|exact I].
    - split; [lia|]. destruct Hpg as [->|]; [exact I|discriminate]. }
  split; [apply Hchunks|].
  destruct (main_plan w a j) as [tr [[[nbp pgs']|]|e|]] eqn:Hplan.
  - destruct (main_fanout _ _ _ _ _ _ Hplan) as [_ ->]. cbn [dispatched].
    apply Forall_concat. rewrite List.Forall_forall. intros cs Hcs.
    apply in_map_iff in Hcs as [g [<- _]]. apply Hchunks.
  - unfold main. rewrite Hplan. constructor.
  - unfold main. rewrite Hplan. constructor.
  - unfold main. rewrite Hplan. constructor.
Qed.

(** Claim C1, as stated, fails: with no job identifier a node of an
    exclusive pid is expanded from the input, [main] returns normally,
    and the node is in no chunk. *)
Lemma partition_all_input_counterexample :
  let w := sample_world (<["g1-c-0" := sample_def true false None false]> ∅)
                        ["g1-c-0-0"] (fun _ => true) in
  let run := main w "g1-c-0-0" JobInt0 in
  show_hostnames w "g1-c-0-0" = Ok ["g1-c-0-0"]
  /\ main_result run = Ok tt
  /\ ~ (forall n, In n ["g1-c-0-0"] ->
                  exists c, In c (dispatched run) /\ In n (nodes c)).
Proof.
  cbv zeta. split; [reflexivity|]. split; [vm_compute; reflexivity|].
  intros H. destruct (H "g1-c-0-0" (or_introl eq_refl)) as [c [Hc _]].
  vm_compute in Hc. exact Hc.
Qed.

(** Claim C1, amended.  Whenever an invocation returns normally, the
    chunks handed to the pool partition exactly the nodes of the pid
    groups it provisions (all nodes for a job-scoped call on an exclusive
    deciding pid, none for a job-scoped call on a non-exclusive one, the
    nodes of non-exclusive pids otherwise): chunk by chunk they spell the
    retained part of the pid-sorted list, so every retained node occurs
    in exactly one chunk, no chunk is empty, and the nodes of each pid
    come in their input order. *)
Theorem chunks_partition_retained (w : World) (a : string) (j : JobId)
    (lines : list NodeName) :
  show_hostnames w a = Ok lines ->
  main_result (main w a j) = Ok tt ->
  concat (map nodes (dispatched (main w a j)))
  = List.filter (retained w j lines) (sorted (get_pid w) lines)
  /\ Permutation (concat (map nodes (dispatched (main w a j))))
                 (List.filter (retained w j lines) lines)
  /\ Forall (fun c => nodes c <> []) (dispatched (main w a j))
  /\ forall p,
       List.filter (has_pid w p)
                   (concat (map nodes (dispatched (main w a j))))
       = List.filter (has_pid w p) (List.filter (retained w j lines) lines).
Proof.
  intros Hh Hres.
  assert (Hcat : concat (map nodes (dispatched (main w a j)))
                 = List.filter (retained w j lines) (sorted (get_pid w) lines)
                 /\ Forall (fun c => nodes c <> []) (dispatched (main w a j))).
  { destruct (main_plan w a j) as [tr [[[nbp pgs]|]|e|]] eqn:Hplan.
    - destruct (main_plan_Some_inv _ _ _ _ _ _ Hplan)
        as (lines' & Hh' & _ & Hnbp & _).
      rewrite Hh in Hh'. injection Hh' as <-.
      destruct (main_fanout _ _ _ _ _ _ Hplan) as [Hok ->].
      cbn [dispatched].
      destruct (concat_chunk_nodes pgs _ Hok) as [-> Hne].
      split; [|exact Hne].
      rewrite Hnbp. unfold dict_values.
      apply (filter_groups_concat (get_pid w) (keep_pid w j lines)).
    - destruct (main_plan_None_inv _ _ _ _ Hplan)
        as (_ & lines' & Hh' & Hkeep).
      rewrite Hh in Hh'. injection Hh' as <-.
      unfold main. rewrite Hplan. cbn [dispatched map concat].
      split; [|constructor].
      symmetry. induction (sorted (get_pid w) lines) as [|n l IH];
        [reflexivity|].
      cbn [List.filter]. unfold retained at 1. rewrite Hkeep. exact IH.
    - unfold main in Hres. rewrite Hplan in Hres. discriminate.
    - unfold main in Hres. rewrite Hplan in Hres. discriminate. }
  destruct Hcat as [Hcat Hne]. rewrite Hcat.
  split; [reflexivity|]. split; [|split; [exact Hne|]].
  - apply filter_perm, sorted_perm.
  - intros p. rewrite filter_comm, (filter_comm (has_pid w p)).
    f_equal. apply (sorted_stable (get_pid w) p).
Qed.

Lemma chunks_partition_retained_witness :
  let w := sample_world (<["g1-c-0" := sample_def false false None false]>
                           (<["g1-c-1" := sample_def true false None false]> ∅))
                        ["g1-c-1-0"; "g1-c-0-1"; "g1-c-0-0"] (fun _ => true) in
  concat (map nodes (dispatched (main w "x" JobInt0)))
  = ["g1-c-0-1"; "g1-c-0-0"].
Proof.
  cbv zeta.
  refine (eq_trans
            (proj1 (chunks_partition_retained
                      (sample_world
                         (<["g1-c-0" := sample_def false false None false]>
                            (<["g1-c-1" := sample_def true false None false]> ∅))
                         ["g1-c-1-0"; "g1-c-0-1"; "g1-c-0-0"] (fun _ => true))
                      "x" JobInt0 ["g1-c-1-0"; "g1-c-0-1"; "g1-c-0-0"]
                      _ _)) _).
  - reflexivity.
  - vm_compute. reflexivity.
  - vm_compute. reflexivity.
Defined.

(** *** The request of one chunk *)

Lemma mapM_quiet {A B C} (sel : event -> option C) (f : A -> M B) l :
  (forall x, omap sel (fst (f x)) = []) ->
  omap sel (fst (mapM f l)) = [].
Proof.
  intros Hf. induction l as [|x l IH]; [reflexivity|].
  cbn [mapM]. specialize (Hf x).
  destruct (f x) as [tr [y|e|]]; cbn [fst] in Hf; try exact Hf.
  rewrite bind_Ok. cbn [fst].
  destruct (mapM f l) as [tr' [ys|e|]]; cbn [fst] in IH;
    unfold bind, ret; cbn [fst]; rewrite ?app_nil_r, omap_app, Hf, IH;
    reflexivity.
Qed.

Lemma mapM_read_quiet w (files : list (string * string)) :
  bulk_inserts
    (fst (mapM (fun kv => bind (call (EvReadText (snd kv))
                                     (read_text w (snd kv)))
                               (fun v => ret (fst kv, v))) files)) = []
  /\ down_calls
       (fst (mapM (fun kv => bind (call (EvReadText (snd kv))
                                        (read_text w (snd kv)))
                                  (fun v => ret (fst kv, v))) files)) = [].
Proof.
  split; apply mapM_quiet; intros kv; unfold call, bind, ret;
    destruct (read_text w (snd kv)); reflexivity.
Qed.

(** [create_instance] reads the auxiliary files and then sends at most
    one request, whose template is [build_config] and whose answer is
    its own. *)
Lemma create_instance_trace w d nl pgn :
  exists tr_read,
    bulk_inserts tr_read = [] /\ down_calls tr_read = []
    /\ ((fst (create_instance w d nl pgn) = tr_read
         /\ is_ok (snd (create_instance w d nl pgn)) = false)
        \/ exists items t body,
             fst (create_instance w d nl pgn) = tr_read ++ [EvBulkInsert t body]
             /\ snd (create_instance w d nl pgn) = bulk_insert w t body
             /\ instanceProperties body = build_config w d pgn items
             /\ count body = length nl
             /\ perInstanceProperties body
                = dict_keys (dict_of_items (map (fun k => (k, tt)) nl))).
Proof.
  unfold create_instance. destruct nl as [|n0 nl'].
  { exists []. repeat split; try reflexivity. left. split; reflexivity. }
  set (files := _ ++ _).
  destruct (mapM_read_quiet w files) as [Hb Hd].
  destruct (mapM _ files) as [tr [items|e|]]; cbn [fst] in Hb, Hd;
    exists tr; (split; [exact Hb|]); (split; [exact Hd|]).
  - right. rewrite bind_Ok.
    destruct (regional_capacity d); unfold call; cbn [fst snd];
      eexists items, _, _; repeat split; reflexivity.
  - left. split; reflexivity.
  - left. split; reflexivity.
Qed.

(** How each conditional of resume.py:144-175 treats the scheduling
    field. *)
Lemma scheduling_placement pgn c :
  scheduling (apply_placement pgn c)
  = if bool_decide (pgn <> None) then Some sched_placement else scheduling c.
Proof. destruct pgn; reflexivity. Qed.

Lemma scheduling_gpu d c :
  scheduling (apply_gpu d c)
  = if str_truthy (gpu_type d) then Some sched_accelerator else scheduling c.
Proof.
  unfold apply_gpu, str_truthy. destruct (gpu_type d) as [gt|]; [|reflexivity].
  destruct (String.eqb gt ""); reflexivity.
Qed.

Lemma scheduling_preemptible d c :
  scheduling (apply_preemptible d c)
  = if preemptible_bursting d then Some sched_preemptible else scheduling c.
Proof. unfold apply_preemptible. destruct (preemptible_bursting d); reflexivity. Qed.

Lemma scheduling_labels d c : scheduling (apply_labels d c) = scheduling c.
Proof. unfold apply_labels. destruct (compute_labels d); reflexivity. Qed.

Lemma scheduling_cpu_platform d c :
  scheduling (apply_cpu_platform d c) = scheduling c.
Proof.
  unfold apply_cpu_platform. destruct (str_truthy (cpu_platform d)); reflexivity.
Qed.

Lemma scheduling_external_ips w c :
  scheduling (apply_external_ips w c) = scheduling c.
Proof.
  unfold apply_external_ips. destruct (external_compute_ips (cfg w)); reflexivity.
Qed.

(** Claim C2, as stated, fails: for a definition with an accelerator and
    a chunk with a placement group, the request carries the accelerator's
    scheduling dictionary, not the placement one. *)
Lemma scheduling_placement_first_counterexample :
  let w := sample_world ∅ [] (fun _ => true) in
  let d := sample_def true true (Some "nvidia-tesla-t4") false in
  scheduling (build_config w d (Some "g1-7-1") [])
  <> scheduling_placement_first d (Some "g1-7-1").
Proof. cbv zeta. vm_compute. discriminate. Qed.

(** Claim C2, amended.  The branches are applied in the order placement,
    accelerator, preemptible, each overwriting the field, so the last
    applicable one wins: the effective precedence is preemptible >
    accelerator > placement, in the template and in every request that
    [create_instance] sends. *)
Theorem scheduling_last_branch_wins (w : World) (d : InstanceDefinition)
    (nl : list NodeName) (pgn : option string)
    (items : list (string * string)) :
  scheduling (build_config w d pgn items) = scheduling_preemptible_first d pgn
  /\ Forall (fun tb => scheduling (instanceProperties (snd tb))
                       = scheduling_preemptible_first d pgn)
            (bulk_inserts (fst (create_instance w d nl pgn))).
Proof.
  assert (H : forall its, scheduling (build_config w d pgn its)
                          = scheduling_preemptible_first d pgn).
  { intros its. unfold build_config. cbv zeta.
    rewrite scheduling_external_ips, scheduling_cpu_platform,
      scheduling_labels, scheduling_preemptible, scheduling_gpu,
      scheduling_placement.
    unfold scheduling_preemptible_first.
    destruct (preemptible_bursting d), (str_truthy (gpu_type d)),
      pgn as [name|]; reflexivity. }
  split; [apply H|].
  destruct (create_instance_trace w d nl pgn)
    as (tr & Hb & _ & [[-> _]|(its & t & body & -> & _ & Hip & _)]).
  - rewrite Hb. constructor.
  - rewrite bulk_inserts_app, Hb. cbn. constructor; [|constructor].
    cbn [snd]. rewrite Hip. apply H.
Qed.

(** *** Pids without a definition *)

Lemma add_instances_missing_def w c n0 rest :
  nodes c = n0 :: rest ->
  instance_defs (cfg w) !! get_pid w n0 = None ->
  add_instances w c
  = ([EvBuildCompute],
     match build_compute w with
     | Ok _ => Raise (KeyError (get_pid w n0))
     | Raise e => Raise e
     | Timeout => Timeout
     end).
Proof.
  intros Hn Hd. unfold add_instances, call. rewrite Hn.
  destruct (build_compute w) as [u|e|]; try reflexivity.
  rewrite bind_Ok, (lookup_def_None _ _ Hd). reflexivity.
Qed.

(** Claim C3, as stated, fails: in a job-scoped call the second pid has
    no definition, yet [main] returns normally and the chunk of the first
    pid is submitted. *)
Lemma missing_definition_not_fatal_counterexample :
  let w := sample_world (<["g1-c-0" := sample_def true false None false]> ∅)
                        ["g1-c-0-0"; "g1-c-1-0"] (fun _ => true) in
  let run := main w "x" (JobStr "7") in
  instance_defs (cfg w) !! get_pid w "g1-c-1-0" = None
  /\ main_result run = Ok tt
  /\ map (fun tb => perInstanceProperties (snd tb)) (submitted run)
     = [["g1-c-0-0"]].
Proof. cbv zeta. repeat split; vm_compute; reflexivity. Qed.

(** Claim C3, amended.  A pid without a definition is fatal before any
    chunk is dispatched when no job identifier is given (every classified
    pid is looked up) or when it is the deciding pid of a job-scoped call;
    no request is then submitted.  In any case a chunk of such a pid
    submits no request: its worker raises before building one. *)
Theorem missing_definition_outcome (w : World) (a : string) (j : JobId)
    (lines : list NodeName) (p : Pid) :
  show_hostnames w a = Ok lines ->
  In p (map (get_pid w) lines) ->
  instance_defs (cfg w) !! p = None ->
  ((job_truthy j = false \/ first_pid w lines = Some p) ->
   exists k,
     instance_defs (cfg w) !! k = None
     /\ main w a j = {| main_trace := [EvShowHostnames a];
                        dispatched := []; workers := [];
                        main_result := Raise (KeyError k) |}
     /\ submitted (main w a j) = [])
  /\ (forall c n0 rest,
        nodes c = n0 :: rest -> get_pid w n0 = p ->
        bulk_inserts (fst (add_instances w c)) = []
        /\ is_ok (snd (add_instances w c)) = false).
Proof.
  intros Hh Hp Hnone. split.
  - assert (Hne : lines <> []) by (intros ->; destruct Hp).
    assert (Hfatal : forall k,
      main_plan w a j = ([EvShowHostnames a], Raise (KeyError k)) ->
      main w a j = {| main_trace := [EvShowHostnames a];
                      dispatched := []; workers := [];
                      main_result := Raise (KeyError k) |}
      /\ submitted (main w a j) = []).
    { intros k Hplan. unfold submitted, main. rewrite Hplan.
      split; reflexivity. }
    destruct (job_truthy j) eqn:Hj; intros [Hcase|Hcase]; try discriminate.
    + unfold first_pid in Hcase.
      destruct (sorted (get_pid w) lines) as [|n0 rest] eqn:Hs;
        [discriminate|].
      injection Hcase as <-. exists (get_pid w n0). split; [exact Hnone|].
      apply Hfatal. rewrite (main_plan_job w a j lines n0 rest Hj Hh Hs).
      rewrite Hnone. reflexivity.
    + destruct (main_plan_no_job w a j lines Hj Hh Hne)
        as [[Hall _]|(k & _ & Hk & Hplan)].
      * rewrite List.Forall_forall in Hall.
        apply in_map_iff in Hp as [n [<- Hn]]. destruct (Hall n Hn Hnone).
      * exists k. split; [exact Hk|]. apply Hfatal, Hplan.
    + destruct (main_plan_no_job w a j lines Hj Hh Hne)
        as [[Hall _]|(k & _ & Hk & Hplan)].
      * rewrite List.Forall_forall in Hall.
        apply in_map_iff in Hp as [n [<- Hn]]. destruct (Hall n Hn Hnone).
      * exists k. split; [exact Hk|]. apply Hfatal, Hplan.
  - intros c n0 rest Hn <-.
    rewrite (add_instances_missing_def w c n0 rest Hn Hnone).
    split; [reflexivity|]. cbn [snd].
    destruct (build_compute w); reflexivity.
Qed.

Lemma missing_definition_outcome_witness :
  let w := sample_world (<["g1-c-0" := sample_def false false None false]> ∅)
                        ["g1-c-0-0"; "g1-c-1-0"] (fun _ => true) in
  exists k,
    instance_defs (cfg w) !! k = None
    /\ main w "x" JobInt0 = {| main_trace := [EvShowHostnames "x"];
                               dispatched := []; workers := [];
                               main_result := Raise (KeyError k) |}
    /\ submitted (main w "x" JobInt0) = [].
Proof.
  cbv zeta.
  refine (proj1 (missing_definition_outcome
                   (sample_world
                      (<["g1-c-0" := sample_def false false None false]> ∅)
                      ["g1-c-0-0"; "g1-c-1-0"] (fun _ => true))
                   "x" JobInt0 ["g1-c-0-0"; "g1-c-1-0"] "g1-c-1" _ _ _) _).
  - reflexivity.
  - vm_compute. right. left. reflexivity.
  - vm_compute. reflexivity.
  - left. reflexivity.
Defined.

(** *** Job-scoped calls on a pid that is not exclusive *)

(** Claim C8, as stated, fails: the first node of the expansion has a
    pid that is not exclusive and a job identifier is supplied, yet the
    call is no no-op.  The test of [main] reads the first node of the
    pid-sorted list, here a node of an exclusive pid, and both nodes are
    dispatched and requested from the provider. *)
Lemma job_call_first_input_node_counterexample :
  let w := sample_world (<["g1-c-1" := sample_def false false None false]>
                           (<["g1-c-0" := sample_def true false None false]> ∅))
                        ["g1-c-1-0"; "g1-c-0-0"] (fun _ => true) in
  let run := main w "x" (JobStr "7") in
  job_truthy (JobStr "7") = true
  /\ show_hostnames w "x" = Ok ["g1-c-1-0"; "g1-c-0-0"]
  /\ option_map exclusive (instance_defs (cfg w) !! get_pid w "g1-c-1-0")
     = Some false
  /\ map nodes (dispatched run) = [["g1-c-0-0"]; ["g1-c-1-0"]]
  /\ map (fun tb => perInstanceProperties (snd tb)) (submitted run)
     = [["g1-c-0-0"]; ["g1-c-1-0"]]
  /\ main_result run = Ok tt.
Proof.
  cbv zeta. repeat split; vm_compute; reflexivity.
Qed.

(** Claim C8, amended.  With a job identifier, if the definition of the
    pid of the first node of [node_list] (the pid-sorted list) is not
    exclusive, [main] returns at once: it has expanded the node
    expression and done nothing else, no chunk exists, no worker ran, no
    bulk-create and no placement-group request was made. *)
Theorem job_call_on_shared_pid_is_noop (w : World) (a : string) (j : JobId)
    (lines : list NodeName) (n0 : NodeName) (rest : list NodeName)
    (d : InstanceDefinition) :
  job_truthy j = true ->
  show_hostnames w a = Ok lines ->
  sorted (get_pid w) lines = n0 :: rest ->
  instance_defs (cfg w) !! get_pid w n0 = Some d ->
  exclusive d = false ->
  main w a j = {| main_trace := [EvShowHostnames a];
                  dispatched := []; workers := [];
                  main_result := Ok tt |}
  /\ submitted (main w a j) = []
  /\ policy_inserts (main_trace (main w a j)) = [].
Proof.
  intros Hj Hh Hs Hd Hex.
  assert (Hmain : main w a j = {| main_trace := [EvShowHostnames a];
                                  dispatched := []; workers := [];
                                  main_result := Ok tt |}).
  { unfold main. rewrite (main_plan_job w a j lines n0 rest Hj Hh Hs).
    rewrite Hd, Hex. reflexivity. }
  rewrite Hmain. repeat split; reflexivity.
Qed.

Lemma job_call_on_shared_pid_is_noop_witness :
  let w := sample_world (<["g1-c-0" := sample_def false false None false]>
                           (<["g1-c-1" := sample_def true false None false]> ∅))
                        ["g1-c-1-0"; "g1-c-0-0"] (fun _ => true) in
  main w "x" (JobStr "7") = {| main_trace := [EvShowHostnames "x"];
                               dispatched := []; workers := [];
                               main_result := Ok tt |}.
Proof.
  cbv zeta.
  refine (proj1 (job_call_on_shared_pid_is_noop
                   (sample_world
                      (<["g1-c-0" := sample_def false false None false]>
                         (<["g1-c-1" := sample_def true false None false]> ∅))
                      ["g1-c-1-0"; "g1-c-0-0"] (fun _ => true))
                   "x" (JobStr "7") ["g1-c-1-0"; "g1-c-0-0"]
                   "g1-c-0-0" ["g1-c-1-0"]
                   (sample_def false false None false) _ _ _ _ _)).
  - reflexivity.
  - reflexivity.
  - vm_compute. reflexivity.
  - vm_compute. reflexivity.
  - reflexivity.
Defined.

(** *** Calls without a job identifier *)

Lemma filter_filter_false {A} (f g : A -> bool) l :
  (forall x, f x = true -> g x = false) ->
  List.filter f (List.filter g l) = [].
Proof.
  intros H. induction l as [|x l IH]; [reflexivity|]. cbn [List.filter].
  destruct (g x) eqn:Hg; [|exact IH]. cbn [List.filter].
  destruct (f x) eqn:Hf; [|exact IH]. rewrite (H x Hf) in Hg. discriminate.
Qed.

Lemma filter_filter_true {A} (f g : A -> bool) l :
  (forall x, f x = true -> g x = true) ->
  List.filter f (List.filter g l) = List.filter f l.
Proof.
  intros H. induction l as [|x l IH]; [reflexivity|]. cbn [List.filter].
  destruct (f x) eqn:Hf.
  - rewrite (H x Hf). cbn [List.filter]. rewrite Hf, IH. reflexivity.
  - destruct (g x); cbn [List.filter]; rewrite ?Hf; exact IH.
Qed.

(** Claim C9.  Without a job identifier (and with a definition for every
    pid, so that classification succeeds) the groups of exclusive pids
    are dropped and the others are chunked as they are, in pid order and
    without placement groups: no chunk holds a node of an exclusive pid,
    and the nodes of every other pid are all there, in input order. *)
Theorem exclusive_pids_skipped_without_job (w : World) (a : string)
    (j : JobId) (lines : list NodeName) :
  job_truthy j = false ->
  show_hostnames w a = Ok lines ->
  lines <> [] ->
  Forall (fun n => instance_defs (cfg w) !! get_pid w n <> None) lines ->
  main_trace (main w a j) = [EvShowHostnames a]
  /\ dispatched (main w a j)
     = concat (map (fun kv => fst (chunks (snd kv) None))
                   (List.filter (fun kv => negb (is_exclusive w (fst kv)))
                      (groupby (get_pid w) (sorted (get_pid w) lines))))
  /\ workers (main w a j) = map (add_instances w) (dispatched (main w a j))
  /\ (forall p, is_exclusive w p = true ->
                List.filter (has_pid w p)
                            (concat (map nodes (dispatched (main w a j)))) = [])
  /\ (forall p, is_exclusive w p = false ->
                List.filter (has_pid w p)
                            (concat (map nodes (dispatched (main w a j))))
                = List.filter (has_pid w p) lines).
Proof.
  intros Hj Hh Hne Hall.
  destruct (main_plan_no_job w a j lines Hj Hh Hne)
    as [[_ Hplan]|(k & Hk & Hnone & _)].
  2:{ rewrite List.Forall_forall in Hall.
      apply in_map_iff in Hk as [n [<- Hn]]. destruct (Hall n Hn Hnone). }
  destruct (main_fanout _ _ _ _ _ _ Hplan) as [Hok Hmain].
  destruct (concat_chunk_nodes None _ Hok) as [Hcat _].
  rewrite Hmain. cbn [main_trace dispatched workers].
  assert (Hkeep : forall p, keep_pid w j lines p = negb (is_exclusive w p)).
  { intros p. unfold keep_pid. rewrite Hj. reflexivity. }
  split; [reflexivity|]. split; [|split; [reflexivity|]].
  - unfold dict_values. rewrite map_map. do 2 f_equal.
    apply List.filter_ext. intros kv. apply Hkeep.
  - rewrite Hcat. unfold dict_values.
    rewrite (filter_groups_concat (get_pid w) (keep_pid w j lines)).
    split; intros p Hp.
    + apply filter_filter_false. intros n Hn. unfold has_pid in Hn.
      apply String.eqb_eq in Hn. rewrite Hkeep, Hn, Hp. reflexivity.
    + rewrite filter_filter_true.
      * apply (sorted_stable (get_pid w) p).
      * intros n Hn. unfold has_pid in Hn.
        apply String.eqb_eq in Hn. rewrite Hkeep, Hn, Hp. reflexivity.
Qed.

Lemma exclusive_pids_skipped_without_job_witness :
  let w := sample_world (<["g1-c-0" := sample_def false false None false]>
                           (<["g1-c-1" := sample_def true false None false]> ∅))
                        ["g1-c-1-0"; "g1-c-0-1"; "g1-c-0-0"] (fun _ => true) in
  dispatched (main w "x" JobInt0)
  = [ {| nodes := ["g1-c-0-1"; "g1-c-0-0"]; pg := None |} ].
Proof.
  cbv zeta.
  refine (eq_trans
            (proj1 (proj2 (exclusive_pids_skipped_without_job
               (sample_world
                  (<["g1-c-0" := sample_def false false None false]>
                     (<["g1-c-1" := sample_def true false None false]> ∅))
                  ["g1-c-1-0"; "g1-c-0-1"; "g1-c-0-0"] (fun _ => true))
               "x" JobInt0 ["g1-c-1-0"; "g1-c-0-1"; "g1-c-0-0"] _ _ _ _))) _).
  - reflexivity.
  - reflexivity.
  - discriminate.
  - repeat constructor; vm_compute; discriminate.
  - vm_compute. reflexivity.
Defined.

(** *** The order of the node list *)

Lemma sorted_keys_filter {V} (R : string -> string -> Prop)
    (f : string * V -> bool) (l : list (string * V)) :
  StronglySorted R (dict_keys l) ->
  StronglySorted R (dict_keys (List.filter f l)).
Proof.
  unfold dict_keys.
  induction l as [|kv l IH]; intros Hs; [constructor|].
  cbn [map] in Hs. inversion Hs as [|? ? Hs' Hall]; subst.
  cbn [List.filter]. destruct (f kv); [|apply IH, Hs'].
  cbn [map]. constructor; [apply IH, Hs'|].
  rewrite List.Forall_forall in *. intros k Hk. apply Hall.
  apply in_map_iff in Hk as [kv' [<- Hkv']].
  apply List.filter_In in Hkv' as [Hkv' _]. apply in_map, Hkv'.
Qed.

(** Claim C10.  [node_list] is the input stably sorted by pid: a
    permutation of the input, in non-decreasing pid order, with the nodes
    of each pid in their input order.  Hence the groups come with
    pairwise different, strictly increasing pids, the dictionary
    [nodes_by_pid] is that list of groups, and the node whose pid decides
    the job-scoped tests is the head of the sorted list: an input node of
    least pid.  The groups that are kept are chunked and handed to the
    pool in increasing pid order.  Whether a job-scoped call is a no-op,
    and whether and in which region placement groups are created, is read
    off the definition of that pid. *)
Theorem node_list_sorted_by_pid (w : World) (a : string) (j : JobId)
    (lines : list NodeName) (n0 : NodeName) (rest : list NodeName) :
  sorted (get_pid w) lines = n0 :: rest ->
  Permutation (sorted (get_pid w) lines) lines
  /\ StronglySorted (key_le (get_pid w)) (sorted (get_pid w) lines)
  /\ (forall p, List.filter (has_pid w p) (sorted (get_pid w) lines)
                = List.filter (has_pid w p) lines)
  /\ StronglySorted str_lt
       (dict_keys (groupby (get_pid w) (sorted (get_pid w) lines)))
  /\ dict_of_items (groupby (get_pid w) (sorted (get_pid w) lines))
     = groupby (get_pid w) (sorted (get_pid w) lines)
  /\ In n0 lines
  /\ (forall n, In n lines -> String.leb (get_pid w n0) (get_pid w n) = true)
  /\ first_pid w lines = Some (get_pid w n0)
  /\ (forall tr nbp pgs,
        show_hostnames w a = Ok lines ->
        main_plan w a j = (tr, Ok (Some (nbp, pgs))) ->
        StronglySorted str_lt (dict_keys nbp)
        /\ dispatched (main w a j)
           = concat (map (fun g => fst (chunks g pgs)) (dict_values nbp)))
  /\ (job_truthy j = true ->
      show_hostnames w a = Ok lines ->
      forall d, instance_defs (cfg w) !! get_pid w n0 = Some d ->
        (exclusive d = false ->
         dispatched (main w a j) = []
         /\ main_trace (main w a j) = [EvShowHostnames a])
        /\ (exclusive d = true ->
            wants_placement d (length lines) = false ->
            main_trace (main w a j) = [EvShowHostnames a])
        /\ (exclusive d = true ->
            wants_placement d (length lines) = true ->
            main_trace (main w a j)
            = EvShowHostnames a
              :: fst (create_placement_groups w j (length lines) (region d))
              ++ (if is_ok (snd (create_placement_groups w j (length lines)
                                   (region d)))
                  then [EvSleep 5] else []))).
Proof.
  intros Hs.
  split; [apply sorted_perm|]. split; [apply sorted_sorted|].
  split; [intros p; apply (sorted_stable (get_pid w) p)|].
  split; [apply groupby_sorted_keys, sorted_sorted|].
  split; [apply nodes_by_pid_groups|].
  split.
  { eapply Permutation_in; [apply sorted_perm|]. rewrite Hs. left.
    reflexivity. }
  split; [intros n Hn; apply (sorted_head_least (get_pid w) lines n0 rest Hs n Hn)|].
  split; [apply (first_pid_cons _ _ _ _ Hs)|].
  split.
  { intros tr nbp pgs Hh Hplan.
    destruct (main_plan_Some_inv _ _ _ _ _ _ Hplan)
      as (lines' & Hh' & _ & Hnbp & _).
    rewrite Hh in Hh'. injection Hh' as <-. split.
    - rewrite Hnbp. apply sorted_keys_filter, groupby_sorted_keys,
        sorted_sorted.
    - destruct (main_fanout _ _ _ _ _ _ Hplan) as [_ ->]. reflexivity. }
  intros Hj Hh d Hd.
  pose proof (main_plan_job w a j lines n0 rest Hj Hh Hs) as Hplan.
  rewrite Hd in Hplan.
  split; [|split].
  - intros Hex. rewrite Hex in Hplan. cbn [negb] in Hplan.
    unfold main. rewrite Hplan. split; reflexivity.
  - intros Hex Hwp. rewrite Hex, Hwp in Hplan. cbn [negb] in Hplan.
    destruct (main_fanout _ _ _ _ _ _ Hplan) as [_ ->]. reflexivity.
  - intros Hex Hwp. rewrite Hex, Hwp in Hplan. cbn [negb] in Hplan.
    destruct (create_placement_groups w j (length lines) (region d))
      as [tr [names|e|]] eqn:Hc; cbn [fst snd is_ok].
    + destruct (main_fanout _ _ _ _ _ _ Hplan) as [_ ->]. reflexivity.
    + unfold main. rewrite Hplan, app_nil_r. reflexivity.
    + unfold main. rewrite Hplan, app_nil_r. reflexivity.
Qed.

Lemma node_list_sorted_by_pid_witness :
  let w := sample_world (<["g1-c-0" := sample_def false false None false]>
                           (<["g1-c-1" := sample_def true false None false]> ∅))
                        ["g1-c-1-0"; "g1-c-0-0"] (fun _ => true) in
  get_pid w "g1-c-1-0" = "g1-c-1"
  /\ is_exclusive w "g1-c-1" = true
  /\ first_pid w ["g1-c-1-0"; "g1-c-0-0"] = Some (get_pid w "g1-c-0-0").
Proof.
  cbv zeta. split; [reflexivity|]. split; [reflexivity|].
  refine (proj1 (proj2 (proj2 (proj2 (proj2 (proj2 (proj2 (proj2
            (node_list_sorted_by_pid
               (sample_world
                  (<["g1-c-0" := sample_def false false None false]>
                     (<["g1-c-1" := sample_def true false None false]> ∅))
                  ["g1-c-1-0"; "g1-c-0-0"] (fun _ => true))
               "x" (JobStr "7") ["g1-c-1-0"; "g1-c-0-0"]
               "g1-c-0-0" ["g1-c-1-0"] _))))))))).
  vm_compute. reflexivity.
Defined.

(** *** Placement groups *)

Lemma lookup_map_seq {B} (f : nat -> B) c : forall a k,
  k < c -> map f (seq a c) !! k = Some (f (a + k)).
Proof.
  induction c as [|c IH]; intros a k Hk; [lia|].
  destruct k as [|k]; cbn [seq map].
  - rewrite Nat.add_0_r. reflexivity.
  - change ((f a :: map f (seq (S a) c)) !! S k)
      with (map f (seq (S a) c) !! k).
    rewrite IH by lia. do 2 f_equal. lia.
Qed.

(** Claim C6.  For [n > 0] the planned groups are [ceil(n/22)] many,
    each of capacity between 1 and 22, their capacities add up to [n],
    and the k-th is named cluster-job-k (counting from 1); for [n = 50]
    the capacities are 22, 22, 6.  An allocation that returns has
    inserted exactly these groups, in this order, and returns their
    names; and the allocation does return when the provider accepts
    every group and completes every operation within the observed
    polls. *)
Theorem placement_groups_allocated (w : World) (j : JobId) (n : nat)
    (rgn : string) :
  0 < n ->
  length (planned_groups w j n rgn) = (n + 21) / 22
  /\ 22 * ((n + 21) / 22 - 1) < n <= 22 * ((n + 21) / 22)
  /\ Forall (fun g => 1 <= vmCount g <= 22) (planned_groups w j n rgn)
  /\ list_sum (map vmCount (planned_groups w j n rgn)) = n
  /\ (forall k, k < (n + 21) / 22 ->
        map pg_name (planned_groups w j n rgn) !! k
        = Some (cluster_name (cfg w) +:+ "-" +:+ job_format j
                +:+ "-" +:+ pretty (k + 1)))
  /\ map vmCount (planned_groups w j 50 rgn) = [22; 22; 6]
  /\ (forall tr names,
        create_placement_groups w j n rgn = (tr, Ok names) ->
        policy_inserts tr = planned_groups w j n rgn
        /\ names = map pg_name (planned_groups w j n rgn))
  /\ (is_ok (build_compute w) = true ->
      (forall g, In g (planned_groups w j n rgn) ->
                 is_ok (policy_insert w g) = true) ->
      (forall g op, In g (planned_groups w j n rgn) ->
                    policy_insert w g = Ok op ->
                    is_ok (snd (wait_for_operation w op)) = true) ->
      snd (create_placement_groups w j n rgn)
      = Ok (map pg_name (planned_groups w j n rgn))).
Proof.
  intros Hn.
  destruct (planned_groups_facts w j n rgn) as (Hlen & Hcap & Hsum).
  pose proof (Nat.div_mod_eq (n + 21) 22) as Hdm.
  pose proof (Nat.mod_upper_bound (n + 21) 22 ltac:(lia)) as Hub.
  split; [exact Hlen|]. split; [lia|]. split; [exact Hcap|].
  split; [exact Hsum|]. split; [|split; [reflexivity|split]].
  - intros k Hk. unfold planned_groups, groups_from.
    rewrite map_map. rewrite lookup_map_seq by exact Hk. reflexivity.
  - intros tr names. apply create_placement_groups_Ok_inv.
  - apply create_placement_groups_run.
Qed.

Lemma placement_groups_allocated_witness :
  let w := sample_world ∅ [] (fun _ => true) in
  policy_inserts (fst (create_placement_groups w (JobStr "7") 50 "us-central1"))
  = planned_groups w (JobStr "7") 50 "us-central1"
  /\ snd (create_placement_groups w (JobStr "7") 50 "us-central1")
     = Ok ["g1-7-1"; "g1-7-2"; "g1-7-3"].
Proof.
  cbv zeta.
  pose proof (placement_groups_allocated
                (sample_world ∅ [] (fun _ => true)) (JobStr "7") 50
                "us-central1" ltac:(lia))
    as (_ & _ & _ & _ & _ & _ & Hinv & Hrun).
  split.
  - refine (proj1 (Hinv _ ["g1-7-1"; "g1-7-2"; "g1-7-3"] _)).
    vm_compute. reflexivity.
  - refine (eq_trans (Hrun _ _ _) _).
    + reflexivity.
    + intros g Hg. reflexivity.
    + intros g op Hg Hop. vm_compute in Hg.
      destruct Hg as [<-|[<-|[<-|[]]]]; injection Hop as <-;
        vm_compute; reflexivity.
    + vm_compute. reflexivity.
Defined.

(** Claim C4.  The code does not keep the alignment: on a job-scoped
    call over 22 nodes of one pid followed by one node of another, the
    allocator is sized on the whole node list and creates two groups,
    g1-7-1 for 22 machines and g1-7-2 for one, while [chunks] restarts
    its index at every node group.  Both dispatched chunks, and both
    bulk requests, carry g1-7-1: 23 machines are sent to a group made
    for 22, no chunk carries g1-7-2, and the name list is aligned with
    neither the dispatched chunks nor the chunks of any node group. *)
Theorem placement_name_reused_across_pids :
  let w := sample_world (<["g1-c-0" := sample_def true true None false]>
                           (<["g1-c-1" := sample_def true true None false]> ∅))
                        (sample_nodes "g1-c-0" 22 ++ sample_nodes "g1-c-1" 1)
                        (fun _ => true) in
  let run := main w "x" (JobStr "7") in
  let names := map pg_name (policy_inserts (main_trace run)) in
  map (fun p => (pg_name p, vmCount p)) (policy_inserts (main_trace run))
  = [("g1-7-1", 22); ("g1-7-2", 1)]
  /\ snd (main_plan w "x" (JobStr "7"))
     = Ok (Some ([("g1-c-0", sample_nodes "g1-c-0" 22);
                  ("g1-c-1", sample_nodes "g1-c-1" 1)], Some names))
  /\ map (fun c => (length (nodes c), pg c)) (dispatched run)
     = [(22, Some "g1-7-1"); (1, Some "g1-7-1")]
  /\ map (fun tb => (count (snd tb),
                     resourcePolicies (instanceProperties (snd tb))))
         (submitted run)
     = [(22, Some ["g1-7-1"]); (1, Some ["g1-7-1"])]
  /\ ~ aligned names (dispatched run)
  /\ ~ aligned names (fst (chunks (sample_nodes "g1-c-0" 22) (Some names)))
  /\ ~ aligned names (fst (chunks (sample_nodes "g1-c-1" 1) (Some names)))
  /\ main_result run = Ok tt.
Proof.
  cbv zeta.
  split; [vm_compute; reflexivity|].
  split; [vm_compute; reflexivity|].
  split; [vm_compute; reflexivity|].
  split; [vm_compute; reflexivity|].
  split; [unfold aligned; vm_compute; discriminate|].
  split; [unfold aligned; vm_compute; discriminate|].
  split; [unfold aligned; vm_compute; discriminate|].
  vm_compute. reflexivity.
Qed.

(** *** Failure of one chunk *)

Lemma wait_loop_with_bulk w f fuel k op :
  wait_loop (with_bulk_insert w f) fuel k op = wait_loop w fuel k op.
Proof. reflexivity. Qed.

Lemma create_instance_with_bulk w f d nl pgn :
  (forall t b, perInstanceProperties b = request_names nl ->
               f t b = bulk_insert w t b) ->
  create_instance (with_bulk_insert w f) d nl pgn = create_instance w d nl pgn.
Proof.
  intros Hf. unfold create_instance. destruct nl as [|n0 nl']; [reflexivity|].
  change (SCRIPTS_DIR (with_bulk_insert w f)) with (SCRIPTS_DIR w).
  change (custom_compute_exists (with_bulk_insert w f))
    with (custom_compute_exists w).
  change (read_text (with_bulk_insert w f)) with (read_text w).
  change (build_config (with_bulk_insert w f)) with (build_config w).
  change (bulk_insert (with_bulk_insert w f)) with f.
  destruct (mapM _ _) as [tr [items|e|]]; try reflexivity.
  rewrite !bind_Ok.
  destruct (regional_capacity d); unfold call; cbn [fst snd];
    rewrite Hf; reflexivity.
Qed.

Lemma add_instances_with_bulk w f c :
  (forall t b, perInstanceProperties b = request_names (nodes c) ->
               f t b = bulk_insert w t b) ->
  add_instances (with_bulk_insert w f) c = add_instances w c.
Proof.
  intros Hf. unfold add_instances.
  change (build_compute (with_bulk_insert w f)) with (build_compute w).
  unfold call. destruct (build_compute w) as [u|e|]; try reflexivity.
  rewrite !bind_Ok. destruct (nodes c) as [|n0 rest] eqn:Hn; [reflexivity|].
  change (get_pid (with_bulk_insert w f)) with (get_pid w).
  change (lookup_def (with_bulk_insert w f)) with (lookup_def w).
  unfold lookup_def.
  destruct (instance_defs (cfg w) !! get_pid w n0) as [d|]; [|reflexivity].
  rewrite !bind_ret_l.
  change (down_nodes (with_bulk_insert w f)) with (down_nodes w).
  rewrite (create_instance_with_bulk w f d (n0 :: rest) (pg c) Hf).
  reflexivity.
Qed.

Lemma down_nodes_calls w nl reason :
  down_calls (fst (down_nodes w nl reason)) = [(nl, reason)].
Proof.
  unfold down_nodes, emit, call. rewrite bind_Ok.
  destruct (show_hostlist w (join_lines nl)) as [h|e|]; reflexivity.
Qed.

Lemma down_nodes_run w nl reason :
  is_ok (show_hostlist w (join_lines nl)) = true ->
  (forall h, is_ok (update_down w h reason) = true) ->
  snd (down_nodes w nl reason) = Ok tt.
Proof.
  intros Hh Hu. unfold down_nodes, emit, call. rewrite bind_Ok.
  destruct (show_hostlist w (join_lines nl)) as [h|e|]; try discriminate.
  rewrite bind_Ok. cbn [snd]. specialize (Hu h).
  destruct (update_down w h reason) as [[]|e|]; try discriminate.
  reflexivity.
Qed.

(** The body of the [try] of [add_instances] raises exactly when the
    submission raises or the wait raises, and then it has not entered
    [down_nodes]. *)
Lemma try_body_raises w d nl pgn e :
  snd (create_instance w d nl pgn) = Raise e
  \/ (exists tr op, create_instance w d nl pgn = (tr, Ok op)
                    /\ snd (wait_for_operation w op) = Raise e) ->
  exists tr,
    bind (create_instance w d nl pgn)
         (fun operation => bind (wait_for_operation w operation)
                                (fun _ => ret tt))
    = (tr, Raise e)
    /\ down_calls tr = [].
Proof.
  destruct (create_instance_trace w d nl pgn)
    as (tr_read & _ & Hd & Hshape).
  assert (Hq : down_calls (fst (create_instance w d nl pgn)) = []).
  { destruct Hshape as [[-> _]|(its & t & body & -> & _)]; [exact Hd|].
    rewrite down_calls_app, Hd. reflexivity. }
  intros [Hc|(tr & op & Hc & Hw)].
  - destruct (create_instance w d nl pgn) as [tr r]. cbn [fst snd] in *.
    subst r. exists tr. split; [reflexivity|exact Hq].
  - rewrite Hc in Hq |- *. cbn [fst] in Hq. rewrite bind_Ok.
    unfold wait_for_operation in *.
    destruct (wait_loop_quiet w (patience w) 0 op) as (_ & _ & Hwq).
    destruct (wait_loop w (patience w) 0 op) as [tr' r]. cbn [fst snd] in *.
    subst r. exists (tr ++ tr'). split; [reflexivity|].
    rewrite down_calls_app, Hq, Hwq. reflexivity.
Qed.

Lemma main_workers w a j :
  workers (main w a j) = map (add_instances w) (dispatched (main w a j)).
Proof.
  unfold main. destruct (main_plan w a j) as [tr [[[nbp pgs]|]|e|]];
    try reflexivity.
  destruct (chain_from_iterable _) as [cs ge]. reflexivity.
Qed.

(** Claim C5.  If the submission or the wait for a chunk raises, the
    worker enters [down_nodes] exactly once, with the node list of the
    chunk and the fixed reason, and ends as [down_nodes] ends: normally
    when [scontrol] answers, the error itself going no further.  In
    every invocation the i-th worker is [add_instances] on the i-th
    chunk alone, a dispatched chunk never makes [main] raise, and what a
    worker does with its chunk does not change when the provider's
    answers to the requests of other node lists change. *)
Theorem failed_chunk_is_reconciled (w : World) (c : NodeChunk)
    (n0 : NodeName) (rest : list NodeName) (d : InstanceDefinition)
    (e : exn) :
  nodes c = n0 :: rest ->
  is_ok (build_compute w) = true ->
  instance_defs (cfg w) !! get_pid w n0 = Some d ->
  (snd (create_instance w d (nodes c) (pg c)) = Raise e
   \/ exists tr op, create_instance w d (nodes c) (pg c) = (tr, Ok op)
                    /\ snd (wait_for_operation w op) = Raise e) ->
  down_calls (fst (add_instances w c))
  = [(nodes c, "resume.py failed, see resume.log")]
  /\ snd (add_instances w c) = snd (down_nodes w (nodes c) FAIL_REASON)
  /\ (is_ok (show_hostlist w (join_lines (nodes c))) = true ->
      (forall h, is_ok (update_down w h FAIL_REASON) = true) ->
      snd (add_instances w c) = Ok tt)
  /\ (forall a j,
        workers (main w a j) = map (add_instances w) (dispatched (main w a j))
        /\ (In c (dispatched (main w a j)) ->
            forall e', main_result (main w a j) <> Raise e'))
  /\ (forall f c',
        (forall t b, perInstanceProperties b = request_names (nodes c') ->
                     f t b = bulk_insert w t b) ->
        add_instances (with_bulk_insert w f) c' = add_instances w c').
Proof.
  intros Hn Hb Hd Hfail.
  destruct (try_body_raises w d (nodes c) (pg c) e Hfail) as (tr & Hbody & Hq).
  assert (Hrun : add_instances w c
                 = (EvBuildCompute :: tr
                    ++ EvLogError (Some n0) (length (nodes c)) e
                       :: fst (down_nodes w (nodes c) FAIL_REASON),
                    snd (down_nodes w (nodes c) FAIL_REASON))).
  { unfold add_instances, call. cbv zeta.
    destruct (build_compute w) as [u|e'|]; try discriminate.
    rewrite bind_Ok. rewrite Hn in *.
    rewrite (lookup_def_Some _ _ _ Hd), bind_ret_l.
    rewrite Hbody. unfold try_except, emit.
    rewrite bind_Ok.
    destruct (down_nodes w (n0 :: rest) FAIL_REASON) as [tr' r].
    reflexivity. }
  split; [|split; [|split; [|split]]].
  - rewrite Hrun. cbn [fst].
    change (EvBuildCompute :: tr ++ ?x :: ?l)
      with ([EvBuildCompute] ++ tr ++ [x] ++ l).
    rewrite !down_calls_app, Hq, down_nodes_calls. reflexivity.
  - rewrite Hrun. reflexivity.
  - intros Hh Hu. rewrite Hrun. cbn [snd]. apply down_nodes_run; assumption.
  - intros a j. split; [apply main_workers|].
    intros Hin e' Hres.
    destruct (main_plan w a j) as [tr' [[[nbp pgs]|]|e''|]] eqn:Hplan.
    + destruct (main_fanout _ _ _ _ _ _ Hplan) as [_ Hmain].
      rewrite Hmain in Hres. cbn [main_result] in Hres.
      destruct (existsb _ _); discriminate.
    + unfold main in Hin. rewrite Hplan in Hin. destruct Hin.
    + unfold main in Hin. rewrite Hplan in Hin. destruct Hin.
    + unfold main in Hin. rewrite Hplan in Hin. destruct Hin.
  - intros f c'. apply add_instances_with_bulk.
Qed.

Lemma failed_chunk_is_reconciled_witness :
  let w := sample_world (<["g1-c-0" := sample_def false false None false]> ∅)
                        ["g1-c-0-0"; "g1-c-0-1"] (fun _ => false) in
  let c := {| nodes := ["g1-c-0-0"; "g1-c-0-1"]; pg := None |} in
  down_calls (fst (add_instances w c))
  = [(["g1-c-0-0"; "g1-c-0-1"], "resume.py failed, see resume.log")].
Proof.
  cbv zeta.
  refine (proj1 (failed_chunk_is_reconciled
                   (sample_world
                      (<["g1-c-0" := sample_def false false None false]> ∅)
                      ["g1-c-0-0"; "g1-c-0-1"] (fun _ => false))
                   {| nodes := ["g1-c-0-0"; "g1-c-0-1"]; pg := None |}
                   "g1-c-0-0" ["g1-c-0-1"]
                   (sample_def false false None false)
                   (ExternalError "quota") _ _ _ _)).
  - reflexivity.
  - reflexivity.
  - vm_compute. reflexivity.
  - left. vm_compute. reflexivity.
Defined.

(** ** Further properties of the script *)

(** *** Waiting for an operation *)

Lemma wait_loop_step w fuel k op :
  wait_loop w (S fuel) k op
  = bind (call (EvOperationGet (op_scope op) (op_name op))
               (operation_get w (op_scope op) (op_name op) k))
         (fun result =>
            if String.eqb (status result) "DONE" then ret result
            else bind (emit (EvSleep 1))
                      (fun _ => wait_loop w fuel (S k) op)).
Proof. reflexivity. Qed.

Lemma wait_loop_decisive w op : forall k fuel i0,
  k < fuel ->
  (forall i, i < k ->
     decisive (operation_get w (op_scope op) (op_name op) (i0 + i)) = false) ->
  decisive (operation_get w (op_scope op) (op_name op) (i0 + k)) = true ->
  wait_loop w fuel i0 op
  = (poll_trace (op_scope op) (op_name op) k,
     operation_get w (op_scope op) (op_name op) (i0 + k)).
Proof.
  induction k as [|k IH]; intros fuel i0 Hlt Hnd Hd;
    (destruct fuel as [|fuel]; [lia|]); rewrite wait_loop_step; unfold call.
  - rewrite Nat.add_0_r in *.
    destruct (operation_get w (op_scope op) (op_name op) i0) as [r|e|];
      try reflexivity.
    cbn [decisive] in Hd. rewrite bind_Ok, Hd. reflexivity.
  - specialize (Hnd 0 ltac:(lia)) as H0. rewrite Nat.add_0_r in H0.
    destruct (operation_get w (op_scope op) (op_name op) i0) as [r|e|];
      try discriminate.
    cbn [decisive] in H0. rewrite bind_Ok, H0. unfold emit.
    rewrite bind_Ok.
    rewrite (IH fuel (S i0)).
    + replace (S i0 + k) with (i0 + S k) by lia. reflexivity.
    + lia.
    + intros i Hi. replace (S i0 + i) with (i0 + S i) by lia.
      apply Hnd. lia.
    + replace (S i0 + k) with (i0 + S k) by lia. exact Hd.
Qed.

(** Property X1.  [wait_for_operation] polls the status endpoint of the
    operation, sleeping one second after every poll that is not done,
    until the first poll that answers ["DONE"] or fails; it ends as that
    poll ends (its payload is returned, its error is raised), after
    exactly one poll more than sleeps. *)
Theorem wait_ends_at_first_decisive_poll (w : World) (op : Operation)
    (k : nat) :
  k < patience w ->
  (forall i, i < k ->
     decisive (operation_get w (op_scope op) (op_name op) i) = false) ->
  decisive (operation_get w (op_scope op) (op_name op) k) = true ->
  wait_for_operation w op
  = (poll_trace (op_scope op) (op_name op) k,
     operation_get w (op_scope op) (op_name op) k).
Proof.
  intros Hk Hnd Hd. unfold wait_for_operation.
  apply (wait_loop_decisive w op k (patience w) 0 Hk); assumption.
Qed.

Lemma wait_ends_at_first_decisive_poll_witness :
  let w := sample_world ∅ [] (fun _ => true) in
  let op := {| op_zone := Some "projects/proj/zones/us-central1-a";
               op_region := None; op_name := "op-1" |} in
  wait_for_operation w op
  = ([EvOperationGet (ZoneScope "us-central1-a") "op-1"; EvSleep 1;
      EvOperationGet (ZoneScope "us-central1-a") "op-1"],
     Ok {| status := "DONE" |}).
Proof.
  cbv zeta.
  refine (eq_trans
            (wait_ends_at_first_decisive_poll
               (sample_world ∅ [] (fun _ => true))
               {| op_zone := Some "projects/proj/zones/us-central1-a";
                  op_region := None; op_name := "op-1" |} 1 _ _ _) _).
  - vm_compute. lia.
  - intros i Hi. destruct i as [|i]; [reflexivity|lia].
  - reflexivity.
  - vm_compute. reflexivity.
Defined.

Lemma wait_loop_never_done w op : forall fuel i0,
  (forall i, decisive (operation_get w (op_scope op) (op_name op) i) = false) ->
  snd (wait_loop w fuel i0 op) = Timeout
  /\ length (operation_gets (fst (wait_loop w fuel i0 op))) = fuel.
Proof.
  induction fuel as [|fuel IH]; intros i0 Hnd; [split; reflexivity|].
  rewrite wait_loop_step. unfold call. specialize (Hnd i0) as H0.
  destruct (operation_get w (op_scope op) (op_name op) i0) as [r|e|];
    try discriminate.
  cbn [decisive] in H0. rewrite bind_Ok, H0. unfold emit. rewrite bind_Ok.
  destruct (IH (S i0) Hnd) as [Hs Hl]. cbn [fst snd]. split; [exact Hs|].
  cbn. f_equal. exact Hl.
Qed.

(** Property X2.  There is no timeout: if the provider never reports
    ["DONE"] and never fails, the wait is still polling when the
    observation ends, however long that is, having made one poll per
    observed round. *)
Theorem wait_without_done_never_returns (w : World) (op : Operation) :
  (forall i, decisive (operation_get w (op_scope op) (op_name op) i) = false) ->
  snd (wait_for_operation w op) = Timeout
  /\ length (operation_gets (fst (wait_for_operation w op))) = patience w.
Proof. intros H. apply wait_loop_never_done, H. Qed.

Lemma wait_without_done_never_returns_witness :
  let w := with_operation_get (sample_world ∅ [] (fun _ => true))
             (fun _ _ _ => Ok {| status := "RUNNING" |}) in
  let op := {| op_zone := None; op_region := None; op_name := "op-1" |} in
  snd (wait_for_operation w op) = Timeout.
Proof.
  cbv zeta.
  refine (proj1 (wait_without_done_never_returns
                   (with_operation_get (sample_world ∅ [] (fun _ => true))
                      (fun _ _ _ => Ok {| status := "RUNNING" |}))
                   {| op_zone := None; op_region := None; op_name := "op-1" |}
                   _)).
  intros i. reflexivity.
Defined.

Lemma append_nil_r (s : string) : s +:+ "" = s.
Proof.
  induction s as [|c s IH]; [reflexivity|].
  change (String c s +:+ "") with (String c (s +:+ "")).
  rewrite IH. reflexivity.
Qed.

Lemma append_snoc (a : string) c z :
  (a +:+ String c "") +:+ z = a +:+ String c z.
Proof.
  induction a as [|x a IH]; [reflexivity|].
  change ((String x a +:+ String c "") +:+ z)
    with (String x ((a +:+ String c "") +:+ z)).
  rewrite IH. reflexivity.
Qed.

Lemma split_last_from_free sep z : forall acc,
  free_of sep z = true -> split_last_from sep acc z = acc +:+ z.
Proof.
  unfold free_of. induction z as [|c z IH]; intros acc Hf.
  - simpl. symmetry. apply append_nil_r.
  - simpl in Hf. rewrite Ascii.eqb_sym in Hf.
    cbn [split_last_from].
    destruct (Ascii.eqb c sep); [discriminate|].
    rewrite IH by exact Hf. apply append_snoc.
Qed.

Lemma split_last_after_sep sep pre z : forall acc,
  free_of sep z = true ->
  split_last_from sep acc (pre +:+ String sep z) = z.
Proof.
  induction pre as [|c pre IH]; intros acc Hf.
  - change ("" +:+ String sep z) with (String sep z).
    cbn [split_last_from]. rewrite Ascii.eqb_refl.
    rewrite split_last_from_free by exact Hf. reflexivity.
  - change (String c pre +:+ String sep z)
      with (String c (pre +:+ String sep z)).
    cbn [split_last_from]. destruct (Ascii.eqb c sep); apply IH, Hf.
Qed.

Lemma wait_loop_events w op fuel : forall k,
  Forall (fun ev => ev = EvSleep 1
                    \/ ev = EvOperationGet (op_scope op) (op_name op))
         (fst (wait_loop w fuel k op)).
Proof.
  induction fuel as [|fuel IH]; intros k; [constructor|].
  rewrite wait_loop_step. unfold call.
  destruct (operation_get w (op_scope op) (op_name op) k) as [r|e|];
    try (constructor; [right; reflexivity|constructor]).
  rewrite bind_Ok. destruct (String.eqb (status r) "DONE").
  - constructor; [right; reflexivity|constructor].
  - unfold emit. rewrite bind_Ok. cbn [fst app].
    constructor; [right; reflexivity|].
    constructor; [left; reflexivity|]. apply IH.
Qed.

(** Property X3.  A wait makes no call other than one-second sleeps and
    status polls, all on one endpoint: the zonal one, for the last
    segment of the zone URL, whenever the handle has a zone (even if it
    also has a region); else the regional one, for the last segment of
    the region URL; else the global one. *)
Theorem wait_polls_one_endpoint (w : World) (op : Operation) :
  Forall (fun ev => ev = EvSleep 1
                    \/ ev = EvOperationGet (op_scope op) (op_name op))
         (fst (wait_for_operation w op))
  /\ (forall pre z, op_zone op = Some (pre +:+ "/" +:+ z) ->
                    free_of "/" z = true ->
                    op_scope op = ZoneScope z)
  /\ (forall pre r, op_zone op = None ->
                    op_region op = Some (pre +:+ "/" +:+ r) ->
                    free_of "/" r = true ->
                    op_scope op = RegionScope r)
  /\ (op_zone op = None -> op_region op = None -> op_scope op = GlobalScope).
Proof.
  split; [apply wait_loop_events|]. unfold op_scope.
  split; [|split].
  - intros pre z -> Hf. f_equal. apply split_last_after_sep, Hf.
  - intros pre r -> -> Hf. f_equal. apply split_last_after_sep, Hf.
  - intros -> ->. reflexivity.
Qed.

Lemma wait_polls_one_endpoint_witness :
  op_scope {| op_zone := Some "projects/proj/zones/us-central1-a";
              op_region := Some "projects/proj/regions/us-central1";
              op_name := "op-1" |}
  = ZoneScope "us-central1-a".
Proof.
  refine (proj1 (proj2 (wait_polls_one_endpoint
                          (sample_world ∅ [] (fun _ => true))
                          {| op_zone := Some "projects/proj/zones/us-central1-a";
                             op_region := Some "projects/proj/regions/us-central1";
                             op_name := "op-1" |}))
                "projects/proj/zones" "us-central1-a" _ _).
  - reflexivity.
  - reflexivity.
Defined.

(** *** The request built by [create_instance] *)

Lemma create_instance_cons w d n0 nl pgn :
  create_instance w d (n0 :: nl) pgn
  = bind (mapM (fun kv => bind (call (EvReadText (snd kv))
                                     (read_text w (snd kv)))
                               (fun v => ret (fst kv, v)))
               (meta_files w))
         (fun items =>
            call (EvBulkInsert
                    (if regional_capacity d then Regional (region d)
                     else Zonal (zone d))
                    {| count := length (n0 :: nl);
                       instanceProperties := build_config w d pgn items;
                       perInstanceProperties := request_names (n0 :: nl);
                       locationPolicy :=
                         if regional_capacity d
                            && str_truthy (regional_policy d)
                         then regional_policy d else None |})
                 (bulk_insert w
                    (if regional_capacity d then Regional (region d)
                     else Zonal (zone d))
                    {| count := length (n0 :: nl);
                       instanceProperties := build_config w d pgn items;
                       perInstanceProperties := request_names (n0 :: nl);
                       locationPolicy :=
                         if regional_capacity d
                            && str_truthy (regional_policy d)
                         then regional_policy d else None |})).
Proof.
  unfold create_instance, meta_files, request_names.
  destruct (regional_capacity d); reflexivity.
Qed.

Lemma mapM_cons_Ok {A B} (f : A -> M B) x l tr y :
  f x = (tr, Ok y) ->
  mapM f (x :: l)
  = (tr ++ fst (mapM f l),
     match snd (mapM f l) with
     | Ok ys => Ok (y :: ys)
     | Raise e => Raise e
     | Timeout => Timeout
     end).
Proof.
  intros Hx. cbn [mapM]. rewrite Hx, bind_Ok.
  destruct (mapM f l) as [tr' [ys|e|]]; unfold bind, ret; cbn [fst snd];
    rewrite ?app_nil_r; reflexivity.
Qed.

Lemma read_file_step w (kv : string * string) :
  bind (call (EvReadText (snd kv)) (read_text w (snd kv)))
       (fun v => ret (fst kv, v))
  = ([EvReadText (snd kv)],
     match read_text w (snd kv) with
     | Ok v => Ok (fst kv, v)
     | Raise e => Raise e
     | Timeout => Timeout
     end).
Proof. unfold call, bind, ret. destruct (read_text w (snd kv)); reflexivity. Qed.

Lemma mapM_read_ok w (files : list (string * string)) :
  (forall kv, In kv files -> is_ok (read_text w (snd kv)) = true) ->
  exists items,
    mapM (fun kv => bind (call (EvReadText (snd kv)) (read_text w (snd kv)))
                         (fun v => ret (fst kv, v))) files
    = (map (fun kv => EvReadText (snd kv)) files, Ok items)
    /\ map fst items = map fst files
    /\ Forall2 (fun kv it => read_text w (snd kv) = Ok (snd it)) files items.
Proof.
  induction files as [|kv files IH]; intros Hall.
  - exists []. repeat split; constructor.
  - destruct IH as (items & Hm & Hk & Hf);
      [intros kv' Hin; apply Hall; right; exact Hin|].
    specialize (Hall kv (or_introl eq_refl)).
    destruct (read_text w (snd kv)) as [v|e|] eqn:Hr; try discriminate.
    exists ((fst kv, v) :: items).
    rewrite (mapM_cons_Ok _ kv files [EvReadText (snd kv)] (fst kv, v));
      [|rewrite read_file_step, Hr; reflexivity].
    rewrite Hm. cbn [map fst snd app].
    split; [reflexivity|]. split; [f_equal; exact Hk|].
    constructor; [exact Hr|exact Hf].
Qed.

Lemma mapM_read_fail w (pre post : list (string * string)) kv :
  (forall kv', In kv' pre -> is_ok (read_text w (snd kv')) = true) ->
  is_ok (read_text w (snd kv)) = false ->
  mapM (fun kv => bind (call (EvReadText (snd kv)) (read_text w (snd kv)))
                       (fun v => ret (fst kv, v))) (pre ++ kv :: post)
  = (map (fun kv => EvReadText (snd kv)) (pre ++ [kv]),
     match read_text w (snd kv) with
     | Raise e => Raise e
     | _ => Timeout
     end).
Proof.
  induction pre as [|kv0 pre IH]; intros Hall Hfail.
  - cbn [app mapM map]. rewrite read_file_step.
    destruct (read_text w (snd kv)); try discriminate; reflexivity.
  - specialize (IH (fun kv' H => Hall kv' (or_intror H)) Hfail).
    specialize (Hall kv0 (or_introl eq_refl)).
    destruct (read_text w (snd kv0)) as [v|e|] eqn:Hr; try discriminate.
    cbn [app].
    rewrite (mapM_cons_Ok _ kv0 _ [EvReadText (snd kv0)] (fst kv0, v));
      [|rewrite read_file_step, Hr; reflexivity].
    rewrite IH. cbn [fst snd app map].
    destruct (read_text w (snd kv)); try discriminate; reflexivity.
Qed.

(** Property X4.  When every auxiliary file can be read,
    [create_instance] reads them in the order of [meta_files] and sends
    exactly one bulk insert, whose answer it returns: to the region of
    the definition if its capacity is regional and to its zone
    otherwise, for as many instances as the node list is long, named by
    the node list, with a location policy only for regional capacity
    with a policy set, and with the file contents as metadata under the
    file keys. *)
Theorem create_instance_request (w : World) (d : InstanceDefinition)
    (nl : list NodeName) (pgn : option string) :
  nl <> [] ->
  (forall kv, In kv (meta_files w) -> is_ok (read_text w (snd kv)) = true) ->
  exists items body,
    create_instance w d nl pgn
    = (map (fun kv => EvReadText (snd kv)) (meta_files w)
       ++ [EvBulkInsert (if regional_capacity d then Regional (region d)
                         else Zonal (zone d)) body],
       bulk_insert w (if regional_capacity d then Regional (region d)
                      else Zonal (zone d)) body)
    /\ count body = length nl
    /\ perInstanceProperties body = request_names nl
    /\ locationPolicy body
       = (if regional_capacity d && str_truthy (regional_policy d)
          then regional_policy d else None)
    /\ instanceProperties body = build_config w d pgn items
    /\ map fst items = map fst (meta_files w)
    /\ Forall2 (fun kv it => read_text w (snd kv) = Ok (snd it))
               (meta_files w) items.
Proof.
  intros Hne Hread. destruct nl as [|n0 nl]; [congruence|].
  destruct (mapM_read_ok w (meta_files w) Hread) as (items & Hm & Hk & Hf).
  exists items. eexists. rewrite create_instance_cons, Hm, bind_Ok.
  unfold call. cbn [fst snd]. split; [reflexivity|].
  cbn [count perInstanceProperties locationPolicy instanceProperties].
  repeat split; assumption.
Qed.

Lemma create_instance_request_witness :
  let w := sample_world ∅ [] (fun _ => true) in
  exists items body,
    create_instance w (sample_def false false None false)
                    ["g1-c-0-0"; "g1-c-0-1"] None
    = (map (fun kv => EvReadText (snd kv)) (meta_files w)
       ++ [EvBulkInsert (Zonal "us-central1-a") body],
       bulk_insert w (Zonal "us-central1-a") body)
    /\ count body = 2
    /\ perInstanceProperties body = request_names ["g1-c-0-0"; "g1-c-0-1"]
    /\ locationPolicy body = None
    /\ instanceProperties body
       = build_config w (sample_def false false None false) None items
    /\ map fst items = map fst (meta_files w)
    /\ Forall2 (fun kv it => read_text w (snd kv) = Ok (snd it))
               (meta_files w) items.
Proof.
  cbv zeta.
  refine (create_instance_request
            (sample_world ∅ [] (fun _ => true))
            (sample_def false false None false)
            ["g1-c-0-0"; "g1-c-0-1"] None _ _).
  - discriminate.
  - intros kv Hkv. reflexivity.
Defined.

Lemma apply_placement_fields pgn c :
  resourcePolicies (apply_placement pgn c)
    = match pgn with
      | Some name => Some [name]
      | None => resourcePolicies c
      end
  /\ guestAccelerators (apply_placement pgn c)
    = guestAccelerators c
  /\ labels (apply_placement pgn c)
    = labels c
  /\ minCpuPlatform (apply_placement pgn c)
    = minCpuPlatform c
  /\ metadata (apply_placement pgn c)
    = metadata c
  /\ map accessConfigs (networkInterfaces (apply_placement pgn c))
    = map accessConfigs (networkInterfaces c).
Proof.
  destruct pgn; repeat split; reflexivity.
Qed.

Lemma apply_gpu_fields d c :
  resourcePolicies (apply_gpu d c)
    = resourcePolicies c
  /\ guestAccelerators (apply_gpu d c)
    = match gpu_type d with
      | Some gt =>
          if String.eqb gt "" then guestAccelerators c
          else Some [ {| acceleratorCount := gpu_count d;
                         acceleratorType := gt |} ]
      | None => guestAccelerators c
      end
  /\ labels (apply_gpu d c)
    = labels c
  /\ minCpuPlatform (apply_gpu d c)
    = minCpuPlatform c
  /\ metadata (apply_gpu d c)
    = metadata c
  /\ map accessConfigs (networkInterfaces (apply_gpu d c))
    = map accessConfigs (networkInterfaces c).
Proof.
  unfold apply_gpu. destruct (gpu_type d) as [gt|]; [|repeat split; reflexivity].
  destruct (String.eqb gt ""); repeat split; reflexivity.
Qed.

Lemma apply_preemptible_fields d c :
  resourcePolicies (apply_preemptible d c)
    = resourcePolicies c
  /\ guestAccelerators (apply_preemptible d c)
    = guestAccelerators c
  /\ labels (apply_preemptible d c)
    = labels c
  /\ minCpuPlatform (apply_preemptible d c)
    = minCpuPlatform c
  /\ metadata (apply_preemptible d c)
    = metadata c
  /\ map accessConfigs (networkInterfaces (apply_preemptible d c))
    = map accessConfigs (networkInterfaces c).
Proof.
  unfold apply_preemptible.
  destruct (preemptible_bursting d); repeat split; reflexivity.
Qed.

Lemma apply_labels_fields d c :
  resourcePolicies (apply_labels d c)
    = resourcePolicies c
  /\ guestAccelerators (apply_labels d c)
    = guestAccelerators c
  /\ labels (apply_labels d c)
    = match compute_labels d with
      | [] => labels c
      | ls => Some ls
      end
  /\ minCpuPlatform (apply_labels d c)
    = minCpuPlatform c
  /\ metadata (apply_labels d c)
    = metadata c
  /\ map accessConfigs (networkInterfaces (apply_labels d c))
    = map accessConfigs (networkInterfaces c).
Proof.
  unfold apply_labels. destruct (compute_labels d); repeat split; reflexivity.
Qed.

Lemma apply_cpu_platform_fields d c :
  resourcePolicies (apply_cpu_platform d c)
    = resourcePolicies c
  /\ guestAccelerators (apply_cpu_platform d c)
    = guestAccelerators c
  /\ labels (apply_cpu_platform d c)
    = labels c
  /\ minCpuPlatform (apply_cpu_platform d c)
    = (if str_truthy (cpu_platform d) then cpu_platform d
       else minCpuPlatform c)
  /\ metadata (apply_cpu_platform d c)
    = metadata c
  /\ map accessConfigs (networkInterfaces (apply_cpu_platform d c))
    = map accessConfigs (networkInterfaces c).
Proof.
  unfold apply_cpu_platform.
  destruct (str_truthy (cpu_platform d)); repeat split; reflexivity.
Qed.

Lemma apply_external_ips_fields w c :
  resourcePolicies (apply_external_ips w c)
    = resourcePolicies c
  /\ guestAccelerators (apply_external_ips w c)
    = guestAccelerators c
  /\ labels (apply_external_ips w c)
    = labels c
  /\ minCpuPlatform (apply_external_ips w c)
    = minCpuPlatform c
  /\ metadata (apply_external_ips w c)
    = metadata c
  /\ map accessConfigs (networkInterfaces (apply_external_ips w c))
    = (if external_compute_ips (cfg w)
       then match map accessConfigs (networkInterfaces c) with
            | _ :: rest =>
                Some [ {| ac_type := "ONE_TO_ONE_NAT";
                          ac_name := "External NAT" |} ] :: rest
            | [] => []
            end
       else map accessConfigs (networkInterfaces c)).
Proof.
  unfold apply_external_ips.
  destruct (external_compute_ips (cfg w)); [|repeat split; reflexivity].
  destruct (networkInterfaces c) eqn:Hn; repeat split; cbn; rewrite ?Hn; reflexivity.
Qed.

(** Property X5.  The conditionals after the scheduling ones touch other
    fields only: whatever scheduling dictionary wins, a given placement
    group stays attached as the one resource policy, a configured
    accelerator stays attached with its count, and labels, minimum CPU
    platform and the external access configuration are set exactly when
    configured; the metadata are the three fixed entries followed by the
    file entries. *)
Theorem template_attachments (w : World) (d : InstanceDefinition)
    (pgn : option string) (items : list (string * string)) :
  resourcePolicies (build_config w d pgn items)
  = match pgn with
    | Some name => Some [name]
    | None => None
    end
  /\ guestAccelerators (build_config w d pgn items)
     = match gpu_type d with
       | Some gt =>
           if String.eqb gt "" then None
           else Some [ {| acceleratorCount := gpu_count d;
                          acceleratorType := gt |} ]
       | None => None
       end
  /\ labels (build_config w d pgn items)
     = match compute_labels d with
       | [] => None
       | ls => Some ls
       end
  /\ minCpuPlatform (build_config w d pgn items)
     = (if str_truthy (cpu_platform d) then cpu_platform d else None)
  /\ metadata (build_config w d pgn items)
     = [("enable-oslogin", "TRUE"); ("VmDnsSetting", "GlobalOnly");
        ("terraform", "TRUE")] ++ items
  /\ map accessConfigs (networkInterfaces (build_config w d pgn items))
     = [ if external_compute_ips (cfg w)
         then Some [ {| ac_type := "ONE_TO_ONE_NAT";
                        ac_name := "External NAT" |} ]
         else None ].
Proof.
  unfold build_config. cbv zeta.
  match goal with
  | |- context [apply_external_ips w ?c5] =>
      destruct (apply_external_ips_fields w c5) as (E1 & E2 & E3 & E4 & E5 & E6);
      match c5 with
      | apply_cpu_platform d ?c4 =>
          destruct (apply_cpu_platform_fields d c4)
            as (C1 & C2 & C3 & C4 & C5 & C6);
          match c4 with
          | apply_labels d ?c3 =>
              destruct (apply_labels_fields d c3)
                as (L1 & L2 & L3 & L4 & L5 & L6);
              match c3 with
              | apply_preemptible d ?c2 =>
                  destruct (apply_preemptible_fields d c2)
                    as (P1 & P2 & P3 & P4 & P5 & P6);
                  match c2 with
                  | apply_gpu d ?c1 =>
                      destruct (apply_gpu_fields d c1)
                        as (G1 & G2 & G3 & G4 & G5 & G6);
                      match c1 with
                      | apply_placement pgn ?c0 =>
                          destruct (apply_placement_fields pgn c0)
                            as (A1 & A2 & A3 & A4 & A5 & A6)
                      end
                  end
              end
          end
      end
  end.
  split; [rewrite E1, C1, L1, P1, G1, A1; destruct pgn; reflexivity|].
  split; [rewrite E2, C2, L2, P2, G2, A2; destruct (gpu_type d) as [gt|];
          [destruct (String.eqb gt "")|]; reflexivity|].
  split; [rewrite E3, C3, L3, P3, G3, A3; destruct (compute_labels d);
          reflexivity|].
  split; [rewrite E4, C4, L4, P4, G4, A4;
          destruct (str_truthy (cpu_platform d)); reflexivity|].
  split; [rewrite E5, C5, L5, P5, G5, A5; reflexivity|].
  rewrite E6, C6, L6, P6, G6, A6.
  destruct (external_compute_ips (cfg w)); reflexivity.
Qed.

(** *** What a worker does with its chunk *)

Lemma omap_quiet {C} (sel : event -> option C) (P : event -> Prop) tr :
  Forall P tr -> (forall ev, P ev -> sel ev = None) -> omap sel tr = [].
Proof.
  intros Hall Hsel. induction Hall as [|ev tr Hev Hall IH]; [reflexivity|].
  cbn. rewrite (Hsel ev Hev). exact IH.
Qed.

Lemma reads_quiet {C} (sel : event -> option C) (files : list (string * string)) :
  (forall path, sel (EvReadText path) = None) ->
  omap sel (map (fun kv => EvReadText (snd kv)) files) = [].
Proof.
  intros Hsel. induction files as [|kv files IH]; [reflexivity|].
  cbn. rewrite Hsel. exact IH.
Qed.

(** The shape of a run of [add_instances] once the client is built and
    the definition found: it is decided by how the body of the [try]
    ends. *)
Lemma add_instances_shape w c n0 rest d :
  nodes c = n0 :: rest ->
  is_ok (build_compute w) = true ->
  instance_defs (cfg w) !! get_pid w n0 = Some d ->
  add_instances w c
  = match bind (create_instance w d (nodes c) (pg c))
               (fun operation => bind (wait_for_operation w operation)
                                      (fun _ => ret tt)) with
    | (tr, Ok _) => (EvBuildCompute :: tr, Ok tt)
    | (tr, Raise e) =>
        (EvBuildCompute :: tr
         ++ EvLogError (Some n0) (length (nodes c)) e
            :: fst (down_nodes w (nodes c) FAIL_REASON),
         snd (down_nodes w (nodes c) FAIL_REASON))
    | (tr, Timeout) => (EvBuildCompute :: tr, Timeout)
    end.
Proof.
  intros Hn Hb Hd. unfold add_instances, call. cbv zeta.
  destruct (build_compute w) as [u|e'|]; try discriminate.
  rewrite bind_Ok. rewrite Hn in *.
  rewrite (lookup_def_Some _ _ _ Hd), bind_ret_l.
  destruct (bind (create_instance w d (n0 :: rest) (pg c)) _)
    as [tr [[]|e|]]; try reflexivity.
  unfold try_except, emit. rewrite bind_Ok.
  destruct (down_nodes w (n0 :: rest) FAIL_REASON) as [tr' r]. reflexivity.
Qed.

Lemma down_nodes_no_insert w nl reason :
  bulk_inserts (fst (down_nodes w nl reason)) = [].
Proof.
  unfold down_nodes, emit, call. rewrite bind_Ok.
  destruct (show_hostlist w (join_lines nl)) as [h|e|]; reflexivity.
Qed.

(** Property X6.  If an auxiliary file cannot be read, the files before
    it having been read, the worker sends no request at all and enters
    [down_nodes] once with the node list of the chunk and the fixed
    reason. *)
Theorem unreadable_file_downs_chunk (w : World) (c : NodeChunk)
    (n0 : NodeName) (rest : list NodeName) (d : InstanceDefinition)
    (pre post : list (string * string)) (kv : string * string) (e : exn) :
  nodes c = n0 :: rest ->
  is_ok (build_compute w) = true ->
  instance_defs (cfg w) !! get_pid w n0 = Some d ->
  meta_files w = pre ++ kv :: post ->
  (forall kv', In kv' pre -> is_ok (read_text w (snd kv')) = true) ->
  read_text w (snd kv) = Raise e ->
  fst (create_instance w d (nodes c) (pg c))
  = map (fun kv => EvReadText (snd kv)) (pre ++ [kv])
  /\ bulk_inserts (fst (add_instances w c)) = []
  /\ down_calls (fst (add_instances w c)) = [(nodes c, FAIL_REASON)]
  /\ snd (add_instances w c) = snd (down_nodes w (nodes c) FAIL_REASON).
Proof.
  intros Hn Hb Hd Hfiles Hpre Hkv.
  assert (Hci : create_instance w d (nodes c) (pg c)
                = (map (fun kv => EvReadText (snd kv)) (pre ++ [kv]), Raise e)).
  { rewrite Hn, create_instance_cons, Hfiles.
    rewrite mapM_read_fail; [|exact Hpre|rewrite Hkv; reflexivity].
    rewrite Hkv. reflexivity. }
  rewrite (add_instances_shape w c n0 rest d Hn Hb Hd), Hci.
  cbn [fst snd bind].
  change (EvBuildCompute :: ?tr ++ ?x :: ?l)
    with ([EvBuildCompute] ++ tr ++ [x] ++ l).
  rewrite !bulk_inserts_app, !down_calls_app.
  rewrite down_nodes_no_insert, down_nodes_calls.
  unfold bulk_inserts at 2, down_calls at 2.
  rewrite !reads_quiet by reflexivity.
  repeat split; reflexivity.
Qed.

Lemma unreadable_file_downs_chunk_witness :
  let w := with_read_text
             (sample_world (<["g1-c-0" := sample_def false false None false]> ∅)
                           ["g1-c-0-0"] (fun _ => true))
             (fun path => if String.eqb path "/slurm/scripts/util.py"
                          then Raise (ExternalError "no such file")
                          else Ok "") in
  let c := {| nodes := ["g1-c-0-0"]; pg := None |} in
  bulk_inserts (fst (add_instances w c)) = []
  /\ down_calls (fst (add_instances w c)) = [(["g1-c-0-0"], FAIL_REASON)].
Proof.
  intros w c.
  destruct (unreadable_file_downs_chunk w c "g1-c-0-0" []
              (sample_def false false None false)
              [("config", "/slurm/scripts/config.yaml")]
              [("startup-script", "/slurm/scripts/startup.sh");
               ("setup-script", "/slurm/scripts/setup.py")]
              ("util-script", "/slurm/scripts/util.py")
              (ExternalError "no such file"))
    as (_ & H1 & H2 & _).
  - reflexivity.
  - reflexivity.
  - vm_compute. reflexivity.
  - reflexivity.
  - intros kv' [<-|[]]. reflexivity.
  - reflexivity.
  - split; assumption.
Defined.

(** Property X7.  When the submission and the wait both succeed, the
    worker returns normally having sent exactly one bulk insert; it does
    not enter [down_nodes] and issues no node-state update. *)
Theorem successful_chunk_is_not_downed (w : World) (c : NodeChunk)
    (n0 : NodeName) (rest : list NodeName) (d : InstanceDefinition)
    (tr1 tr2 : list event) (op : Operation) (r : OpResult) :
  nodes c = n0 :: rest ->
  is_ok (build_compute w) = true ->
  instance_defs (cfg w) !! get_pid w n0 = Some d ->
  create_instance w d (nodes c) (pg c) = (tr1, Ok op) ->
  wait_for_operation w op = (tr2, Ok r) ->
  add_instances w c = (EvBuildCompute :: tr1 ++ tr2, Ok tt)
  /\ length (bulk_inserts (fst (add_instances w c))) = 1
  /\ down_calls (fst (add_instances w c)) = []
  /\ update_downs (fst (add_instances w c)) = [].
Proof.
  intros Hn Hb Hd Hc Hw.
  assert (Hrun : add_instances w c = (EvBuildCompute :: tr1 ++ tr2, Ok tt)).
  { rewrite (add_instances_shape w c n0 rest d Hn Hb Hd), Hc, bind_Ok, Hw.
    unfold bind, ret. cbn [fst snd]. rewrite app_nil_r. reflexivity. }
  rewrite Hrun. cbn [fst]. split; [reflexivity|].
  pose proof (wait_loop_events w op (patience w) 0) as Hev.
  fold (wait_for_operation w op) in Hev. rewrite Hw in Hev. cbn [fst] in Hev.
  destruct (create_instance_trace w d (nodes c) (pg c))
    as (tr_read & Hbi & Hdc & [[_ Hfail]|(its & t & body & Htr & _)]).
  { rewrite Hc in Hfail. discriminate. }
  rewrite Hc in Htr. cbn [fst] in Htr. subst tr1.
  change (EvBuildCompute :: (tr_read ++ [EvBulkInsert t body]) ++ tr2)
    with ([EvBuildCompute] ++ (tr_read ++ [EvBulkInsert t body]) ++ tr2).
  assert (Hq2 : bulk_inserts tr2 = [] /\ down_calls tr2 = []
                /\ update_downs tr2 = []).
  { repeat split; eapply omap_quiet; try exact Hev;
      intros ev [->| ->]; reflexivity. }
  destruct Hq2 as (Hb2 & Hd2 & Hu2).
  assert (Hur : update_downs tr_read = []).
  { destruct (nodes c) as [|n nl]; [discriminate|].
    rewrite create_instance_cons in Hc.
    destruct (mapM_read_quiet w (meta_files w)) as [_ _].
    apply bind_Ok_inv in Hc as (trm & items & trc & Hm & Hcall & Heq).
    unfold call in Hcall. injection Hcall as <- _.
    apply app_inj_tail in Heq as [-> _].
    pose proof (mapM_quiet (fun ev => match ev with
                                      | EvUpdateDown h r => Some (h, r)
                                      | _ => None
                                      end)
                  (fun kv => bind (call (EvReadText (snd kv))
                                        (read_text w (snd kv)))
                                  (fun v => ret (fst kv, v)))
                  (meta_files w)) as Hq.
    rewrite Hm in Hq. apply Hq. intros kv. rewrite read_file_step.
    reflexivity. }
  unfold update_downs in *.
  rewrite !bulk_inserts_app, !down_calls_app, !omap_app.
  rewrite Hbi, Hdc, Hb2, Hd2, Hu2, Hur. repeat split; reflexivity.
Qed.

Lemma successful_chunk_is_not_downed_witness :
  let w := sample_world (<["g1-c-0" := sample_def false false None false]> ∅)
                        ["g1-c-0-0"] (fun _ => true) in
  let c := {| nodes := ["g1-c-0-0"]; pg := None |} in
  snd (add_instances w c) = Ok tt
  /\ down_calls (fst (add_instances w c)) = [].
Proof.
  intros w c.
  destruct (successful_chunk_is_not_downed w c "g1-c-0-0" []
              (sample_def false false None false)
              (fst (create_instance w (sample_def false false None false)
                      ["g1-c-0-0"] None))
              (fst (wait_for_operation w
                      {| op_zone := Some "zones/z"; op_region := None;
                         op_name := "op" |}))
              {| op_zone := Some "zones/z"; op_region := None;
                 op_name := "op" |}
              {| status := "DONE" |})
    as (Hrun & _ & Hd & _).
  - reflexivity.
  - reflexivity.
  - vm_compute. reflexivity.
  - vm_compute. reflexivity.
  - vm_compute. reflexivity.
  - rewrite Hrun. split; [reflexivity|].
    rewrite Hrun in Hd. exact Hd.
Defined.

(** Property X8.  An error raised before the [try] is not reconciled:
    if the API client cannot be built, the chunk is empty, or the pid of
    the first node has no definition, the worker fails without sending a
    request and without entering [down_nodes]. *)
Theorem early_worker_errors_are_not_reconciled (w : World) (c : NodeChunk) :
  (is_ok (build_compute w) = false
   \/ nodes c = []
   \/ exists n0 rest, nodes c = n0 :: rest
                      /\ instance_defs (cfg w) !! get_pid w n0 = None) ->
  is_ok (snd (add_instances w c)) = false
  /\ fst (add_instances w c) = [EvBuildCompute]
  /\ bulk_inserts (fst (add_instances w c)) = []
  /\ down_calls (fst (add_instances w c)) = [].
Proof.
  intros H.
  assert (Hrun : is_ok (snd (add_instances w c)) = false
                 /\ fst (add_instances w c) = [EvBuildCompute]).
  { unfold add_instances, call.
    destruct (build_compute w) as [u|e|] eqn:Hb; try (split; reflexivity).
    rewrite bind_Ok.
    destruct H as [H|[H|(n0 & rest & Hn & Hd)]]; [discriminate| |].
    - rewrite H. split; reflexivity.
    - rewrite Hn, (lookup_def_None _ _ Hd). split; reflexivity. }
  destruct Hrun as [Hr Ht]. rewrite Ht.
  repeat split; try reflexivity. exact Hr.
Qed.

Lemma early_worker_errors_are_not_reconciled_witness :
  let w := with_build_compute (sample_world ∅ [] (fun _ => true))
                              (Raise (ExternalError "no credentials")) in
  down_calls (fst (add_instances w {| nodes := ["g1-c-0-0"]; pg := None |}))
  = [].
Proof.
  intros w.
  refine (proj2 (proj2 (proj2 (early_worker_errors_are_not_reconciled w
                                 {| nodes := ["g1-c-0-0"]; pg := None |} _)))).
  left. reflexivity.
Defined.

Lemma mapM_Forall {A B} (P : event -> Prop) (f : A -> M B) l :
  (forall x, Forall P (fst (f x))) -> Forall P (fst (mapM f l)).
Proof.
  intros Hf. induction l as [|x l IH]; [constructor|].
  cbn [mapM]. specialize (Hf x).
  destruct (f x) as [tr [y|e|]]; cbn [fst] in Hf; try exact Hf.
  rewrite bind_Ok. cbn [fst]. apply Forall_app. split; [exact Hf|].
  destruct (mapM f l) as [tr' [ys|e|]]; cbn [fst] in IH;
    unfold bind, ret; cbn [fst]; rewrite ?app_nil_r; exact IH.
Qed.

(** The body of the [try] of [add_instances] only reads files, sends
    bulk inserts, polls and sleeps. *)
Lemma try_body_events w d nl pgn :
  Forall (fun ev => match ev with
                    | EvReadText _ | EvBulkInsert _ _
                    | EvSleep _ | EvOperationGet _ _ => True
                    | _ => False
                    end)
         (fst (bind (create_instance w d nl pgn)
                    (fun operation => bind (wait_for_operation w operation)
                                           (fun _ => ret tt)))).
Proof.
  destruct nl as [|n0 nl]; [constructor|].
  rewrite create_instance_cons.
  pose proof (mapM_Forall
                (fun ev => match ev with
                           | EvReadText _ | EvBulkInsert _ _
                           | EvSleep _ | EvOperationGet _ _ => True
                           | _ => False
                           end)
                (fun kv => bind (call (EvReadText (snd kv))
                                      (read_text w (snd kv)))
                                (fun v => ret (fst kv, v)))
                (meta_files w)) as Hreads.
  destruct (mapM _ (meta_files w)) as [trm [items|e|]]; cbn [fst] in Hreads.
  2,3: apply Hreads; intros kv; rewrite read_file_step;
       repeat constructor.
  rewrite bind_Ok. unfold call. cbn [fst snd].
  set (t := if regional_capacity d then _ else _).
  set (body := {| count := _; instanceProperties := _;
                  perInstanceProperties := _; locationPolicy := _ |}).
  assert (Hr : Forall (fun ev => match ev with
                                 | EvReadText _ | EvBulkInsert _ _
                                 | EvSleep _ | EvOperationGet _ _ => True
                                 | _ => False
                                 end) trm).
  { apply Hreads. intros kv. rewrite read_file_step. repeat constructor. }
  destruct (bulk_insert w t body) as [op|e|].
  - rewrite bind_Ok. cbn [fst].
    apply Forall_app. split; [apply Forall_app; split;
                               [exact Hr|repeat constructor]|].
    pose proof (wait_loop_events w op (patience w) 0) as Hw.
    fold (wait_for_operation w op) in Hw.
    destruct (wait_for_operation w op) as [tr2 [r|e|]];
      cbn [fst] in Hw; unfold bind, ret; cbn [fst];
      rewrite ?app_nil_r;
      (eapply Forall_impl; [exact Hw|]);
      intros ev [->| ->]; exact I.
  - cbn [bind fst]. apply Forall_app. split; [exact Hr|repeat constructor].
  - cbn [bind fst]. apply Forall_app. split; [exact Hr|repeat constructor].
Qed.

(** Property X10.  There is no second line of defence: if the listing
    command of [down_nodes] fails while a failed chunk is being
    reconciled, the worker ends with that error and no node-state update
    is issued for the chunk. *)
Theorem failed_reconciliation_leaves_nodes (w : World) (c : NodeChunk)
    (n0 : NodeName) (rest : list NodeName) (d : InstanceDefinition)
    (e e2 : exn) :
  nodes c = n0 :: rest ->
  is_ok (build_compute w) = true ->
  instance_defs (cfg w) !! get_pid w n0 = Some d ->
  (snd (create_instance w d (nodes c) (pg c)) = Raise e
   \/ exists tr op, create_instance w d (nodes c) (pg c) = (tr, Ok op)
                    /\ snd (wait_for_operation w op) = Raise e) ->
  show_hostlist w (join_lines (nodes c)) = Raise e2 ->
  snd (add_instances w c) = Raise e2
  /\ update_downs (fst (add_instances w c)) = []
  /\ down_calls (fst (add_instances w c)) = [(nodes c, FAIL_REASON)].
Proof.
  intros Hn Hb Hd Hfail Hh.
  destruct (try_body_raises w d (nodes c) (pg c) e Hfail) as (tr & Hbody & Hq).
  pose proof (try_body_events w d (nodes c) (pg c)) as Hev.
  rewrite (add_instances_shape w c n0 rest d Hn Hb Hd), Hbody.
  rewrite Hbody in Hev. cbn [fst] in Hev.
  assert (Hdown : down_nodes w (nodes c) FAIL_REASON
                  = ([EvDownNodes (nodes c) FAIL_REASON;
                      EvShowHostlist (join_lines (nodes c))], Raise e2)).
  { unfold down_nodes, emit, call. rewrite bind_Ok, Hh. reflexivity. }
  rewrite Hdown. cbn [fst snd]. split; [reflexivity|].
  assert (Htr : update_downs tr = []).
  { eapply omap_quiet; [exact Hev|]. intros [] Hp; try reflexivity.
    destruct Hp. }
  change (EvBuildCompute :: tr ++ ?x :: ?l)
    with ([EvBuildCompute] ++ tr ++ [x] ++ l).
  unfold update_downs in *.
  rewrite !omap_app, Htr, !down_calls_app, Hq. split; reflexivity.
Qed.

Lemma failed_reconciliation_leaves_nodes_witness :
  let w := with_scontrol
             (sample_world (<["g1-c-0" := sample_def false false None false]> ∅)
                           ["g1-c-0-0"] (fun _ => false))
             (fun _ => Ok ["g1-c-0-0"])
             (fun _ => Raise (ExternalError "scontrol failed")) in
  let c := {| nodes := ["g1-c-0-0"]; pg := None |} in
  snd (add_instances w c) = Raise (ExternalError "scontrol failed").
Proof.
  intros w c.
  refine (proj1 (failed_reconciliation_leaves_nodes w c "g1-c-0-0" []
                   (sample_def false false None false)
                   (ExternalError "quota")
                   (ExternalError "scontrol failed") _ _ _ _ _)).
  - reflexivity.
  - reflexivity.
  - vm_compute. reflexivity.
  - left. vm_compute. reflexivity.
  - reflexivity.
Defined.

(** *** Failures while planning *)

Lemma pg_loop_rejected w j n rgn pre : forall g post a c names ops,
  groups_from w j n rgn a c = pre ++ g :: post ->
  (forall g', In g' pre -> is_ok (policy_insert w g') = true) ->
  is_ok (policy_insert w g) = false ->
  pg_loop w j n rgn (map (fun k => k * 22) (seq a c)) (names, ops, a)
  = (map EvPolicyInsert (pre ++ [g]),
     match policy_insert w g with
     | Raise e => Raise e
     | _ => Timeout
     end).
Proof.
  induction pre as [|g0 pre IH]; intros g post a c names ops Hg Hpre Hfail;
    (destruct c as [|c];
     [apply (f_equal length) in Hg; unfold groups_from in Hg;
      rewrite length_map, length_seq, length_app in Hg; cbn in Hg; lia|]);
    unfold groups_from in Hg; cbn [seq map] in Hg;
    fold (groups_from w j n rgn (S a) c) in Hg;
    cbn [seq map]; rewrite pg_loop_cons_multiple; unfold call.
  - cbn [app] in Hg. injection Hg as Hg _. rewrite Hg.
    destruct (policy_insert w g); try discriminate; reflexivity.
  - cbn [app] in Hg. injection Hg as Hg0 Hg. rewrite Hg0.
    specialize (Hpre g0 (or_introl eq_refl)) as H0.
    destruct (policy_insert w g0) as [op|e|]; try discriminate.
    rewrite bind_Ok.
    replace (a + 1) with (S a) by lia.
    rewrite (IH g post (S a) c _ _ Hg (fun g' H => Hpre g' (or_intror H)) Hfail).
    reflexivity.
Qed.

(** Property X11.  If the provider refuses a placement group, the groups
    before it have been inserted and stay behind: the allocator stops at
    the refusal, polls no operation, and fails without returning any
    name. *)
Theorem rejected_placement_group_stops_allocator (w : World) (j : JobId)
    (n : nat) (rgn : string) (pre post : list PGConfig) (g : PGConfig) :
  is_ok (build_compute w) = true ->
  planned_groups w j n rgn = pre ++ g :: post ->
  (forall g', In g' pre -> is_ok (policy_insert w g') = true) ->
  is_ok (policy_insert w g) = false ->
  create_placement_groups w j n rgn
  = (EvBuildCompute :: map EvPolicyInsert (pre ++ [g]),
     match policy_insert w g with
     | Raise e => Raise e
     | _ => Timeout
     end)
  /\ operation_gets (fst (create_placement_groups w j n rgn)) = [].
Proof.
  intros Hb Hplanned Hpre Hfail.
  assert (Hrun : create_placement_groups w j n rgn
                 = (EvBuildCompute :: map EvPolicyInsert (pre ++ [g]),
                    match policy_insert w g with
                    | Raise e => Raise e
                    | _ => Timeout
                    end)).
  { unfold create_placement_groups, call.
    destruct (build_compute w) as [u|e|]; try discriminate.
    rewrite bind_Ok, pg_loop_skip, multiples_of_22.
    rewrite (pg_loop_rejected w j n rgn pre g post 0 _ [] [] Hplanned Hpre Hfail).
    destruct (policy_insert w g); try discriminate; reflexivity. }
  split; [exact Hrun|]. rewrite Hrun. cbn [fst].
  unfold operation_gets. cbn [omap list_omap].
  generalize (pre ++ [g]). intros gs.
  induction gs as [|g' gs IH]; [reflexivity|exact IH].
Qed.

Lemma rejected_placement_group_stops_allocator_witness :
  let w := with_policy_insert (sample_world ∅ [] (fun _ => true))
             (fun c => if String.eqb (pg_name c) "g1-7-2"
                       then Raise (ExternalError "quota")
                       else Ok {| op_zone := None; op_region := Some "regions/r";
                                  op_name := pg_name c |}) in
  snd (create_placement_groups w (JobStr "7") 50 "us-central1")
  = Raise (ExternalError "quota")
  /\ map pg_name
       (policy_inserts
          (fst (create_placement_groups w (JobStr "7") 50 "us-central1")))
     = ["g1-7-1"; "g1-7-2"].
Proof.
  intros w.
  destruct (rejected_placement_group_stops_allocator w (JobStr "7") 50
              "us-central1"
              [ {| pg_name := "g1-7-1"; pg_region := "us-central1";
                   collocation := "COLLOCATED"; vmCount := 22 |} ]
              [ {| pg_name := "g1-7-3"; pg_region := "us-central1";
                   collocation := "COLLOCATED"; vmCount := 6 |} ]
              {| pg_name := "g1-7-2"; pg_region := "us-central1";
                 collocation := "COLLOCATED"; vmCount := 22 |})
    as [Hrun _].
  - reflexivity.
  - vm_compute. reflexivity.
  - intros g' [<-|[]]. reflexivity.
  - reflexivity.
  - rewrite Hrun. split; reflexivity.
Defined.

(** Property X12.  A failed placement-group allocation is fatal to the
    invocation and is not reconciled: no chunk is dispatched, no request
    is submitted, [down_nodes] is never entered, and [main] ends as the
    allocator ended, without the settle delay. *)
Theorem failed_allocation_aborts_main (w : World) (a : string) (j : JobId)
    (lines : list NodeName) (n0 : NodeName) (rest : list NodeName)
    (d : InstanceDefinition) :
  job_truthy j = true ->
  show_hostnames w a = Ok lines ->
  sorted (get_pid w) lines = n0 :: rest ->
  instance_defs (cfg w) !! get_pid w n0 = Some d ->
  exclusive d = true ->
  wants_placement d (length lines) = true ->
  is_ok (snd (create_placement_groups w j (length lines) (region d))) = false ->
  main w a j
  = {| main_trace :=
         EvShowHostnames a
         :: fst (create_placement_groups w j (length lines) (region d));
       dispatched := []; workers := [];
       main_result :=
         match snd (create_placement_groups w j (length lines) (region d)) with
         | Raise e => Raise e
         | _ => Timeout
         end |}
  /\ submitted (main w a j) = [].
Proof.
  intros Hj Hh Hs Hd Hex Hwp Hfail.
  assert (Hmain : main w a j
    = {| main_trace :=
           EvShowHostnames a
           :: fst (create_placement_groups w j (length lines) (region d));
         dispatched := []; workers := [];
         main_result :=
           match snd (create_placement_groups w j (length lines) (region d)) with
           | Raise e => Raise e
           | _ => Timeout
           end |}).
  { unfold main. rewrite (main_plan_job w a j lines n0 rest Hj Hh Hs).
    rewrite Hd, Hex, Hwp. cbn [negb].
    destruct (create_placement_groups w j (length lines) (region d))
      as [tr [names|e|]]; try discriminate; reflexivity. }
  split; [exact Hmain|]. rewrite Hmain. reflexivity.
Qed.

Lemma failed_allocation_aborts_main_witness :
  let w := with_policy_insert
             (sample_world (<["g1-c-0" := sample_def true true None false]> ∅)
                           ["g1-c-0-0"; "g1-c-0-1"] (fun _ => true))
             (fun _ => Raise (ExternalError "quota")) in
  dispatched (main w "x" (JobStr "7")) = []
  /\ main_result (main w "x" (JobStr "7")) = Raise (ExternalError "quota").
Proof.
  intros w.
  destruct (failed_allocation_aborts_main w "x" (JobStr "7")
              ["g1-c-0-0"; "g1-c-0-1"] "g1-c-0-0" ["g1-c-0-1"]
              (sample_def true true None false))
    as [Hmain _].
  - reflexivity.
  - reflexivity.
  - vm_compute. reflexivity.
  - vm_compute. reflexivity.
  - reflexivity.
  - reflexivity.
  - vm_compute. reflexivity.
  - rewrite Hmain. split; [reflexivity|]. vm_compute. reflexivity.
Defined.

(** Property X13.  If the node expression cannot be expanded, or expands
    to no node at all, [main] fails at once (with the error of the
    command, or with an index error on the empty list): nothing is
    dispatched and nothing but the expansion has been called. *)
Theorem empty_expansion_is_fatal (w : World) (a : string) (j : JobId) :
  (is_ok (show_hostnames w a) = false \/ show_hostnames w a = Ok []) ->
  main w a j
  = {| main_trace := [EvShowHostnames a];
       dispatched := []; workers := [];
       main_result := match show_hostnames w a with
                      | Ok _ => Raise IndexError
                      | Raise e => Raise e
                      | Timeout => Timeout
                      end |}.
Proof.
  intros H. unfold main, main_plan, call.
  destruct (show_hostnames w a) as [lines|e|]; try reflexivity.
  destruct H as [H|H]; [discriminate|]. injection H as ->. reflexivity.
Qed.

Lemma empty_expansion_is_fatal_witness :
  let w := sample_world ∅ [] (fun _ => true) in
  main_result (main w "" JobInt0) = Raise IndexError.
Proof.
  intros w.
  rewrite (empty_expansion_is_fatal w "" JobInt0 (or_intror eq_refl)).
  reflexivity.
Defined.

(** *** When placement groups are requested *)

Lemma split_first_eq sep s : forall a,
  split_first sep s = a -> s = a \/ exists r, s = a +:+ String sep r.
Proof.
  induction s as [|c s IH]; intros a Ha; cbn [split_first] in Ha.
  - left. exact Ha.
  - destruct (Ascii.eqb_spec c sep) as [->|Hne].
    + subst a. right. exists s. reflexivity.
    + destruct a as [|c' a']; [discriminate|]. injection Ha as -> Ha.
      destruct (IH a' Ha) as [->|[r ->]]; [left; reflexivity|].
      right. exists r. reflexivity.
Qed.

Lemma chunks_without_names lst pgs :
  pg_truthy pgs = false -> Forall (fun c => pg c = None) (fst (chunks lst pgs)).
Proof.
  intros Hpg. unfold chunks.
  eapply Forall_impl; [apply chunks_loop_bounds|].
  intros c [_ [H|H]]; [exact H|congruence].
Qed.

Lemma main_plan_failed w a j tr :
  (exists e, main_plan w a j = (tr, Raise e))
  \/ main_plan w a j = (tr, Timeout)
  \/ main_plan w a j = (tr, Ok None) ->
  main_trace (main w a j) = tr /\ dispatched (main w a j) = [].
Proof.
  intros [[e H]|[H|H]]; unfold main; rewrite H; split; reflexivity.
Qed.

(** Property X14.  Placement groups are requested, and chunks carry a
    placement-group reference, only in a job-scoped call on more than
    one node whose deciding definition is exclusive, enables placement
    and has a machine type that is ["c2"] or starts with ["c2-"]. *)
Theorem placement_only_for_eligible_jobs (w : World) (a : string)
    (j : JobId) :
  (policy_inserts (main_trace (main w a j)) = []
   /\ Forall (fun c => pg c = None) (dispatched (main w a j)))
  \/ (job_truthy j = true
      /\ exists lines p d,
           show_hostnames w a = Ok lines
           /\ first_pid w lines = Some p
           /\ instance_defs (cfg w) !! p = Some d
           /\ exclusive d = true
           /\ enable_placement d = true
           /\ (machine_type d = "c2"
               \/ exists r, machine_type d = "c2-" +:+ r)
           /\ 1 < length lines).
Proof.
  assert (Hquiet : forall tr,
            main_trace (main w a j) = tr /\ dispatched (main w a j) = [] ->
            tr = [EvShowHostnames a] ->
            policy_inserts (main_trace (main w a j)) = []
            /\ Forall (fun c => pg c = None) (dispatched (main w a j))).
  { intros tr [-> ->] ->. split; [reflexivity|constructor]. }
  assert (Hnone : forall nbp,
            main_plan w a j = ([EvShowHostnames a], Ok (Some (nbp, None))) ->
            policy_inserts (main_trace (main w a j)) = []
            /\ Forall (fun c => pg c = None) (dispatched (main w a j))).
  { intros nbp Hplan. destruct (main_fanout _ _ _ _ _ _ Hplan) as [_ ->].
    cbn [main_trace dispatched]. split; [reflexivity|].
    apply Forall_concat. rewrite List.Forall_forall. intros cs Hcs.
    apply in_map_iff in Hcs as [g [<- _]].
    apply chunks_without_names. reflexivity. }
  destruct (show_hostnames w a) as [lines|e|] eqn:Hh.
  2:{ left. apply (Hquiet [EvShowHostnames a]); [|reflexivity].
      apply main_plan_failed. left. exists e.
      unfold main_plan, call. rewrite Hh. reflexivity. }
  2:{ left. apply (Hquiet [EvShowHostnames a]); [|reflexivity].
      apply main_plan_failed. right. left.
      unfold main_plan, call. rewrite Hh. reflexivity. }
  destruct (sorted (get_pid w) lines) as [|n0 rest] eqn:Hs.
  { left. apply (Hquiet [EvShowHostnames a]); [|reflexivity].
    apply main_plan_failed. left. exists IndexError.
    unfold main_plan, call. rewrite Hh, bind_Ok, Hs. reflexivity. }
  assert (Hne : lines <> []) by (intros ->; discriminate).
  destruct (job_truthy j) eqn:Hj.
  - pose proof (main_plan_job w a j lines n0 rest Hj Hh Hs) as Hplan.
    destruct (instance_defs (cfg w) !! get_pid w n0) as [d|] eqn:Hd.
    2:{ left. apply (Hquiet [EvShowHostnames a]); [|reflexivity].
        apply main_plan_failed. left. eauto. }
    destruct (exclusive d) eqn:Hex; cbn [negb] in Hplan.
    2:{ left. apply (Hquiet [EvShowHostnames a]); [|reflexivity].
        apply main_plan_failed. right. right. exact Hplan. }
    destruct (wants_placement d (length lines)) eqn:Hwp.
    2:{ left. eapply Hnone, Hplan. }
    right. split; [reflexivity|]. exists lines, (get_pid w n0), d.
    unfold wants_placement in Hwp.
    apply andb_true_iff in Hwp as [Hwp Hcnt].
    apply andb_true_iff in Hwp as [Hen Hc2].
    apply Nat.ltb_lt in Hcnt. apply String.eqb_eq in Hc2.
    split; [reflexivity|]. split; [apply (first_pid_cons _ _ _ _ Hs)|].
    split; [exact Hd|]. split; [exact Hex|]. split; [exact Hen|].
    split; [|exact Hcnt].
    destruct (split_first_eq "-" (machine_type d) "c2" Hc2) as [H|[r H]];
      [left; exact H|right; exists r; exact H].
  - left.
    destruct (main_plan_no_job w a j lines Hj Hh Hne)
      as [[_ Hplan]|(p & _ & _ & Hplan)].
    + unfold keep_pid in Hplan. eapply Hnone, Hplan.
    + apply (Hquiet [EvShowHostnames a]); [|reflexivity].
      apply main_plan_failed. left. eauto.
Qed.

(** *** The calls of the main thread *)

Lemma pg_loop_events w j n rgn starts : forall st,
  Forall (fun ev => exists g, ev = EvPolicyInsert g)
         (fst (pg_loop w j n rgn starts st)).
Proof.
  induction starts as [|i starts IH]; intros st; [constructor|].
  cbn [pg_loop]. destruct (negb (i mod PLACEMENT_MAX_CNT =? 0)); [apply IH|].
  destruct st as [[names ops] idx]. unfold call.
  destruct (policy_insert w _) as [op|e|];
    try (constructor; [eauto|constructor]).
  rewrite bind_Ok. cbn [fst app]. constructor; [eauto|apply IH].
Qed.

Lemma create_placement_groups_events w j n rgn :
  Forall (fun ev => match ev with
                    | EvBuildCompute | EvPolicyInsert _
                    | EvOperationGet _ _ | EvSleep _ => True
                    | _ => False
                    end)
         (fst (create_placement_groups w j n rgn)).
Proof.
  unfold create_placement_groups, call.
  destruct (build_compute w) as [u|e|]; try (repeat constructor).
  rewrite bind_Ok. cbn [fst app]. constructor; [exact I|].
  pose proof (pg_loop_events w j n rgn (seq 0 n) ([], [], 0)) as Hl.
  destruct (pg_loop w j n rgn (seq 0 n) ([], [], 0)) as [trl [st|e|]];
    cbn [fst] in Hl.
  2,3: cbn [bind fst]; eapply Forall_impl; [exact Hl|];
       intros ev [g ->]; exact I.
  rewrite bind_Ok. cbn [fst]. apply Forall_app. split.
  { eapply Forall_impl; [exact Hl|]. intros ev [g ->]. exact I. }
  pose proof (mapM_Forall
                (fun ev => match ev with
                           | EvBuildCompute | EvPolicyInsert _
                           | EvOperationGet _ _ | EvSleep _ => True
                           | _ => False
                           end)
                (wait_for_operation w) (snd (fst st))) as Hw.
  destruct (mapM (wait_for_operation w) (snd (fst st))) as [trw [rs|e|]];
    cbn [fst] in Hw; unfold bind, ret; cbn [fst]; rewrite ?app_nil_r;
    apply Hw; intros op;
    (eapply Forall_impl; [apply (wait_loop_events w op (patience w) 0)|]);
    intros ev [->| ->]; exact I.
Qed.

Lemma main_trace_plan w a j : main_trace (main w a j) = fst (main_plan w a j).
Proof.
  unfold main. destruct (main_plan w a j) as [tr [[[nbp pgs]|]|e|]];
    try reflexivity.
  destruct (chain_from_iterable _) as [cs ge]. reflexivity.
Qed.

(** Property X15.  The main thread itself only expands the node
    expression, builds the API client, inserts placement groups, polls
    their operations and sleeps: it never sends a bulk insert, never
    enters [down_nodes] and never updates a node state, whatever the
    input and whatever fails. *)
Theorem main_thread_calls (w : World) (a : string) (j : JobId) :
  Forall (fun ev => match ev with
                    | EvShowHostnames _ | EvBuildCompute | EvPolicyInsert _
                    | EvOperationGet _ _ | EvSleep _ => True
                    | _ => False
                    end)
         (main_trace (main w a j))
  /\ bulk_inserts (main_trace (main w a j)) = []
  /\ down_calls (main_trace (main w a j)) = []
  /\ update_downs (main_trace (main w a j)) = [].
Proof.
  assert (Hev : Forall (fun ev => match ev with
                                  | EvShowHostnames _ | EvBuildCompute
                                  | EvPolicyInsert _
                                  | EvOperationGet _ _ | EvSleep _ => True
                                  | _ => False
                                  end)
                       (main_trace (main w a j))).
  { rewrite main_trace_plan.
    destruct (show_hostnames w a) as [lines|e|] eqn:Hh.
    2,3: unfold main_plan, call; rewrite Hh; repeat constructor.
    destruct (sorted (get_pid w) lines) as [|n0 rest] eqn:Hs.
    { unfold main_plan, call. rewrite Hh, bind_Ok, Hs. repeat constructor. }
    assert (Hne : lines <> []) by (intros ->; discriminate).
    destruct (job_truthy j) eqn:Hj.
    - rewrite (main_plan_job w a j lines n0 rest Hj Hh Hs).
      destruct (instance_defs (cfg w) !! get_pid w n0) as [d|];
        [|repeat constructor].
      destruct (negb (exclusive d)); [repeat constructor|].
      destruct (wants_placement d (length lines)); [|repeat constructor].
      pose proof (create_placement_groups_events w j (length lines) (region d))
        as Hc.
      destruct (create_placement_groups w j (length lines) (region d))
        as [tr [names|e|]]; cbn [fst] in *; constructor; try exact I.
      + apply Forall_app. split; [|repeat constructor].
        eapply Forall_impl; [exact Hc|]. intros []; tauto.
      + eapply Forall_impl; [exact Hc|]. intros []; tauto.
      + eapply Forall_impl; [exact Hc|]. intros []; tauto.
    - destruct (main_plan_no_job w a j lines Hj Hh Hne)
        as [[_ ->]|(p & _ & _ & ->)]; repeat constructor. }
  split; [exact Hev|].
  repeat split; (eapply omap_quiet; [exact Hev|]);
    intros [] Hp; try reflexivity; destruct Hp.
Qed.

(** *** More on the chunk generator *)

Lemma chunks_loop_nodes lst pgs n starts : forall j i c,
  fst (chunks_loop lst pgs n starts j) !! i = Some c ->
  exists s, starts !! i = Some s /\ nodes c = take n (drop s lst).
Proof.
  induction starts as [|s0 starts IH]; intros j i c Hc; [discriminate|].
  cbn [chunks_loop] in Hc.
  destruct (pg_truthy pgs).
  - destruct (default [] pgs !! j) as [name|]; [|discriminate].
    specialize (IH (j + 1)).
    destruct (chunks_loop lst pgs n starts (j + 1)) as [ys e].
    cbn [fst] in *. destruct i as [|i].
    + injection Hc as <-. exists s0. split; [reflexivity|].
      apply slice_take_drop.
    + apply (IH i c Hc).
  - specialize (IH j).
    destruct (chunks_loop lst pgs n starts j) as [ys e].
    cbn [fst] in *. destruct i as [|i].
    + injection Hc as <-. exists s0. split; [reflexivity|].
      apply slice_take_drop.
    + apply (IH i c Hc).
Qed.

Lemma chunks_loop_length lst pgs n starts : forall j,
  length (fst (chunks_loop lst pgs n starts j)) <= length starts.
Proof.
  induction starts as [|s0 starts IH]; intros j; [reflexivity|].
  cbn [chunks_loop]. destruct (pg_truthy pgs).
  - destruct (default [] pgs !! j); [|cbn; lia].
    specialize (IH (j + 1)).
    destruct (chunks_loop lst pgs n starts (j + 1)) as [ys e].
    cbn [fst length] in *. lia.
  - specialize (IH j).
    destruct (chunks_loop lst pgs n starts j) as [ys e].
    cbn [fst length] in *. lia.
Qed.

(** Property X16.  The i-th chunk yielded for a list holds the slice
    that starts at [i * n], where [n] is 22 with placement groups and
    1000 without; every yielded chunk that is not the last one is full.
    This holds whatever the name list, also when the generator ends in
    an exception. *)
Theorem chunks_are_full_slices (lst : list NodeName)
    (pgs : option (list string)) (i : nat) (c : NodeChunk) :
  fst (chunks lst pgs) !! i = Some c ->
  nodes c = take (if pg_truthy pgs then 22 else 1000)
                 (drop (i * (if pg_truthy pgs then 22 else 1000)) lst)
  /\ (S i < length (fst (chunks lst pgs)) ->
      length (nodes c) = (if pg_truthy pgs then 22 else 1000)).
Proof.
  intros Hc. unfold chunks in *. unfold PLACEMENT_MAX_CNT in *.
  set (n := if pg_truthy pgs then 22 else 1000) in *.
  assert (Hn : 0 < n) by (unfold n; destruct (pg_truthy pgs); lia).
  destruct (chunks_loop_nodes _ _ _ _ _ _ _ Hc) as (s & Hs & Hnodes).
  pose proof (chunks_loop_length lst pgs n (py_range 0 (length lst) n) 0)
    as Hlen.
  rewrite py_range_length in Hlen.
  assert (Hi : i < (length lst + n - 1) / n).
  { apply lookup_lt_Some in Hc. lia. }
  unfold py_range in Hs.
  replace (length lst - 0 + n - 1) with (length lst + n - 1) in Hs by lia.
  rewrite (lookup_map_seq _ _ 0 i Hi) in Hs. injection Hs as <-.
  cbn [Nat.add] in Hnodes. split; [exact Hnodes|].
  intros Hlast. rewrite Hnodes, length_take, length_drop.
  destruct (py_range_count (length lst) n Hn) as [_ Hk].
  specialize (Hk (S i)).
  replace (length lst - 0 + n - 1) with (length lst + n - 1) in Hk by lia.
  specialize (Hk ltac:(lia)). cbn [Nat.mul] in Hk. lia.
Qed.

Lemma chunks_are_full_slices_witness :
  nodes {| nodes := sample_nodes "g1-c-0" 22; pg := Some "g1-7-1" |}
  = take 22 (drop (0 * 22) (sample_nodes "g1-c-0" 23)).
Proof.
  refine (proj1 (chunks_are_full_slices
                   (sample_nodes "g1-c-0" 23) (Some ["g1-7-1"; "g1-7-2"]) 0
                   {| nodes := sample_nodes "g1-c-0" 22; pg := Some "g1-7-1" |}
                   _)).
  vm_compute. reflexivity.
Defined.

Lemma chunks_loop_short lst pgs n starts : forall j,
  pg_truthy pgs = true ->
  j <= length (default [] pgs) ->
  length (default [] pgs) < j + length starts ->
  chunks_loop lst pgs n starts j
  = (zip_with (fun i name => {| nodes := take n (drop i lst);
                                pg := Some name |})
              (take (length (default [] pgs) - j) starts)
              (drop j (default [] pgs)),
     Some IndexError).
Proof.
  induction starts as [|s0 starts IH]; intros j Hpg Hj Hlen;
    [cbn in Hlen; lia|].
  cbn [chunks_loop length] in *. rewrite Hpg.
  destruct (default [] pgs !! j) as [name|] eqn:Hlk.
  - pose proof (lookup_lt_Some _ _ _ Hlk) as Hlt.
    rewrite IH by (auto; lia).
    rewrite (drop_S _ _ _ Hlk), slice_take_drop.
    replace (length (default [] pgs) - j)
      with (S (length (default [] pgs) - (j + 1))) by lia.
    replace (S j) with (j + 1) by lia. reflexivity.
  - apply lookup_ge_None in Hlk.
    replace (length (default [] pgs) - j) with 0 by lia. reflexivity.
Qed.

(** Property X17.  The generator does not check its name list: given
    fewer names than the list has chunks of 22, it yields one chunk per
    name, each with its name, and then raises an index error. *)
Theorem chunks_run_out_of_names (lst : list NodeName)
    (names : list string) :
  names <> [] ->
  length names < (length lst + 21) / 22 ->
  snd (chunks lst (Some names)) = Some IndexError
  /\ map pg (fst (chunks lst (Some names))) = map Some names
  /\ map nodes (fst (chunks lst (Some names)))
     = map (fun i => take 22 (drop i lst))
           (take (length names) (py_range 0 (length lst) 22)).
Proof.
  intros Hne Hshort.
  assert (Hpg : pg_truthy (Some names) = true)
    by (destruct names; [congruence|reflexivity]).
  unfold chunks. rewrite Hpg. unfold PLACEMENT_MAX_CNT.
  rewrite chunks_loop_short;
    [|exact Hpg|lia
     |rewrite py_range_length; cbn [default from_option id];
      replace (length lst + 22 - 1) with (length lst + 21) by lia; lia].
  cbn [fst snd default from_option id].
  rewrite Nat.sub_0_r, drop_0. split; [reflexivity|].
  assert (Hl : length (take (length names) (py_range 0 (length lst) 22))
               <= length names) by (rewrite length_take; lia).
  destruct (zip_with_chunks_nodes lst 22 _ names Hl) as [Hn Hp].
  rewrite Hn, Hp. split; [|reflexivity].
  f_equal. apply take_ge. rewrite length_take, py_range_length.
  replace (length lst + 22 - 1) with (length lst + 21) by lia. lia.
Qed.

Lemma chunks_run_out_of_names_witness :
  snd (chunks (sample_nodes "g1-c-0" 23) (Some ["g1-7-1"])) = Some IndexError.
Proof.
  refine (proj1 (chunks_run_out_of_names (sample_nodes "g1-c-0" 23)
                   ["g1-7-1"] _ _)).
  - discriminate.
  - vm_compute. lia.
Defined.

(** *** The names of a request *)

Lemma dict_keys_set {V} k (v : V) d :
  dict_keys (dict_set k v d)
  = if existsb (fun k' => String.eqb k' k) (dict_keys d)
    then dict_keys d else dict_keys d ++ [k].
Proof.
  unfold dict_keys.
  induction d as [|[k' v'] d IH]; [reflexivity|].
  cbn [dict_set map fst existsb].
  destruct (String.eqb k' k); [reflexivity|].
  cbn [map fst orb]. rewrite IH.
  destruct (existsb _ _); reflexivity.
Qed.

Lemma fold_dict_set_keys {V} (items : list (string * V)) : forall d,
  NoDup (dict_keys d) ->
  NoDup (dict_keys (fold_left (fun d kv => dict_set (fst kv) (snd kv) d)
                              items d))
  /\ forall x,
       In x (dict_keys (fold_left (fun d kv => dict_set (fst kv) (snd kv) d)
                                  items d))
       <-> In x (dict_keys d) \/ In x (map fst items).
Proof.
  induction items as [|[k v] items IH]; intros d Hnd.
  - split; [exact Hnd|]. intros x. cbn. tauto.
  - cbn [fold_left fst snd].
    assert (Hstep : NoDup (dict_keys (dict_set k v d))
                    /\ forall x, In x (dict_keys (dict_set k v d))
                                 <-> In x (dict_keys d) \/ x = k).
    { rewrite dict_keys_set.
      destruct (existsb _ _) eqn:He.
      - split; [exact Hnd|]. intros x. split; [tauto|].
        intros [H| ->]; [exact H|].
        apply existsb_exists in He as [k' [Hin Hk]].
        apply String.eqb_eq in Hk. subst k'. exact Hin.
      - split.
        + apply NoDup_app. split; [exact Hnd|]. split; [|apply NoDup_singleton].
          intros x Hx Hx'. apply list_elem_of_In in Hx, Hx'.
          destruct Hx' as [<-|[]].
          assert (existsb (fun k' => String.eqb k' k) (dict_keys d) = true);
            [|congruence].
          apply existsb_exists. exists k. split; [exact Hx|].
          apply String.eqb_refl.
        + intros x. rewrite in_app_iff. cbn. intuition congruence. }
    destruct Hstep as [Hnd' Hin'].
    destruct (IH _ Hnd') as [IHnd IHin]. split; [exact IHnd|].
    intros x. rewrite IHin, Hin'. cbn [map fst In]. intuition congruence.
Qed.

Lemma filter_filter_andb {A} (f g : A -> bool) l :
  List.filter f (List.filter g l) = List.filter (fun x => g x && f x) l.
Proof.
  induction l as [|x l IH]; [reflexivity|]. cbn [List.filter].
  destruct (g x); cbn [List.filter andb]; [|exact IH].
  destruct (f x); rewrite IH; reflexivity.
Qed.

Lemma fold_dict_set_first {V} (items : list (string * V)) : forall d,
  dict_keys (fold_left (fun d kv => dict_set (fst kv) (snd kv) d) items d)
  = dict_keys d
    ++ List.filter
         (fun y => negb (existsb (fun k' => String.eqb k' y) (dict_keys d)))
         (first_occurrences (map fst items)).
Proof.
  induction items as [|[k v] items IH]; intros d.
  - cbn. rewrite app_nil_r. reflexivity.
  - cbn [fold_left fst snd map first_occurrences List.filter].
    rewrite IH, dict_keys_set.
    destruct (existsb (fun k' => String.eqb k' k) (dict_keys d)) eqn:He;
      cbn [negb].
    + f_equal. rewrite filter_filter_andb. apply filter_ext_in.
      intros y _.
      destruct (String.eqb y k) eqn:Hy; [|reflexivity].
      apply String.eqb_eq in Hy. subst y. rewrite He. reflexivity.
    + rewrite <- app_assoc. cbn [app]. do 2 f_equal.
      rewrite filter_filter_andb. apply filter_ext_in.
      intros y _. rewrite existsb_app. cbn [existsb].
      rewrite orb_false_r, negb_orb, String.eqb_sym. apply andb_comm.
Qed.

Lemma request_names_first_occurrences nl :
  request_names nl = first_occurrences nl.
Proof.
  unfold request_names, dict_of_items.
  rewrite fold_dict_set_first, map_map. cbn [fst dict_keys map app existsb negb].
  rewrite map_id. clear. induction (first_occurrences nl) as [|x l IH];
    [reflexivity|]. cbn [List.filter]. f_equal. exact IH.
Qed.

(** Property X18.  A request counts every entry of the node list but
    names each node once: its per-instance names are the node list
    without repetitions, in order of first occurrence (every name stands
    where the node list has it first, and its later occurrences are
    dropped), and are the node list itself when no name is repeated. *)
Theorem request_names_are_distinct (w : World) (d : InstanceDefinition)
    (nl : list NodeName) (pgn : option string) :
  Forall (fun tb => count (snd tb) = length nl
                    /\ perInstanceProperties (snd tb) = request_names nl)
         (bulk_inserts (fst (create_instance w d nl pgn)))
  /\ NoDup (request_names nl)
  /\ (forall n, In n (request_names nl) <-> In n nl)
  /\ (NoDup nl -> request_names nl = nl)
  /\ request_names nl = first_occurrences nl
  /\ (forall n rest, request_names (n :: rest)
                     = n :: List.filter (fun y => negb (String.eqb y n))
                                        (request_names rest)).
Proof.
  split; [|split; [|split; [|split; [|split]]]].
  - destruct (create_instance_trace w d nl pgn)
      as (tr & Hb & _ & [[-> _]|(its & t & body & -> & _ & _ & Hc & Hp)]).
    + rewrite Hb. constructor.
    + rewrite bulk_inserts_app, Hb. cbn. constructor; [|constructor].
      cbn [snd]. split; [exact Hc|exact Hp].
  - unfold request_names, dict_of_items.
    apply (fold_dict_set_keys (map (fun k => (k, tt)) nl) []). constructor.
  - intros n. unfold request_names, dict_of_items.
    destruct (fold_dict_set_keys (map (fun k => (k, tt)) nl) [])
      as [_ Hin]; [constructor|].
    rewrite Hin, map_map. cbn [fst dict_keys map In]. rewrite map_id. tauto.
  - intros Hnd. unfold request_names.
    rewrite dict_of_items_NoDup.
    + unfold dict_keys. rewrite map_map. apply map_id.
    + unfold dict_keys. rewrite map_map. cbn [fst]. rewrite map_id.
      exact Hnd.
  - apply request_names_first_occurrences.
  - intros n rest. rewrite !request_names_first_occurrences. reflexivity.
Qed.

Lemma request_names_are_distinct_witness :
  request_names ["g1-c-0-0"; "g1-c-0-1"; "g1-c-0-0"; "g1-c-0-2"; "g1-c-0-1"]
  = ["g1-c-0-0"; "g1-c-0-1"; "g1-c-0-2"]
  /\ request_names ["g1-c-0-0"; "g1-c-0-1"] = ["g1-c-0-0"; "g1-c-0-1"].
Proof.
  split.
  - refine (eq_trans
              (proj1 (proj2 (proj2 (proj2 (proj2
                 (request_names_are_distinct
                    (sample_world ∅ [] (fun _ => true))
                    (sample_def false false None false)
                    ["g1-c-0-0"; "g1-c-0-1"; "g1-c-0-0"; "g1-c-0-2";
                     "g1-c-0-1"] None)))))) _).
    reflexivity.
  - refine (proj1 (proj2 (proj2 (proj2 (request_names_are_distinct
                                   (sample_world ∅ [] (fun _ => true))
                                   (sample_def false false None false)
                                   ["g1-c-0-0"; "g1-c-0-1"] None)))) _).
    apply NoDup_cons. split; [|apply NoDup_singleton].
    intros H. apply list_elem_of_In in H. destruct H as [H|[]]. discriminate.
Defined.

(** *** The script entry *)

(** Property X19.  In the scheduler's hook environment the node list and
    job identifier of the environment are appended to the command-line
    tokens before parsing.  Without the job-identifier variable the
    script fails with a key error before parsing.  With no token of its
    own the script passes the environment's node list and job identifier
    on; with one token of its own it passes that token as the node
    expression and the environment's node list as the job identifier;
    outside the hook environment a single token gives the integer 0 as
    job identifier, which [main] takes as no job. *)
Theorem entry_arguments (inv : Invocation) :
  (forall nl, env_nodelist inv = Some nl -> env_job_id inv = None ->
     script_args inv = Raise (KeyError "SLURM_JOB_ID"))
  /\ (forall nl jid dbg,
        env_nodelist inv = Some nl -> env_job_id inv = Some jid ->
        argv_tail inv = [] ->
        parse_args inv [nl; jid] = Ok ([nl; jid], dbg) ->
        script_args inv = Ok (nl, JobStr jid, dbg))
  /\ (forall nl jid n dbg,
        env_nodelist inv = Some nl -> env_job_id inv = Some jid ->
        argv_tail inv = [n] ->
        parse_args inv [n; nl; jid] = Ok ([n; nl; jid], dbg) ->
        script_args inv = Ok (n, JobStr nl, dbg))
  /\ (forall n dbg,
        env_nodelist inv = None ->
        parse_args inv (argv_tail inv) = Ok ([n], dbg) ->
        script_args inv = Ok (n, JobInt0, dbg)
        /\ job_truthy JobInt0 = false).
Proof.
  unfold script_args. split; [|split; [|split]].
  - intros nl -> ->. reflexivity.
  - intros nl jid dbg -> -> -> Hp. cbn [app]. rewrite Hp. reflexivity.
  - intros nl jid n dbg -> -> -> Hp. cbn [app]. rewrite Hp. reflexivity.
  - intros n dbg -> Hp. rewrite Hp. split; reflexivity.
Qed.

Lemma entry_arguments_witness :
  let inv := {| argv_tail := ["g1-c-0-[0-1]"];
                env_nodelist := Some "g1-c-1-[0-3]";
                env_job_id := Some "7";
                parse_args := fun toks => Ok (toks, false) |} in
  script_args inv = Ok ("g1-c-0-[0-1]", JobStr "g1-c-1-[0-3]", false).
Proof.
  intros inv.
  refine (proj1 (proj2 (proj2 (entry_arguments inv)))
            "g1-c-1-[0-3]" "7" "g1-c-0-[0-1]" false _ _ _ _);
    reflexivity.
Defined.

(** *** Order of the allocator's calls *)

Lemma mapM_Ok_inv {A B} (f : A -> M B) l : forall tr ys,
  mapM f l = (tr, Ok ys) ->
  exists trs,
    tr = concat trs
    /\ Forall2 (fun x t => fst (f x) = t /\ is_ok (snd (f x)) = true) l trs
    /\ length ys = length l.
Proof.
  induction l as [|x l IH]; intros tr ys H.
  - injection H as <- <-. exists []. repeat split; constructor.
  - cbn [mapM] in H.
    apply bind_Ok_inv in H as (tr1 & y & tr2 & Hx & H & ->).
    apply bind_Ok_inv in H as (tr3 & ys' & tr4 & Hl & H & ->).
    injection H as <- <-.
    destruct (IH _ _ Hl) as (trs & -> & Hall & Hlen).
    exists (tr1 :: trs). cbn [concat length]. rewrite app_nil_r.
    split; [reflexivity|]. split; [|lia].
    constructor; [rewrite Hx; split; reflexivity|exact Hall].
Qed.

(** Property X20.  A returning allocator has built the client, then
    inserted every planned group, and only then waited for the
    operations, one after the other in insertion order. *)
Theorem allocator_inserts_then_waits (w : World) (j : JobId) (n : nat)
    (rgn : string) (tr : list event) (names : list string) :
  create_placement_groups w j n rgn = (tr, Ok names) ->
  exists ops waits,
    tr = EvBuildCompute
         :: map EvPolicyInsert (planned_groups w j n rgn) ++ concat waits
    /\ Forall2 (fun g op => policy_insert w g = Ok op)
               (planned_groups w j n rgn) ops
    /\ Forall2 (fun op t => fst (wait_for_operation w op) = t
                            /\ is_ok (snd (wait_for_operation w op)) = true)
               ops waits.
Proof.
  unfold create_placement_groups. intros H.
  apply bind_Ok_inv in H as (tr1 & u & tr2 & Hb & H & ->).
  apply bind_Ok_inv in H as (tr3 & st & tr4 & Hloop & H & ->).
  apply bind_Ok_inv in H as (tr5 & rs & tr6 & Hwait & H & ->).
  injection H as <- <-. unfold call in Hb. injection Hb as <- _.
  rewrite pg_loop_skip, multiples_of_22 in Hloop.
  destruct (pg_loop_multiples w j n rgn ((n + 21) / 22) 0 [] [])
    as [[new_ops [Hrun Hall]]|[_ Hfail]].
  2:{ rewrite Hloop in Hfail. discriminate. }
  rewrite Hrun in Hloop. injection Hloop as <- <-. cbn [fst snd app] in *.
  destruct (mapM_Ok_inv _ _ _ _ Hwait) as (waits & -> & Hw & _).
  exists new_ops, waits. rewrite app_nil_r.
  split; [reflexivity|]. split; [exact Hall|exact Hw].
Qed.

Lemma allocator_inserts_then_waits_witness :
  let w := sample_world ∅ [] (fun _ => true) in
  exists ops waits,
    fst (create_placement_groups w (JobStr "7") 23 "us-central1")
    = EvBuildCompute
      :: map EvPolicyInsert (planned_groups w (JobStr "7") 23 "us-central1")
      ++ concat waits
    /\ Forall2 (fun g op => policy_insert w g = Ok op)
               (planned_groups w (JobStr "7") 23 "us-central1") ops
    /\ Forall2 (fun op t => fst (wait_for_operation w op) = t
                            /\ is_ok (snd (wait_for_operation w op)) = true)
               ops waits.
Proof.
  intros w.
  refine (allocator_inserts_then_waits w (JobStr "7") 23 "us-central1"
            _ ["g1-7-1"; "g1-7-2"] _).
  vm_compute. reflexivity.
Defined.

(** *** How many chunks an invocation hands out *)

(** Property X21.  Once the plan is made, every group is cut on its own:
    the number of chunks handed to the pool is the sum over the groups
    of the group size divided by the chunk bound (22 with placement
    groups, 1000 without), rounded up. *)
Theorem dispatched_chunk_count (w : World) (a : string) (j : JobId)
    (tr : list event) (nbp : list (Pid * list NodeName))
    (pgs : option (list string)) :
  main_plan w a j = (tr, Ok (Some (nbp, pgs))) ->
  length (dispatched (main w a j))
  = list_sum (map (fun g => (length g + (if pg_truthy pgs then 22 else 1000)
                             - 1)
                            / (if pg_truthy pgs then 22 else 1000))
                  (dict_values nbp)).
Proof.
  intros Hplan.
  destruct (main_plan_Some_inv _ _ _ _ _ _ Hplan)
    as (lines & Hh & Hne & Hnbp & Hpgs).
  destruct (main_fanout _ _ _ _ _ _ Hplan) as [_ ->]. cbn [dispatched].
  assert (Hlen : forall g, In g (dict_values nbp) ->
            length (fst (chunks g pgs))
            = (length g + (if pg_truthy pgs then 22 else 1000) - 1)
              / (if pg_truthy pgs then 22 else 1000)).
  { intros g Hg.
    destruct (chunks_spec g pgs) as (cs & Hc & _ & _ & _ & Hl).
    - intros Htr. rewrite Hnbp in Hg. apply group_length_le in Hg.
      destruct Hpgs as [[-> _]|(d & _ & _ & -> & _ & _)]; [discriminate|].
      cbn [default from_option id]. rewrite length_map.
      destruct (planned_groups_facts w j (length lines) (region d)) as [-> _].
      apply Nat.Div0.div_le_mono. lia.
    - rewrite Hc. exact Hl. }
  revert Hlen. generalize (dict_values nbp). intros gs Hlen.
  induction gs as [|g gs IH]; [reflexivity|].
  cbn [map concat]. rewrite length_app.
  change (list_sum (?x :: ?l)) with (x + list_sum l).
  rewrite (Hlen g (or_introl eq_refl)), IH; [reflexivity|].
  intros g' Hg'. apply Hlen. right. exact Hg'.
Qed.

Lemma dispatched_chunk_count_witness :
  let w := sample_world (<["g1-c-0" := sample_def true true None false]> ∅)
                        (sample_nodes "g1-c-0" 23) (fun _ => true) in
  length (dispatched (main w "x" (JobStr "7"))) = 2.
Proof.
  intros w.
  assert (Hplan : main_plan w "x" (JobStr "7")
                  = (fst (main_plan w "x" (JobStr "7")),
                     Ok (Some ([("g1-c-0", sample_nodes "g1-c-0" 23)],
                               Some ["g1-7-1"; "g1-7-2"]))))
    by (vm_compute; reflexivity).
  rewrite (dispatched_chunk_count w "x" (JobStr "7") _ _ _ Hplan).
  vm_compute. reflexivity.
Defined.

(** *** A reconciliation that succeeds *)

(** Property X22.  When a failed chunk is reconciled and the listing
    command answers, the worker hands the node names, one per line, to
    that command and issues exactly one node-state update: for the host
    list the command returned, with the fixed reason; the worker ends as
    that update ends. *)
Theorem reconciliation_updates_once (w : World) (c : NodeChunk)
    (n0 : NodeName) (rest : list NodeName) (d : InstanceDefinition)
    (e : exn) (hostlist : string) :
  nodes c = n0 :: rest ->
  is_ok (build_compute w) = true ->
  instance_defs (cfg w) !! get_pid w n0 = Some d ->
  (snd (create_instance w d (nodes c) (pg c)) = Raise e
   \/ exists tr op, create_instance w d (nodes c) (pg c) = (tr, Ok op)
                    /\ snd (wait_for_operation w op) = Raise e) ->
  show_hostlist w (join_lines (nodes c)) = Ok hostlist ->
  update_downs (fst (add_instances w c))
  = [(hostlist, "resume.py failed, see resume.log")]
  /\ In (EvShowHostlist (join_lines (nodes c))) (fst (add_instances w c))
  /\ snd (add_instances w c) = update_down w hostlist FAIL_REASON.
Proof.
  intros Hn Hb Hd Hfail Hh.
  destruct (try_body_raises w d (nodes c) (pg c) e Hfail) as (tr & Hbody & _).
  pose proof (try_body_events w d (nodes c) (pg c)) as Hev.
  rewrite (add_instances_shape w c n0 rest d Hn Hb Hd), Hbody.
  rewrite Hbody in Hev. cbn [fst] in Hev.
  assert (Hdown : down_nodes w (nodes c) FAIL_REASON
                  = ([EvDownNodes (nodes c) FAIL_REASON;
                      EvShowHostlist (join_lines (nodes c));
                      EvUpdateDown hostlist FAIL_REASON],
                     update_down w hostlist FAIL_REASON)).
  { unfold down_nodes, emit, call. rewrite bind_Ok, Hh. reflexivity. }
  rewrite Hdown. cbn [fst snd].
  assert (Htr : update_downs tr = []).
  { eapply omap_quiet; [exact Hev|]. intros [] Hp; try reflexivity.
    destruct Hp. }
  split; [|split; [|reflexivity]].
  - change (EvBuildCompute :: tr ++ ?x :: ?l)
      with ([EvBuildCompute] ++ tr ++ [x] ++ l).
    unfold update_downs in *. rewrite !omap_app, Htr. reflexivity.
  - right. apply in_or_app. right. right. right. left. reflexivity.
Qed.

Lemma reconciliation_updates_once_witness :
  let w := sample_world (<["g1-c-0" := sample_def false false None false]> ∅)
                        ["g1-c-0-0"; "g1-c-0-1"] (fun _ => false) in
  let c := {| nodes := ["g1-c-0-0"; "g1-c-0-1"]; pg := None |} in
  update_downs (fst (add_instances w c))
  = [(join_lines ["g1-c-0-0"; "g1-c-0-1"], "resume.py failed, see resume.log")].
Proof.
  intros w c.
  refine (proj1 (reconciliation_updates_once w c "g1-c-0-0" ["g1-c-0-1"]
                   (sample_def false false None false)
                   (ExternalError "quota")
                   (join_lines ["g1-c-0-0"; "g1-c-0-1"]) _ _ _ _ _)).
  - reflexivity.
  - reflexivity.
  - vm_compute. reflexivity.
  - left. vm_compute. reflexivity.
  - reflexivity.
Defined.
